(** * The blank-line calculator of yapf

    A shallow embedding of [yapf/pytree/blank_line_calculator.py]: the
    visitor that walks a lib2to3 syntax tree and stamps, on the first token
    of definitions, decorators, comments and statements, the number of
    newlines required before it. *)

From Stdlib Require Import ZArith List String Bool Lia.
Import ListNotations.
Local Open Scope string_scope.
Local Open Scope list_scope.
Local Open Scope Z_scope.

(** ** Syntax trees *)

(** The token types the calculator tests for, and a few neighbours. *)
Inductive token : Set :=
  COMMENT | ASYNC | NAME | OP | NEWLINE | INDENT | DEDENT | STRING | NUMBER
| ENDMARKER.

Definition token_eqb (a b : token) : bool :=
  match a, b with
  | COMMENT, COMMENT | ASYNC, ASYNC | NAME, NAME | OP, OP
  | NEWLINE, NEWLINE | INDENT, INDENT | DEDENT, DEDENT
  | STRING, STRING | NUMBER, NUMBER | ENDMARKER, ENDMARKER => true
  | _, _ => false
  end.

Definition tok_name (t : token) : string :=
  match t with
  | COMMENT => "COMMENT" | ASYNC => "ASYNC" | NAME => "NAME" | OP => "OP"
  | NEWLINE => "NEWLINE" | INDENT => "INDENT" | DEDENT => "DEDENT"
  | STRING => "STRING" | NUMBER => "NUMBER" | ENDMARKER => "ENDMARKER"
  end.

(** A lib2to3 tree: a [Leaf] is a token with its position, a [Node] a
    grammar symbol (kept by name) over its children.  Only a leaf has
    [lineno] and [column]. *)
Local Unset Elimination Schemes.
Inductive pytree : Type :=
| Leaf (type : token) (lineno column : Z)
| Node (symbol : string) (children : list pytree).
Local Set Elimination Schemes.

Definition children (t : pytree) : list pytree :=
  match t with
  | Leaf _ _ _ => []
  | Node _ cs => cs
  end.

(** [node.type == tok] for a token type [tok]: the type of a [Node] is a
    grammar symbol, never a token. *)
Definition type_is (t : pytree) (tok : token) : bool :=
  match t with
  | Leaf ty _ _ => token_eqb ty tok
  | Node _ _ => false
  end.

(** Modelled from the spec: [pytree_utils.NodeName] is not part of the
    sources; a node's kind is the name of its token or of its grammar
    symbol. *)
Definition NodeName (t : pytree) : string :=
  match t with
  | Leaf ty _ _ => tok_name ty
  | Node name _ => name
  end.

Section pytree_induction.
Variable P : pytree -> Prop.
Hypothesis P_leaf : forall ty l c, P (Leaf ty l c).
Hypothesis P_node : forall name cs, Forall P cs -> P (Node name cs).

Fixpoint pytree_ind (t : pytree) : P t :=
  match t with
  | Leaf ty l c => P_leaf ty l c
  | Node name cs =>
      P_node name cs
        ((fix all (l : list pytree) : Forall P l :=
            match l with
            | [] => Forall_nil P
            | x :: l' => Forall_cons x (pytree_ind x) (all l')
            end) cs)
  end.
End pytree_induction.

(** ** Node identity

    Python compares nodes by identity and follows [parent] links.  A node is
    named here by its address in the tree: the child indices from the node
    up to the root, innermost first, so that the parent is the tail. *)
Definition path := list nat.

Fixpoint path_eqb (p q : path) : bool :=
  match p, q with
  | [], [] => true
  | i :: p', j :: q' => Nat.eqb i j && path_eqb p' q'
  | _, _ => false
  end.

Fixpoint descend (t : pytree) (route : list nat) : option pytree :=
  match route with
  | [] => Some t
  | i :: route' =>
      match nth_error (children t) i with
      | Some c => descend c route'
      | None => None
      end
  end.

Definition node_at (root : pytree) (p : path) : option pytree :=
  descend root (rev p).

Definition parent (p : path) : option path :=
  match p with
  | [] => None
  | _ :: q => Some q
  end.

Definition prev_sibling (p : path) : option path :=
  match p with
  | S i :: q => Some (i :: q)
  | _ => None
  end.

(** The kind of the node at an address, and the walk up the [parent] links
    to the nearest node of a kind, the start included. *)
Definition name_at (root : pytree) (p : path) : option string :=
  match node_at root p with
  | Some t => Some (NodeName t)
  | None => None
  end.

Definition is_kind (root : pytree) (kind : string) (p : path) : bool :=
  match name_at root p with
  | Some name => String.eqb name kind
  | None => false
  end.

Fixpoint nearest_enclosing (root : pytree) (kind : string) (p : path)
  : option path :=
  if is_kind root kind p then Some p
  else match p with
       | [] => None
       | _ :: q => nearest_enclosing root kind q
       end.

(** A block is a class or a function definition; the nearest enclosing
    block of a node, the node included, is the first one on the way up. *)
Definition is_block (root : pytree) (p : path) : bool :=
  is_kind root "funcdef" p || is_kind root "classdef" p.

Fixpoint nearest_block (root : pytree) (p : path) : option path :=
  if is_block root p then Some p
  else match p with
       | [] => None
       | _ :: q => nearest_block root q
       end.

(** [node.parent] of a node that may be [None]. *)
Definition parent_of (node : option path) : option path :=
  match node with
  | Some p => parent p
  | None => None
  end.

(** ** The calculator's state and the tree's annotations *)

Definition _NO_BLANK_LINES : Z := 1.
Definition _ONE_BLANK_LINE : Z := 2.
Definition _TWO_BLANK_LINES : Z := 3.

Definition _PYTHON_STATEMENTS : list string :=
  [ "small_stmt"; "expr_stmt"; "print_stmt"; "del_stmt"; "pass_stmt";
    "break_stmt"; "continue_stmt"; "return_stmt"; "raise_stmt"; "yield_stmt";
    "import_stmt"; "global_stmt"; "exec_stmt"; "assert_stmt"; "if_stmt";
    "while_stmt"; "for_stmt"; "try_stmt"; "with_stmt"; "nonlocal_stmt";
    "async_stmt"; "simple_stmt" ].

(** The two style knobs read through [style.Get]. *)
Record style : Set := mkStyle {
  BLANK_LINES_AROUND_TOP_LEVEL_DEFINITION : Z;
  BLANK_LINES_BETWEEN_CLASS_DEFS : Z
}.

(** The fields of a [_BlankLineCalculator] instance. *)
Record calculator : Set := mkCalc {
  class_level : Z;
  function_level : Z;
  last_comment_lineno : Z;
  last_was_decorator : bool;
  last_was_class_or_function : bool;
  _prev_stmt : option path
}.

Definition __init__ : calculator :=
  mkCalc 0 0 0 false false None.

Definition with_class_level (v : Z) (s : calculator) :=
  mkCalc v (function_level s) (last_comment_lineno s) (last_was_decorator s)
    (last_was_class_or_function s) (_prev_stmt s).
Definition with_function_level (v : Z) (s : calculator) :=
  mkCalc (class_level s) v (last_comment_lineno s) (last_was_decorator s)
    (last_was_class_or_function s) (_prev_stmt s).
Definition with_last_comment_lineno (v : Z) (s : calculator) :=
  mkCalc (class_level s) (function_level s) v (last_was_decorator s)
    (last_was_class_or_function s) (_prev_stmt s).
Definition with_last_was_decorator (v : bool) (s : calculator) :=
  mkCalc (class_level s) (function_level s) (last_comment_lineno s) v
    (last_was_class_or_function s) (_prev_stmt s).
Definition with_last_was_class_or_function (v : bool) (s : calculator) :=
  mkCalc (class_level s) (function_level s) (last_comment_lineno s)
    (last_was_decorator s) v (_prev_stmt s).
Definition with_prev_stmt (v : option path) (s : calculator) :=
  mkCalc (class_level s) (function_level s) (last_comment_lineno s)
    (last_was_decorator s) (last_was_class_or_function s) v.

(** What a walk can change: the calculator, the [newlines] annotation of
    the tree's nodes, kept as the list of writes with the latest first, and
    the nodes [Visit] was called on, latest first. *)
Record heap : Type := mkHeap {
  self : calculator;
  newlines : list (path * option Z);
  visits : list path
}.

Inductive exn : Set := IndexError | AttributeError.

Inductive result (A : Type) : Type :=
| Ok (a : A) (h : heap)
| Raised (e : exn) (h : heap).
Arguments Ok {A} a h.
Arguments Raised {A} e h.

Definition heap_of {A} (r : result A) : heap :=
  match r with
  | Ok _ h => h
  | Raised _ h => h
  end.

Definition M (A : Type) : Type := heap -> result A.

Definition ret {A} (a : A) : M A := fun h => Ok a h.

Definition bind {A B} (m : M A) (f : A -> M B) : M B :=
  fun h =>
    match m h with
    | Ok a h' => f a h'
    | Raised e h' => Raised e h'
    end.

Definition raise {A} (e : exn) : M A := fun h => Raised e h.

Declare Scope walk_scope.
Delimit Scope walk_scope with walk.
Notation "x <- m ; f" := (bind m (fun x => f))
  (at level 100, m at next level, right associativity) : walk_scope.
Notation "m ;; f" := (bind m (fun _ => f))
  (at level 100, f at level 200, right associativity) : walk_scope.
Local Open Scope walk_scope.

Definition get_self : M calculator := fun h => Ok (self h) h.

Definition update (f : calculator -> calculator) : M unit :=
  fun h => Ok tt (mkHeap (f (self h)) (newlines h) (visits h)).

Definition record_visit (p : path) : M unit :=
  fun h => Ok tt (mkHeap (self h) (newlines h) (p :: visits h)).

(** [node.children[i]], as the address of that child. *)
Definition item (p : path) (node : pytree) (i : nat) : M (path * pytree) :=
  match nth_error (children node) i with
  | Some c => ret (i :: p, c)
  | None => raise IndexError
  end.

Definition lineno_of (t : pytree) : M Z :=
  match t with
  | Leaf _ l _ => ret l
  | Node _ _ => raise AttributeError
  end.

Definition column_of (t : pytree) : M Z :=
  match t with
  | Leaf _ _ c => ret c
  | Node _ _ => raise AttributeError
  end.

(** Modelled from the spec: [pytree_utils.SetNodeAnnotation] is not part of
    the sources; it overwrites the node's annotation slot. *)
Definition SetNodeAnnotation (p : path) (v : option Z) : M unit :=
  fun h => Ok tt (mkHeap (self h) ((p, v) :: newlines h) (visits h)).

Definition _SetNumNewlines (p : path) (num_newlines : option Z) : M unit :=
  SetNodeAnnotation p num_newlines.

(** Modelled from the spec: [pytree_utils.GetNodeAnnotation] is not part of
    the sources; a slot never written, or written with [None], reads as
    absent. *)
Fixpoint GetNodeAnnotation (ann : list (path * option Z)) (p : path)
  : option Z :=
  match ann with
  | [] => None
  | (q, v) :: ann' => if path_eqb q p then v else GetNodeAnnotation ann' p
  end.

(** Whether a list of writes has one at address [p]. *)
Definition written (ann : list (path * option Z)) (p : path) : bool :=
  existsb (fun w => path_eqb (fst w) p) ann.

(** The number of blank lines an annotation value stands for. *)
Definition blank_lines (num_newlines : Z) : Z := num_newlines - 1.

(** Modelled from the spec: [pytree_utils.FirstLeafNode] is not part of the
    sources; it follows first children down to a leaf. *)
Fixpoint FirstLeafNode (p : path) (node : pytree) : M (path * pytree) :=
  match node with
  | Leaf _ _ _ => ret (p, node)
  | Node _ [] => raise IndexError
  | Node _ (c :: _) => FirstLeafNode (0%nat :: p) c
  end.

(** Modelled from the spec: [pytree_utils.IsCommentStatement] is not part
    of the sources; a standalone comment is a [simple_stmt] whose first
    child is a comment token. *)
Definition IsCommentStatement (node : pytree) : M bool :=
  if (NodeName node =? "simple_stmt")%string then
    match children node with
    | [] => raise IndexError
    | c :: _ => ret (type_is c COMMENT)
    end
  else ret false.

Section Walk.

Variable cfg : style.

(** The tree the walk runs on; [parent] and [prev_sibling] links are
    followed in it. *)
Variable root : pytree.

(** [pytree_utils.DecoratedTarget(node, kinds)] is not part of the
    sources, and the spec does not say how the target is found: it is a
    parameter of the walk. *)
Variable DecoratedTarget : path -> list string -> option path.

(** Modelled from the spec: [pytree_utils.EnclosingFunc] is not part of
    the sources; it walks up from the node, the node included, to the
    node's nearest enclosing block.  A node qualifies for the same-class
    test only if that block is itself a function definition, which the
    caller checks with [IsFuncDef]: a statement of a class body, or of a
    class nested in a method, does not. *)
Definition EnclosingFunc (p : path) : option path :=
  nearest_block root p.

(** Modelled from the spec: [pytree_utils.IsFuncDef] is not part of the
    sources; it holds of a function definition and of nothing else. *)
Definition IsFuncDef (f : option path) : bool :=
  match f with
  | Some p => is_kind root "funcdef" p
  | None => false
  end.

(** Modelled from the spec: [pytree_utils.EnclosingClass] is not part of
    the sources; it walks up from the node, the node included, to the
    nearest class definition. *)
Definition EnclosingClass (node : option path) : option path :=
  match node with
  | Some p => nearest_enclosing root "classdef" p
  | None => None
  end.

Definition _DecoratedFuncdef (p : path) : option path :=
  DecoratedTarget p ["funcdef"].

Definition _MethodsInSameClass (prev_node curr_node : path) : bool :=
  let prev_func := EnclosingFunc prev_node in
  let curr_func := EnclosingFunc curr_node in
  if negb (IsFuncDef prev_func && IsFuncDef curr_func) then false
  else
    let prev_cls := EnclosingClass (parent_of prev_func) in
    let curr_cls := EnclosingClass (parent_of curr_func) in
    match prev_cls, curr_cls with
    | Some a, Some b => path_eqb a b
    | _, _ => false
    end.

Definition _AsyncFunction (p : path) : bool :=
  match prev_sibling p with
  | Some s =>
      match node_at root s with
      | Some t => type_is t ASYNC
      | None => false
      end
  | None => false
  end.

Definition _StartsInZerothColumn (p : path) (node : pytree) : M bool :=
  leaf <- FirstLeafNode p node ;
  c <- column_of (snd leaf) ;
  if c =? 0 then ret true
  else if _AsyncFunction p then
    match prev_sibling p with
    | Some s =>
        match node_at root s with
        | Some t => c' <- column_of t ; ret (c' =? 0)
        | None => raise AttributeError
        end
    | None => raise AttributeError
    end
  else ret false.

Definition _IsTopLevel (p : path) (node : pytree) : M bool :=
  s <- get_self ;
  if negb ((class_level s =? 0) && (function_level s =? 0)) then ret false
  else _StartsInZerothColumn p node.

Definition _GetNumNewlines (p : path) (node : pytree) : M Z :=
  s <- get_self ;
  if last_was_decorator s then ret _NO_BLANK_LINES
  else
    top <- _IsTopLevel p node ;
    if top then ret (1 + BLANK_LINES_AROUND_TOP_LEVEL_DEFINITION cfg)
    else
      match _prev_stmt s with
      | Some prev =>
          if _MethodsInSameClass prev p
          then ret (Z.max _ONE_BLANK_LINE
                      (1 + BLANK_LINES_BETWEEN_CLASS_DEFS cfg))
          else ret _NO_BLANK_LINES
      | None => ret _NO_BLANK_LINES
      end.

(** Modelled from the spec: the base class [pytree_visitor.PyTreeVisitor]
    is not part of the sources.  Its [DefaultLeafVisit] does nothing, and
    its [Visit] dispatches on the node's kind. *)
Definition DefaultLeafVisit (p : path) : M unit := ret tt.

(** [Visit] on a token: the calculator has no visit method for a token
    kind, so the default leaf visit runs. *)
Definition Visit_Leaf (p : path) : M unit :=
  record_visit p ;; DefaultLeafVisit p.

(** [for child in node.children[index:]: self.Visit(child)] *)
Definition visit_each (visit : path -> pytree -> M unit) (p : path)
    (index : nat) : nat -> list pytree -> M unit :=
  fix loop (i : nat) (cs : list pytree) : M unit :=
    match cs with
    | [] => ret tt
    | c :: cs' =>
        (if (index <=? i)%nat then visit (i :: p) c else ret tt) ;;
        loop (S i) cs'
    end.

(** The [while] loop of [_SetBlankLinesBetweenCommentAndClassFunc], over
    the children from [index] on.  The child it visits is a comment token
    ([IsCommentStatement] has just looked at its type). *)
Definition leading_comments (p : path) : nat -> list pytree -> M nat :=
  fix loop (index : nat) (rest : list pytree) : M nat :=
    match rest with
    | [] => raise IndexError
    | c :: rest' =>
        is_comment <- IsCommentStatement c ;
        if is_comment then
          Visit_Leaf (0%nat :: index :: p) ;;
          s <- get_self ;
          (if last_was_decorator s then ret tt
           else _SetNumNewlines (0%nat :: index :: p)
                  (Some _ONE_BLANK_LINE)) ;;
          loop (S index) rest'
        else ret index
    end.

Definition _SetBlankLinesBetweenCommentAndClassFunc
    (p : path) (node : pytree) : M nat :=
  index <- leading_comments p 0%nat (children node) ;
  let otherwise : M unit :=
    s <- get_self ;
    child <- item p node index ;
    l <- lineno_of (snd child) ;
    num_newlines <-
      (if last_comment_lineno s + 1 =? l then ret _NO_BLANK_LINES
       else _GetNumNewlines p node) ;
    _SetNumNewlines (fst child) (Some num_newlines) in
  (if (0 <? index)%nat then
     child <- item p node index ;
     l <- lineno_of (snd child) ;
     comment_stmt <- item p node (index - 1)%nat ;
     comment <- item (fst comment_stmt) (snd comment_stmt) 0%nat ;
     lc <- lineno_of (snd comment) ;
     if l - 1 =? lc
     then _SetNumNewlines (fst child) (Some _NO_BLANK_LINES)
     else otherwise
   else otherwise) ;;
  ret index.

Definition DefaultNodeVisit (visit : path -> pytree -> M unit)
    (p : path) (node : pytree) : M unit :=
  s <- get_self ;
  (if last_was_class_or_function s then
     if existsb (String.eqb (NodeName node)) _PYTHON_STATEMENTS then
       leaf <- FirstLeafNode p node ;
       n <- _GetNumNewlines (fst leaf) (snd leaf) ;
       _SetNumNewlines (fst leaf) (Some n)
     else ret tt
   else ret tt) ;;
  update (with_last_was_class_or_function false) ;;
  visit_each visit p 0%nat 0%nat (children node).

Definition Visit_simple_stmt (visit : path -> pytree -> M unit)
    (p : path) (node : pytree) : M unit :=
  DefaultNodeVisit visit p node ;;
  first <- item p node 0%nat ;
  if type_is (snd first) COMMENT then
    l <- lineno_of (snd first) ;
    update (with_last_comment_lineno l)
  else
    update (with_prev_stmt (Some p)).

Definition Visit_decorator (visit : path -> pytree -> M unit)
    (p : path) (node : pytree) : M unit :=
  let func := _DecoratedFuncdef p in
  s <- get_self ;
  adjacent_comment <-
    (if last_comment_lineno s =? 0 then ret false
     else first <- item p node 0%nat ;
          l <- lineno_of (snd first) ;
          ret (last_comment_lineno s =? l - 1)) ;
  (if adjacent_comment : bool then
     first <- item p node 0%nat ;
     _SetNumNewlines (fst first) (Some _NO_BLANK_LINES)
   else if last_was_decorator s then
     first <- item p node 0%nat ;
     _SetNumNewlines (fst first) (Some _NO_BLANK_LINES)
   else if match func, _prev_stmt s with
           | Some f, Some prev => _MethodsInSameClass prev f
           | _, _ => false
           end then
     first <- item p node 0%nat ;
     _SetNumNewlines (fst first)
       (Some (Z.max _ONE_BLANK_LINE
                (1 + BLANK_LINES_BETWEEN_CLASS_DEFS cfg)))
   else
     first <- item p node 0%nat ;
     n <- _GetNumNewlines p node ;
     _SetNumNewlines (fst first) (Some n)) ;;
  visit_each visit p 0%nat 0%nat (children node) ;;
  update (with_last_was_decorator true).

Definition Visit_classdef (visit : path -> pytree -> M unit)
    (p : path) (node : pytree) : M unit :=
  update (with_last_was_class_or_function false) ;;
  index <- _SetBlankLinesBetweenCommentAndClassFunc p node ;
  update (with_last_was_decorator false) ;;
  update (fun s => with_class_level (class_level s + 1) s) ;;
  visit_each visit p index 0%nat (children node) ;;
  update (fun s => with_class_level (class_level s - 1) s) ;;
  update (with_last_was_class_or_function true) ;;
  update (with_prev_stmt (Some p)).

Definition Visit_funcdef (visit : path -> pytree -> M unit)
    (p : path) (node : pytree) : M unit :=
  update (with_last_was_class_or_function false) ;;
  index <- _SetBlankLinesBetweenCommentAndClassFunc p node ;
  index <-
    (if _AsyncFunction p then
       match parent p with
       | Some q =>
           match node_at root q with
           | Some unit_root =>
               index <- _SetBlankLinesBetweenCommentAndClassFunc
                          q unit_root ;
               first <- item p node 0%nat ;
               _SetNumNewlines (fst first) None ;;
               ret index
           | None => raise AttributeError
           end
       | None => raise AttributeError
       end
     else _SetBlankLinesBetweenCommentAndClassFunc p node) ;
  update (with_last_was_decorator false) ;;
  update (fun s => with_function_level (function_level s + 1) s) ;;
  visit_each visit p index 0%nat (children node) ;;
  update (fun s => with_function_level (function_level s - 1) s) ;;
  update (with_last_was_class_or_function true) ;;
  update (with_prev_stmt (Some p)).

(** [PyTreeVisitor.Visit]: the method [Visit_<kind>] when the calculator
    has one, the default visit otherwise. *)
Fixpoint Visit (p : path) (node : pytree) {struct node} : M unit :=
  match node with
  | Leaf _ _ _ => Visit_Leaf p
  | Node name cs =>
      let node := Node name cs in
      record_visit p ;;
      if (name =? "simple_stmt")%string then Visit_simple_stmt Visit p node
      else if (name =? "decorator")%string then Visit_decorator Visit p node
      else if (name =? "classdef")%string then Visit_classdef Visit p node
      else if (name =? "funcdef")%string then Visit_funcdef Visit p node
      else DefaultNodeVisit Visit p node
  end.

End Walk.

(** [CalculateBlankLines(tree)]: a fresh calculator visits the tree, whose
    nodes carry the annotations [ann] when the walk starts. *)
Definition CalculateBlankLines (cfg : style)
    (DecoratedTarget : pytree -> path -> list string -> option path)
    (tree : pytree) (ann : list (path * option Z)) : result unit :=
  Visit cfg tree (DecoratedTarget tree) [] tree (mkHeap __init__ ann []).

(** ** Sample trees *)

(** One way to resolve a decorator's target, used to run the walk on the
    sample trees: the last child of the nearest enclosing [decorated] node,
    when it is of one of the kinds asked for. *)
Definition last_child_target (root : pytree) (p : path)
    (kinds : list string) : option path :=
  match nearest_enclosing root "decorated" p with
  | Some q =>
      match node_at root q with
      | Some t =>
          let i := (List.length (children t) - 1)%nat in
          match nth_error (children t) i with
          | Some c =>
              if existsb (String.eqb (NodeName c)) kinds
              then Some (i :: q) else None
          | None => None
          end
      | None => None
      end
  | None => None
  end.

(** [def f(): pass] over two lines, the keyword at line [l], column [c]. *)
Definition def_children (l c : Z) : list pytree :=
  [ Leaf NAME l c; Leaf NAME l (c + 4);
    Node "parameters" [Leaf OP l (c + 5); Leaf OP l (c + 6)];
    Leaf OP l (c + 7);
    Node "suite"
      [ Leaf NEWLINE l (c + 8); Leaf INDENT (l + 1) 0;
        Node "simple_stmt"
          [Leaf NAME (l + 1) (c + 2); Leaf NEWLINE (l + 1) (c + 6)];
        Leaf DEDENT (l + 2) 0 ] ].

Definition def_stmt (l c : Z) : pytree := Node "funcdef" (def_children l c).

(** Two functions at top level, at lines 1 and 4. *)
Definition two_top_level_defs : pytree :=
  Node "file_input" [def_stmt 1 0; def_stmt 4 0; Leaf ENDMARKER 6 0].

(** A statement, then a function with a comment on the line before it; the
    comment is the first child of the [funcdef]. *)
Definition commented_def : pytree :=
  Node "file_input"
    [ Node "simple_stmt" [Leaf NAME 1 0; Leaf NEWLINE 1 5];
      Node "funcdef"
        (Node "simple_stmt" [Leaf COMMENT 3 0] :: def_children 4 0);
      Leaf ENDMARKER 6 0 ].

(** A class at line 1 with two methods, at lines 2 and 5, and the file
    that holds it. *)
Definition class_of_two_methods : pytree :=
  Node "classdef"
    [ Leaf NAME 1 0; Leaf NAME 1 6; Leaf OP 1 7;
      Node "suite"
        [ Leaf NEWLINE 1 8; Leaf INDENT 2 0;
          def_stmt 2 2; def_stmt 5 2; Leaf DEDENT 7 0 ] ].

Definition two_methods : pytree :=
  Node "file_input" [class_of_two_methods; Leaf ENDMARKER 7 0].

(** [@name] at line 4. *)
Definition decorator_at_4 : pytree :=
  Node "decorator" [Leaf OP 4 2; Leaf NAME 4 3; Leaf NEWLINE 4 9].

(** A class whose body is a statement at line 2 and a decorated method:
    a comment at line 3, the decorator at line 4, the function at line 5.
    The comment is the first child of the [decorated] node. *)
Definition decorated_method : pytree :=
  Node "file_input"
    [ Node "classdef"
        [ Leaf NAME 1 0; Leaf NAME 1 6; Leaf OP 1 7;
          Node "suite"
            [ Leaf NEWLINE 1 8; Leaf INDENT 2 0;
              Node "simple_stmt"
                [ Node "expr_stmt"
                    [Leaf NAME 2 2; Leaf OP 2 4; Leaf NUMBER 2 6];
                  Leaf NEWLINE 2 7 ];
              Node "decorated"
                [ Node "simple_stmt" [Leaf COMMENT 3 2];
                  decorator_at_4;
                  def_stmt 5 2 ];
              Leaf DEDENT 7 0 ] ];
      Leaf ENDMARKER 7 0 ].

(** A class with a method at line 2 and a decorated method after it: the
    decorator at line 4, the function at line 5. *)
Definition decorated_second_method : pytree :=
  Node "file_input"
    [ Node "classdef"
        [ Leaf NAME 1 0; Leaf NAME 1 6; Leaf OP 1 7;
          Node "suite"
            [ Leaf NEWLINE 1 8; Leaf INDENT 2 0;
              def_stmt 2 2;
              Node "decorated" [decorator_at_4; def_stmt 5 2];
              Leaf DEDENT 7 0 ] ];
      Leaf ENDMARKER 7 0 ].

(** [@name] at line 1. *)
Definition decorator_at_1 : pytree :=
  Node "decorator" [Leaf OP 1 0; Leaf NAME 1 1; Leaf NEWLINE 1 7].

(** A file that starts with a decorated function. *)
Definition decorated_first : pytree :=
  Node "file_input"
    [ Node "decorated" [decorator_at_1; def_stmt 2 0];
      Leaf ENDMARKER 4 0 ].

(** A statement at line 1, then [async def f(): pass] at line 4. *)
Definition async_def : pytree :=
  Node "file_input"
    [ Node "simple_stmt" [Leaf NAME 1 0; Leaf NEWLINE 1 5];
      Node "async_stmt" [Leaf ASYNC 4 0; def_stmt 4 6];
      Leaf ENDMARKER 6 0 ].

(** A class whose first method holds a nested class, with a statement at
    line 4 in the body of the nested class, and a second method at line
    6. *)
Definition class_in_method : pytree :=
  Node "file_input"
    [ Node "classdef"
        [ Leaf NAME 1 0; Leaf NAME 1 6; Leaf OP 1 7;
          Node "suite"
            [ Leaf NEWLINE 1 8; Leaf INDENT 2 0;
              Node "funcdef"
                [ Leaf NAME 2 2; Leaf NAME 2 6;
                  Node "parameters" [Leaf OP 2 7; Leaf OP 2 8];
                  Leaf OP 2 9;
                  Node "suite"
                    [ Leaf NEWLINE 2 10; Leaf INDENT 3 0;
                      Node "classdef"
                        [ Leaf NAME 3 4; Leaf NAME 3 10; Leaf OP 3 11;
                          Node "suite"
                            [ Leaf NEWLINE 3 12; Leaf INDENT 4 0;
                              Node "simple_stmt"
                                [Leaf NAME 4 6; Leaf NEWLINE 4 10];
                              Leaf DEDENT 5 0 ] ];
                      Leaf DEDENT 5 0 ] ];
              def_stmt 6 2;
              Leaf DEDENT 8 0 ] ];
      Leaf ENDMARKER 8 0 ].

(** The state of the calculator in [two_methods] when the second method is
    reached: inside the class, the first method remembered. *)
Definition after_first_method : heap :=
  mkHeap (mkCalc 1 0 0 false true (Some [2; 3; 0]%nat)) [] [].

(** The state of the calculator in [decorated_method] when the decorator is
    reached: inside the class, the comment at line 3 seen, the statement at
    line 2 remembered. *)
Definition before_decorator : heap :=
  mkHeap (mkCalc 1 0 3 false false (Some [2; 3; 0]%nat)) [] [].

(** The state of the calculator in [async_def] when the function is
    reached: the statement at line 1 remembered. *)
Definition before_async_def : heap :=
  mkHeap (mkCalc 0 0 0 false false (Some [0]%nat)) [] [].

(** The annotations the walk leaves on a tree that had none. *)
Definition annotations_after (cfg : style) (tree : pytree)
  : list (path * option Z) :=
  newlines (heap_of (CalculateBlankLines cfg last_child_target tree [])).

(** ** What a computation writes *)

(** [h'] comes from [h] by annotation writes that all satisfy [ok]. *)
Definition extends (ok : path * option Z -> Prop) (h h' : heap) : Prop :=
  exists W, newlines h' = W ++ newlines h /\ Forall ok W.

(** Every annotation [m] writes satisfies [ok], whether [m] returns or
    raises, and a value it returns satisfies [R]. *)
Definition sound {A} (ok : path * option Z -> Prop) (R : A -> Prop)
    (m : M A) : Prop :=
  forall h,
    extends ok h (heap_of (m h)) /\ forall a h', m h = Ok a h' -> R a.

(** The values the calculator writes. *)
Definition allowed (cfg : style) (v : option Z) : Prop :=
  v = None \/ v = Some _NO_BLANK_LINES \/ v = Some _ONE_BLANK_LINE
  \/ v = Some (1 + BLANK_LINES_AROUND_TOP_LEVEL_DEFINITION cfg)
  \/ v = Some (Z.max _ONE_BLANK_LINE (1 + BLANK_LINES_BETWEEN_CLASS_DEFS cfg)).

(** [a] is the address of a node strictly inside the subtree at [p]. *)
Definition below (p a : path) : Prop :=
  exists s, s <> [] /\ a = s ++ p.

(** Where visiting [node] at [p] may write: inside its subtree, and for a
    function definition also inside its parent's, where the [async] unit
    is annotated. *)
Definition reach (p : path) (node : pytree) (a : path) : Prop :=
  below p a \/ (NodeName node = "funcdef" /\ below (tl p) a).

Definition writes_inside (cfg : style) (p : path) (w : path * option Z)
  : Prop :=
  allowed cfg (snd w) /\ below p (fst w).

Definition writes_within (cfg : style) (p : path) (node : pytree)
    (w : path * option Z) : Prop :=
  allowed cfg (snd w) /\ reach p node (fst w).

Definition anything {A} (a : A) : Prop := True.

(** What is assumed of the visitor handed to the visit methods. *)
Definition visit_writes_within (cfg : style)
    (visit : path -> pytree -> M unit) (c : pytree) : Prop :=
  forall q, sound (writes_within cfg q c) anything (visit q c).

(** An annotation as the spec has it: absent, or 1, 2 or 3. *)
Definition blank_line_annotation (v : option Z) : Prop :=
  v = None \/ v = Some _NO_BLANK_LINES \/ v = Some _ONE_BLANK_LINE
  \/ v = Some _TWO_BLANK_LINES.

(** ** A walk does not read annotations *)

(** The heap [h] with the older annotations [old] under its own. *)
Definition graft (old : list (path * option Z)) (h : heap) : heap :=
  mkHeap (self h) (newlines h ++ old) (visits h).

Definition graft_result {A} (old : list (path * option Z)) (r : result A)
  : result A :=
  match r with
  | Ok a h => Ok a (graft old h)
  | Raised e h => Raised e (graft old h)
  end.

(** [m] runs the same whatever annotations are already there, and only
    adds to them. *)
Definition framed {A} (m : M A) : Prop :=
  forall old h, m (graft old h) = graft_result old (m h).

(** ** Leading comments *)

(** A standalone comment at line [l]: a [simple_stmt] whose first child is
    the comment token. *)
Definition comment_statement (l : Z) (t : pytree) : Prop :=
  exists col more, t = Node "simple_stmt" (Leaf COMMENT l col :: more).

Definition is_comment_statement (t : pytree) : Prop :=
  exists l, comment_statement l t.

(** The line of the last of a definition's leading comments. *)
Definition last_comment_line (comments : list pytree) : option Z :=
  match rev comments with
  | Node _ (Leaf _ l _ :: _) :: _ => Some l
  | _ => None
  end.

(** ** Expressions *)

(** A subtree without statements, definitions and decorators, as the
    children of a decorator are: tokens, and nodes of other kinds over
    such subtrees. *)
Fixpoint expression (t : pytree) : bool :=
  match t with
  | Leaf _ _ _ => true
  | Node name cs =>
      negb (existsb (String.eqb name)
              ("decorator" :: "classdef" :: "funcdef" :: _PYTHON_STATEMENTS))
      && forallb expression cs
  end.

(** The test of [Visit_decorator] for a comment on the line before the
    decorator at line [l]. *)
Definition comment_on_previous_line (s : calculator) (l : Z) : bool :=
  negb (last_comment_lineno s =? 0) && (last_comment_lineno s =? l - 1).

(** ** Readers, postconditions and plain subtrees *)

(** [m] only reads the calculator: its outcome depends on nothing else and
    it leaves the heap as it found it. *)
Definition reader {A} (m : M A) : Prop :=
  forall h1 h2,
    self h1 = self h2 ->
    m h1 = match m h2 with
           | Ok a _ => Ok a h1
           | Raised e _ => Raised e h1
           end.

(** When [m] returns from [h], its value and heap satisfy [Q]. *)
Definition post {A} (m : M A) (h : heap) (Q : A -> heap -> Prop) : Prop :=
  match m h with
  | Ok a h' => Q a h'
  | Raised _ _ => True
  end.

(** The two nesting depths of the calculator. *)
Definition levels (s : calculator) : Z * Z :=
  (class_level s, function_level s).

(** A subtree without simple statements, decorators and definitions: the
    kinds the calculator has a visit method for. *)
Fixpoint plain (t : pytree) : bool :=
  match t with
  | Leaf _ _ _ => true
  | Node name cs =>
      negb (existsb (String.eqb name)
              ["simple_stmt"; "decorator"; "classdef"; "funcdef"])
      && forallb plain cs
  end.

(** The addresses of the comment tokens of the [n] comment statements that
    are the children [index], [index + 1], ... of [p], the last first. *)
Definition comment_tokens (p : path) (index n : nat) : list path :=
  rev (map (fun i => (0 :: i :: p)%nat) (seq index n)).

(** The annotations the comment-then-definition routine writes on those
    tokens: one blank line each, unless a decorator came just before. *)
Definition comment_writes (s : calculator) (p : path) (index n : nat)
  : list (path * option Z) :=
  if last_was_decorator s then []
  else map (fun a => (a, Some _ONE_BLANK_LINE)) (comment_tokens p index n).

(** The two tests of the routine that force no blank line before the
    keyword at line [ln]: the last leading comment, or the last standalone
    comment seen, is on the line before. *)
Definition comment_adjacent (s : calculator) (comments : list pytree)
    (ln : Z) : bool :=
  match last_comment_line comments with
  | Some lc => ln - 1 =? lc
  | None => false
  end
  || (last_comment_lineno s + 1 =? ln).

(** What [Visit_simple_stmt] records once the children are visited: the
    line of a comment, or the statement itself as the previous statement. *)
Definition record_simple_stmt (p : path) (first : pytree) (s : calculator)
  : calculator :=
  match first with
  | Leaf COMMENT l _ => with_last_comment_lineno l s
  | _ => with_prev_stmt (Some p) s
  end.

(** When [m] returns, the nesting depths are what they were. *)
Definition keeps_levels {A} (m : M A) : Prop :=
  forall h, post m h (fun _ h' => levels (self h') = levels (self h)).

(** ** The keyword of an [async] definition *)

(** A comment token, then [async def f(): pass] at line 4: the comment is
    the first child of the unit, before the [async] keyword. *)
Definition async_after_comment_token : pytree :=
  Node "file_input"
    [ Node "simple_stmt" [Leaf NAME 1 0; Leaf NEWLINE 1 5];
      Node "async_stmt" [Leaf COMMENT 3 0; Leaf ASYNC 4 0; def_stmt 4 6];
      Leaf ENDMARKER 6 0 ].

(** The same with the comment wrapped in a statement, a leading comment of
    the unit. *)
Definition async_after_comment : pytree :=
  Node "file_input"
    [ Node "simple_stmt" [Leaf NAME 1 0; Leaf NEWLINE 1 5];
      Node "async_stmt"
        [ Node "simple_stmt" [Leaf COMMENT 3 0];
          Leaf ASYNC 4 0; def_stmt 4 6 ];
      Leaf ENDMARKER 6 0 ].

(** The state of the calculator in [async_after_comment] when the function
    is reached: the comment at line 3 seen, the statement at line 1
    remembered. *)
Definition before_commented_async_def : heap :=
  mkHeap (mkCalc 0 0 3 false false (Some [0]%nat)) [] [].

(** A write that leaves no value at the address [d]: it is made elsewhere,
    or it clears the slot. *)
Definition spares (d : path) (w : path * option Z) : Prop :=
  fst w <> d \/ snd w = None.

(** When [m] returns, the writes it has made leave no value at [d]: the
    latest of them at [d], if there is one, wrote [None]. *)
Definition hush {A} (d : path) (m : M A) : Prop :=
  forall h,
    post m h (fun _ h' =>
      exists W,
        newlines h' = W ++ newlines h /\ GetNodeAnnotation W d = None).

(** ** Addresses and annotation lookup *)

Lemma path_eqb_refl (p : path) : path_eqb p p = true.
Proof.
  induction p as [|i p IH]; simpl; [reflexivity|].
  now rewrite Nat.eqb_refl, IH.
Qed.

Lemma path_eqb_eq (p q : path) : path_eqb p q = true <-> p = q.
Proof.
  split; [|intros ->; apply path_eqb_refl].
  revert q; induction p as [|i p IH]; intros [|j q]; simpl; try discriminate;
    [reflexivity|].
  intros H; apply andb_true_iff in H as [Hi Hp].
  apply Nat.eqb_eq in Hi; apply IH in Hp; congruence.
Qed.

Lemma path_eqb_neq (p q : path) : p <> q -> path_eqb p q = false.
Proof.
  intros H; destruct (path_eqb p q) eqn:E; [|reflexivity].
  apply path_eqb_eq in E; contradiction.
Qed.

Lemma GetNodeAnnotation_app (W X : list (path * option Z)) (p : path) :
  GetNodeAnnotation (W ++ X) p =
  if written W p then GetNodeAnnotation W p else GetNodeAnnotation X p.
Proof.
  induction W as [|[q v] W IH]; simpl; [reflexivity|].
  destruct (path_eqb q p); simpl; [reflexivity|exact IH].
Qed.

Lemma written_false (W : list (path * option Z)) (p : path) :
  Forall (fun w => fst w <> p) W -> written W p = false.
Proof.
  induction 1 as [|[q v] W H _ IH]; simpl; [reflexivity|].
  simpl in H; now rewrite (path_eqb_neq _ _ H), IH.
Qed.

Lemma GetNodeAnnotation_head (p : path) (v : option Z)
    (ann : list (path * option Z)) :
  GetNodeAnnotation ((p, v) :: ann) p = v.
Proof. simpl. now rewrite path_eqb_refl. Qed.

Lemma GetNodeAnnotation_other (p q : path) (v : option Z)
    (ann : list (path * option Z)) :
  q <> p ->
  GetNodeAnnotation ((q, v) :: ann) p = GetNodeAnnotation ann p.
Proof. intros H. simpl. now rewrite (path_eqb_neq _ _ H). Qed.

(** ** The visitor's loops *)

(** Visiting a token is the default leaf visit. *)
Lemma Visit_token (cfg : style) (root : pytree)
    (DecoratedTarget : path -> list string -> option path) (p : path)
    (ty : token) (l c : Z) :
  Visit cfg root DecoratedTarget p (Leaf ty l c) = Visit_Leaf p.
Proof. reflexivity. Qed.

Lemma visit_each_from (visit : path -> pytree -> M unit) (p : path)
    (index : nat) (cs : list pytree) :
  forall i h,
    (index <= i)%nat ->
    visit_each visit p index i cs h = visit_each visit p 0 i cs h.
Proof.
  induction cs as [|c cs IH]; intros i h Hi; simpl; [reflexivity|].
  unfold bind. rewrite (proj2 (Nat.leb_le index i) Hi).
  destruct (visit (i :: p)%nat c h) as [[] h1|e h1]; [|reflexivity].
  apply IH. lia.
Qed.

(** [visit_each] from [index] visits the slice [children[index:]], each
    child under its own index. *)
Lemma visit_each_slice (visit : path -> pytree -> M unit) (p : path)
    (index : nat) (cs : list pytree) (h : heap) :
  visit_each visit p index 0 cs h =
  visit_each visit p 0 index (skipn index cs) h.
Proof.
  assert (H : forall i h0,
            (i <= index)%nat ->
            visit_each visit p index i cs h0 =
            visit_each visit p 0 index (skipn (index - i) cs) h0).
  { induction cs as [|c cs IH]; intros i h0 Hi.
    - now rewrite skipn_nil.
    - destruct (Nat.eq_dec i index) as [->|Hne].
      + rewrite Nat.sub_diag. simpl skipn. apply visit_each_from. lia.
      + replace (index - i)%nat with (S (index - S i)) by lia.
        cbn [skipn visit_each]. unfold bind.
        rewrite (proj2 (Nat.leb_gt index i)) by lia.
        cbn [ret]. apply IH. lia. }
  rewrite (H 0%nat h) by lia. now rewrite Nat.sub_0_r.
Qed.

(** ** The generic rule *)

Lemma nearest_enclosing_is_kind (root : pytree) (kind : string) (p q : path) :
  nearest_enclosing root kind p = Some q -> is_kind root kind q = true.
Proof.
  induction p as [|i p IH]; cbn [nearest_enclosing].
  - destruct (is_kind root kind []) eqn:E; [|discriminate].
    intros [= <-]; exact E.
  - destruct (is_kind root kind (i :: p)) eqn:E; [|exact IH].
    intros [= <-]; exact E.
Qed.

Lemma EnclosingFunc_is_block (root : pytree) (p b : path) :
  EnclosingFunc root p = Some b -> is_block root b = true.
Proof.
  unfold EnclosingFunc.
  induction p as [|i p IH]; cbn [nearest_block].
  - destruct (is_block root []) eqn:E; [|discriminate].
    now intros [= <-].
  - destruct (is_block root (i :: p)) eqn:E; [|exact IH].
    now intros [= <-].
Qed.

Lemma _IsTopLevel_first_column (root : pytree) (p : path) (node : pytree)
    (q : path) (ty : token) (l : Z) (h : heap) :
  class_level (self h) = 0 ->
  function_level (self h) = 0 ->
  FirstLeafNode p node h = Ok (q, Leaf ty l 0) h ->
  _IsTopLevel root p node h = Ok true h.
Proof.
  intros Hc Hf Hleaf.
  unfold _IsTopLevel, _StartsInZerothColumn, bind, get_self.
  rewrite Hc, Hf; simpl. now rewrite Hleaf.
Qed.

Lemma _GetNumNewlines_top_level (cfg : style) (root : pytree) (p : path)
    (node : pytree) (h : heap) :
  last_was_decorator (self h) = false ->
  _IsTopLevel root p node h = Ok true h ->
  _GetNumNewlines cfg root p node h =
  Ok (1 + BLANK_LINES_AROUND_TOP_LEVEL_DEFINITION cfg) h.
Proof.
  intros Hd Htop. unfold _GetNumNewlines, bind, get_self.
  now rewrite Hd, Htop.
Qed.

(** C1, as the code has it: for a definition at true top level (both
    nesting depths 0, first token at column 0) that is not preceded by a
    decorator, the generic rule returns the newline count
    [1 + BLANK_LINES_AROUND_TOP_LEVEL_DEFINITION], which stands for exactly
    the configured number of blank lines; with the configured value 1, the
    keyword of the second of two undecorated, comment-free top-level
    functions is annotated with 2, one blank line. *)
Theorem C1_top_level_newlines (cfg : style) (root : pytree) (p : path)
    (node : pytree) (q : path) (ty : token) (l : Z) (h : heap) :
  last_was_decorator (self h) = false ->
  class_level (self h) = 0 ->
  function_level (self h) = 0 ->
  FirstLeafNode p node h = Ok (q, Leaf ty l 0) h ->
  _GetNumNewlines cfg root p node h =
    Ok (1 + BLANK_LINES_AROUND_TOP_LEVEL_DEFINITION cfg) h
  /\ blank_lines (1 + BLANK_LINES_AROUND_TOP_LEVEL_DEFINITION cfg) =
     BLANK_LINES_AROUND_TOP_LEVEL_DEFINITION cfg
  /\ forall between,
       GetNodeAnnotation
         (annotations_after (mkStyle 1 between) two_top_level_defs)
         [0; 1]%nat = Some _ONE_BLANK_LINE.
Proof.
  intros Hd Hc Hf Hleaf. split; [|split].
  - apply _GetNumNewlines_top_level; [assumption|].
    eapply _IsTopLevel_first_column; eassumption.
  - unfold blank_lines; lia.
  - intros between. vm_compute. reflexivity.
Qed.

Lemma C1_top_level_newlines_witness :
  _GetNumNewlines (mkStyle 1 0) two_top_level_defs [1]%nat (def_stmt 4 0)
    (mkHeap __init__ [] []) = Ok 2 (mkHeap __init__ [] []).
Proof.
  apply (C1_top_level_newlines (mkStyle 1 0) two_top_level_defs [1]%nat
           (def_stmt 4 0) [0; 1]%nat NAME 4 (mkHeap __init__ [] []));
    vm_compute; reflexivity.
Defined.

(** C1 as stated fails: with the configured value 1 the keyword of the
    second top-level function is annotated with 2, not with 3. *)
Lemma C1_second_def_not_two_blank_lines :
  GetNodeAnnotation (annotations_after (mkStyle 1 0) two_top_level_defs)
    [0; 1]%nat = Some 2
  /\ GetNodeAnnotation (annotations_after (mkStyle 1 0) two_top_level_defs)
       [0; 1]%nat <> Some _TWO_BLANK_LINES
  /\ blank_lines 2 <> 1 + BLANK_LINES_AROUND_TOP_LEVEL_DEFINITION (mkStyle 1 0).
Proof.
  split; [vm_compute; reflexivity|split].
  - vm_compute. discriminate.
  - vm_compute. discriminate.
Qed.

Lemma _MethodsInSameClass_true (root : pytree) (prev curr cls : path) :
  IsFuncDef root (EnclosingFunc root prev) = true ->
  IsFuncDef root (EnclosingFunc root curr) = true ->
  EnclosingClass root (parent_of (EnclosingFunc root prev)) = Some cls ->
  EnclosingClass root (parent_of (EnclosingFunc root curr)) = Some cls ->
  _MethodsInSameClass root prev curr = true.
Proof.
  intros Hp Hc Hpc Hcc. unfold _MethodsInSameClass.
  rewrite Hp, Hc, Hpc, Hcc; simpl. apply path_eqb_refl.
Qed.

Lemma _MethodsInSameClass_false (root : pytree) (prev curr : path) :
  IsFuncDef root (EnclosingFunc root prev) = false
  \/ IsFuncDef root (EnclosingFunc root curr) = false
  \/ EnclosingClass root (parent_of (EnclosingFunc root prev)) = None
  \/ EnclosingClass root (parent_of (EnclosingFunc root prev)) <>
     EnclosingClass root (parent_of (EnclosingFunc root curr)) ->
  _MethodsInSameClass root prev curr = false.
Proof.
  unfold _MethodsInSameClass.
  intros [H|[H|[H|H]]]; try rewrite H; simpl; try rewrite andb_false_r;
    try reflexivity.
  - now destruct (negb _).
  - destruct (negb _); [reflexivity|].
    destruct (EnclosingClass root (parent_of (EnclosingFunc root prev)))
      as [a|]; [|reflexivity].
    destruct (EnclosingClass root (parent_of (EnclosingFunc root curr)))
      as [b|]; [|reflexivity].
    apply path_eqb_neq; congruence.
Qed.

Lemma _GetNumNewlines_not_top_level (cfg : style) (root : pytree) (p : path)
    (node : pytree) (h : heap) :
  last_was_decorator (self h) = false ->
  _IsTopLevel root p node h = Ok false h ->
  _GetNumNewlines cfg root p node h =
  Ok (match _prev_stmt (self h) with
      | Some prev =>
          if _MethodsInSameClass root prev p
          then Z.max _ONE_BLANK_LINE (1 + BLANK_LINES_BETWEEN_CLASS_DEFS cfg)
          else _NO_BLANK_LINES
      | None => _NO_BLANK_LINES
      end) h.
Proof.
  intros Hd Htop. unfold _GetNumNewlines, bind, get_self.
  rewrite Hd, Htop.
  destruct (_prev_stmt (self h)) as [prev|]; [|reflexivity].
  now destruct (_MethodsInSameClass root prev p).
Qed.

(** C2, as the code has it: for a node that is not top-level and not
    preceded by a decorator, when the remembered previous statement and the
    node each resolve, their nearest enclosing block being itself a function
    definition and that function having a nearest enclosing class, to the
    same class node, the generic rule returns the newline count
    [max(2, 1 + BLANK_LINES_BETWEEN_CLASS_DEFS)], which stands for
    [max(1, BLANK_LINES_BETWEEN_CLASS_DEFS)] blank lines, at least one; when
    the nearest enclosing block of either side is not a function definition,
    or the classes are absent or differ, or no previous statement is
    remembered, it returns 1, no blank line. *)
Theorem C2_same_class_newlines (cfg : style) (root : pytree) (p : path)
    (node : pytree) (h : heap) :
  last_was_decorator (self h) = false ->
  _IsTopLevel root p node h = Ok false h ->
  (forall prev cls,
     _prev_stmt (self h) = Some prev ->
     IsFuncDef root (EnclosingFunc root prev) = true ->
     IsFuncDef root (EnclosingFunc root p) = true ->
     EnclosingClass root (parent_of (EnclosingFunc root prev)) = Some cls ->
     EnclosingClass root (parent_of (EnclosingFunc root p)) = Some cls ->
     let n := Z.max _ONE_BLANK_LINE (1 + BLANK_LINES_BETWEEN_CLASS_DEFS cfg) in
     _GetNumNewlines cfg root p node h = Ok n h
     /\ blank_lines n = Z.max 1 (BLANK_LINES_BETWEEN_CLASS_DEFS cfg)
     /\ 1 <= blank_lines n)
  /\ (_prev_stmt (self h) = None
      \/ (exists prev,
            _prev_stmt (self h) = Some prev
            /\ (IsFuncDef root (EnclosingFunc root prev) = false
                \/ IsFuncDef root (EnclosingFunc root p) = false
                \/ EnclosingClass root (parent_of (EnclosingFunc root prev))
                   = None
                \/ EnclosingClass root (parent_of (EnclosingFunc root prev))
                   <> EnclosingClass root
                        (parent_of (EnclosingFunc root p)))) ->
      _GetNumNewlines cfg root p node h = Ok _NO_BLANK_LINES h
      /\ blank_lines _NO_BLANK_LINES = 0).
Proof.
  intros Hd Htop. split.
  - intros prev cls Hprev Hfp Hfc Hcp Hcc n.
    rewrite (_GetNumNewlines_not_top_level cfg root p node h Hd Htop), Hprev.
    rewrite (_MethodsInSameClass_true root prev p cls Hfp Hfc Hcp Hcc).
    subst n; unfold blank_lines, _ONE_BLANK_LINE. repeat split; lia.
  - intros Hno. split; [|reflexivity].
    rewrite (_GetNumNewlines_not_top_level cfg root p node h Hd Htop).
    destruct Hno as [->|(prev & -> & Hno)]; [reflexivity|].
    now rewrite (_MethodsInSameClass_false root prev p Hno).
Qed.

Lemma C2_same_class_newlines_witness :
  _GetNumNewlines (mkStyle 2 0) two_methods [3; 3; 0]%nat (def_stmt 5 2)
    after_first_method = Ok 2 after_first_method.
Proof.
  apply (C2_same_class_newlines (mkStyle 2 0) two_methods [3; 3; 0]%nat
           (def_stmt 5 2) after_first_method)
    with (prev := [2; 3; 0]%nat) (cls := [0]%nat);
    vm_compute; reflexivity.
Defined.

(** C2 as stated fails: with the configured value 1 the second of two
    methods of one class is annotated with 2, one blank line, where
    [max(1, 1 + 1)] is two. *)
Lemma C2_one_blank_line_between_methods :
  _MethodsInSameClass two_methods [2; 3; 0]%nat [3; 3; 0]%nat = true
  /\ GetNodeAnnotation (annotations_after (mkStyle 2 1) two_methods)
       [0; 3; 3; 0]%nat = Some 2
  /\ blank_lines 2 <> Z.max 1 (1 + BLANK_LINES_BETWEEN_CLASS_DEFS (mkStyle 2 1)).
Proof.
  split; [vm_compute; reflexivity|split]; [vm_compute; reflexivity|].
  vm_compute. discriminate.
Qed.

(** The tie-break of the same-class test: the statement in the body of a
    class nested in a method has that class as its nearest enclosing block,
    not a function definition, so it is not class-adjacent to the next
    method, while the two methods are. *)
Example class_in_method_not_adjacent :
  EnclosingFunc class_in_method [2; 3; 2; 4; 2; 3; 0]%nat =
    Some [2; 4; 2; 3; 0]%nat
  /\ IsFuncDef class_in_method
       (EnclosingFunc class_in_method [2; 3; 2; 4; 2; 3; 0]%nat) = false
  /\ _MethodsInSameClass class_in_method [2; 3; 2; 4; 2; 3; 0]%nat
       [3; 3; 0]%nat = false
  /\ _MethodsInSameClass class_in_method [2; 3; 0]%nat [3; 3; 0]%nat = true.
Proof. repeat split; vm_compute; reflexivity. Qed.

(** ** Visits *)

(** C3 fails on the code: [Visit_funcdef] runs the comment-then-definition
    routine twice on a function that is not [async], so the walk visits the
    leading comment of [commented_def] twice. *)
Theorem C3_leading_comment_visited_twice :
  count_occ (list_eq_dec Nat.eq_dec)
    (visits (heap_of (CalculateBlankLines (mkStyle 2 1) last_child_target
                        commented_def [])))
    [0; 0; 1]%nat = 2%nat
  /\ ~ NoDup (visits (heap_of (CalculateBlankLines (mkStyle 2 1)
                                 last_child_target commented_def []))).
Proof.
  assert (H : count_occ (list_eq_dec Nat.eq_dec)
                (visits (heap_of (CalculateBlankLines (mkStyle 2 1)
                                    last_child_target commented_def [])))
                [0; 0; 1]%nat = 2%nat) by (vm_compute; reflexivity).
  split; [exact H|].
  intros Hnd.
  pose proof (proj1 (NoDup_count_occ (list_eq_dec Nat.eq_dec) _) Hnd
                [0; 0; 1]%nat) as Hle.
  rewrite H in Hle. lia.
Qed.

(** ** Every write of the walk *)

Section Sound.

Variable ok : path * option Z -> Prop.

Lemma extends_refl (h : heap) : extends ok h h.
Proof. exists []; split; [reflexivity|constructor]. Qed.

Lemma extends_trans (h1 h2 h3 : heap) :
  extends ok h1 h2 -> extends ok h2 h3 -> extends ok h1 h3.
Proof.
  intros (W1 & E1 & F1) (W2 & E2 & F2). exists (W2 ++ W1); split.
  - now rewrite E2, E1, app_assoc.
  - apply Forall_app; split; assumption.
Qed.

Lemma sound_ret {A} (R : A -> Prop) (a : A) : R a -> sound ok R (ret a).
Proof.
  intros HR h; split; [apply extends_refl|].
  unfold ret; intros a' h' [= <- _]; exact HR.
Qed.

Lemma sound_raise {A} (R : A -> Prop) (e : exn) : sound ok R (raise e).
Proof.
  intros h; split; [apply extends_refl|]. unfold raise; discriminate.
Qed.

Lemma sound_bind {A B} (R : A -> Prop) (R' : B -> Prop) (m : M A)
    (f : A -> M B) :
  sound ok R m -> (forall a, R a -> sound ok R' (f a)) ->
  sound ok R' (bind m f).
Proof.
  intros Hm Hf h. unfold bind.
  destruct (Hm h) as [Hext HR].
  destruct (m h) as [a h1|e h1]; simpl in *.
  - destruct (Hf a (HR a h1 eq_refl) h1) as [Hext' HR'].
    split; [eapply extends_trans; eassumption|exact HR'].
  - split; [assumption|discriminate].
Qed.

Lemma sound_post {A} (R R' : A -> Prop) (m : M A) :
  (forall a, R a -> R' a) -> sound ok R m -> sound ok R' m.
Proof.
  intros HR Hm h. destruct (Hm h) as [Hext H]. split; eauto.
Qed.

Lemma sound_get_self : sound ok anything get_self.
Proof.
  intros h; split; [apply extends_refl|]. intros; exact I.
Qed.

Lemma sound_update (f : calculator -> calculator) :
  sound ok anything (update f).
Proof.
  intros h; split; [exists []; split; [reflexivity|constructor]|].
  intros; exact I.
Qed.

Lemma sound_record_visit (p : path) : sound ok anything (record_visit p).
Proof.
  intros h; split; [exists []; split; [reflexivity|constructor]|].
  intros; exact I.
Qed.

Lemma sound__SetNumNewlines (p : path) (v : option Z) :
  ok (p, v) -> sound ok anything (_SetNumNewlines p v).
Proof.
  intros Hok h; split; [|intros; exact I].
  exists [(p, v)]; split; [reflexivity|]. constructor; [exact Hok|constructor].
Qed.

Lemma sound_item (p : path) (node : pytree) (i : nat) :
  sound ok (fun r => @eq path (fst r) (i :: p)) (item p node i).
Proof.
  unfold item. destruct (nth_error (children node) i).
  - now apply sound_ret.
  - apply sound_raise.
Qed.

Lemma sound_lineno_of (t : pytree) : sound ok anything (lineno_of t).
Proof. destruct t; [now apply sound_ret|apply sound_raise]. Qed.

Lemma sound_column_of (t : pytree) : sound ok anything (column_of t).
Proof. destruct t; [now apply sound_ret|apply sound_raise]. Qed.

Lemma sound_IsCommentStatement (t : pytree) :
  sound ok anything (IsCommentStatement t).
Proof.
  unfold IsCommentStatement.
  destruct (String.eqb _ _); [|now apply sound_ret].
  destruct (children t); [apply sound_raise|now apply sound_ret].
Qed.

Lemma sound_FirstLeafNode (node : pytree) :
  forall p,
    sound ok (fun r => @eq path (fst r) p \/ below p (fst r))
      (FirstLeafNode p node).
Proof.
  induction node as [ty l c|name cs IH] using pytree_ind; intros p; simpl.
  - apply sound_ret; now left.
  - destruct cs as [|c cs]; [apply sound_raise|].
    inversion IH as [|? ? Hc _]; subst.
    eapply sound_post; [|apply Hc]. simpl.
    intros r [->|(s & Hs & ->)]; right.
    + exists [0%nat]; split; [discriminate|reflexivity].
    + exists (s ++ [0%nat]); split.
      * destruct s; discriminate.
      * now rewrite <- app_assoc.
Qed.

Lemma sound_FirstLeafNode_Node (name : string) (cs : list pytree)
    (p : path) :
  sound ok (fun r => below p (fst r)) (FirstLeafNode p (Node name cs)).
Proof.
  simpl. destruct cs as [|c cs]; [apply sound_raise|].
  eapply sound_post; [|apply sound_FirstLeafNode]. simpl.
  intros r [->|(s & Hs & ->)].
  - exists [0%nat]; split; [discriminate|reflexivity].
  - exists (s ++ [0%nat]); split.
    + destruct s; discriminate.
    + now rewrite <- app_assoc.
Qed.

End Sound.

Create HintDb sound.

#[local] Hint Resolve sound_get_self sound_update sound_record_visit
  sound_item sound_lineno_of sound_column_of sound_IsCommentStatement
  sound_raise : sound.

(** One step through a computation: a bind whose head has a lemma in the
    [sound] database, a conditional, a return. *)
Ltac sound_step :=
  match goal with
  | |- sound _ _ (ret _) => apply sound_ret; try exact I
  | |- sound _ _ (raise _) => apply sound_raise
  | |- sound _ _ (bind _ _) =>
      eapply sound_bind; [solve [eauto with sound]|intros ? ?; cbv beta in *]
  | |- sound _ _ (if ?b then _ else _) => destruct b
  | |- sound _ _ (match ?x with _ => _ end) => destruct x
  end.

Section SoundWalk.

Variable cfg : style.
Variable root : pytree.
Variable DecoratedTarget : path -> list string -> option path.

Lemma sound__StartsInZerothColumn ok (p : path) (node : pytree) :
  sound ok anything (_StartsInZerothColumn root p node).
Proof.
  unfold _StartsInZerothColumn.
  eapply sound_bind; [apply sound_FirstLeafNode|intros leaf _].
  repeat sound_step.
Qed.

Lemma sound__IsTopLevel ok (p : path) (node : pytree) :
  sound ok anything (_IsTopLevel root p node).
Proof.
  unfold _IsTopLevel. sound_step. sound_step; [sound_step|].
  apply sound__StartsInZerothColumn.
Qed.

Lemma sound__GetNumNewlines ok (p : path) (node : pytree) :
  sound ok (fun n => allowed cfg (Some n)) (_GetNumNewlines cfg root p node).
Proof.
  unfold _GetNumNewlines, allowed. sound_step.
  destruct (last_was_decorator a); [apply sound_ret; auto|].
  eapply sound_bind; [apply sound__IsTopLevel|intros top _].
  destruct top; [apply sound_ret; auto 6|].
  destruct (_prev_stmt a) as [prev|]; [|apply sound_ret; auto].
  destruct (_MethodsInSameClass root prev p); apply sound_ret; auto 6.
Qed.

Lemma below_child (p : path) (i : nat) : below p (i :: p).
Proof. exists [i]; split; [discriminate|reflexivity]. Qed.

Lemma below_grandchild (p : path) (i j : nat) : below p (j :: i :: p).
Proof. exists [j; i]; split; [discriminate|reflexivity]. Qed.

Lemma below_trans (p : path) (i : nat) (a : path) :
  below (i :: p) a -> below p a.
Proof.
  intros (s & Hs & ->). exists (s ++ [i]); split.
  - destruct s; discriminate.
  - now rewrite <- app_assoc.
Qed.

Lemma sound_leading_comments (p : path) (rest : list pytree) :
  forall index,
    sound (writes_inside cfg p) anything (leading_comments p index rest).
Proof.
  induction rest as [|c rest IH]; intros index; simpl; [apply sound_raise|].
  sound_step. destruct a; [|now apply sound_ret].
  eapply sound_bind with (R := anything).
  { unfold Visit_Leaf, DefaultLeafVisit. repeat sound_step. }
  intros _ _. sound_step.
  eapply sound_bind with (R := anything); [|intros _ _; apply IH].
  destruct (last_was_decorator a); [now apply sound_ret|].
  apply sound__SetNumNewlines. split; simpl.
  - unfold allowed; auto.
  - apply below_grandchild.
Qed.

Lemma sound__SetBlankLinesBetweenCommentAndClassFunc
    (p : path) (node : pytree) :
  sound (writes_inside cfg p) anything
    (_SetBlankLinesBetweenCommentAndClassFunc cfg root p node).
Proof.
  unfold _SetBlankLinesBetweenCommentAndClassFunc.
  eapply sound_bind; [apply sound_leading_comments|intros index _].
  assert (Hother :
    sound (writes_inside cfg p) anything
      (bind get_self (fun s =>
       bind (item p node index) (fun child =>
       bind (lineno_of (snd child)) (fun l =>
       bind (if last_comment_lineno s + 1 =? l then ret _NO_BLANK_LINES
             else _GetNumNewlines cfg root p node)
         (fun num_newlines =>
            _SetNumNewlines (fst child) (Some num_newlines))))))).
  { sound_step. sound_step. sound_step.
    eapply sound_bind with (R := fun n => allowed cfg (Some n)).
    - destruct (_ =? _); [apply sound_ret; unfold allowed; auto|].
      apply sound__GetNumNewlines.
    - intros n Hn. apply sound__SetNumNewlines. split; simpl; [exact Hn|].
      match goal with H : fst _ = _ |- _ => rewrite H end.
      apply below_child. }
  eapply sound_bind with (R := anything); [|intros _ _; now apply sound_ret].
  destruct (0 <? index)%nat; [|exact Hother].
  sound_step. sound_step. sound_step. sound_step. sound_step.
  destruct (_ =? _); [|exact Hother].
  apply sound__SetNumNewlines. split; simpl; [unfold allowed; auto|].
  match goal with H : fst a = _ |- _ => rewrite H end.
  apply below_child.
Qed.

End SoundWalk.

Section SoundVisit.

Variable cfg : style.
Variable root : pytree.
Variable DecoratedTarget : path -> list string -> option path.

Lemma writes_within_child (p : path) (i : nat) (c : pytree)
    (w : path * option Z) :
  writes_within cfg (i :: p) c w -> writes_inside cfg p w.
Proof.
  intros [Hv [Hb|[_ Hb]]]; split; try exact Hv.
  - eapply below_trans; eassumption.
  - exact Hb.
Qed.

Lemma sound_weaken {A} (ok ok' : path * option Z -> Prop) (R : A -> Prop)
    (m : M A) :
  (forall w, ok w -> ok' w) -> sound ok R m -> sound ok' R m.
Proof.
  intros Hok Hm h. destruct (Hm h) as [(W & E & F) HR]. split; [|exact HR].
  exists W; split; [exact E|]. eapply Forall_impl; eassumption.
Qed.

Lemma sound_visit_each (visit : path -> pytree -> M unit) (p : path)
    (index : nat) (cs : list pytree) :
  Forall (visit_writes_within cfg visit) cs ->
  forall i,
    sound (writes_inside cfg p) anything (visit_each visit p index i cs).
Proof.
  induction 1 as [|c cs Hc _ IH]; intros i; simpl; [now apply sound_ret|].
  eapply sound_bind with (R := anything); [|intros _ _; apply IH].
  destruct (index <=? i)%nat; [|now apply sound_ret].
  eapply sound_weaken; [apply writes_within_child|apply Hc].
Qed.

Lemma sound_DefaultNodeVisit (visit : path -> pytree -> M unit) (p : path)
    (name : string) (cs : list pytree) :
  Forall (visit_writes_within cfg visit) cs ->
  sound (writes_inside cfg p) anything
    (DefaultNodeVisit cfg root visit p (Node name cs)).
Proof.
  intros Hcs. unfold DefaultNodeVisit. sound_step.
  eapply sound_bind with (R := anything).
  - destruct (last_was_class_or_function a); [|now apply sound_ret].
    destruct (existsb _ _); [|now apply sound_ret].
    eapply sound_bind; [apply sound_FirstLeafNode_Node|intros leaf Hleaf].
    eapply sound_bind; [apply sound__GetNumNewlines|intros n Hn].
    apply sound__SetNumNewlines. split; assumption.
  - intros _ _. sound_step. now apply sound_visit_each.
Qed.

Lemma sound_Visit_simple_stmt (visit : path -> pytree -> M unit)
    (p : path) (name : string) (cs : list pytree) :
  Forall (visit_writes_within cfg visit) cs ->
  sound (writes_inside cfg p) anything
    (Visit_simple_stmt cfg root visit p (Node name cs)).
Proof.
  intros Hcs. unfold Visit_simple_stmt.
  eapply sound_bind; [now apply sound_DefaultNodeVisit|intros _ _].
  repeat sound_step; auto with sound.
Qed.

Lemma sound_Visit_decorator (visit : path -> pytree -> M unit)
    (p : path) (name : string) (cs : list pytree) :
  Forall (visit_writes_within cfg visit) cs ->
  sound (writes_inside cfg p) anything
    (Visit_decorator cfg root DecoratedTarget visit p (Node name cs)).
Proof.
  intros Hcs. unfold Visit_decorator. sound_step.
  eapply sound_bind with (R := anything).
  { destruct (_ =? _); repeat sound_step. }
  intros adjacent _.
  eapply sound_bind with (R := anything).
  - assert (Hone : allowed cfg (Some _NO_BLANK_LINES))
      by (unfold allowed; auto).
    assert (Hmax : allowed cfg
              (Some (Z.max _ONE_BLANK_LINE
                       (1 + BLANK_LINES_BETWEEN_CLASS_DEFS cfg))))
      by (unfold allowed; auto 6).
    destruct adjacent; [|destruct (last_was_decorator a);
                          [|destruct (match _ with Some _ => _ | None => _ end)]];
      sound_step.
    4: eapply sound_bind; [apply sound__GetNumNewlines|intros n Hn].
    all: apply sound__SetNumNewlines; split; simpl; try assumption.
    all: match goal with H : fst _ = _ |- _ => rewrite H end;
      apply below_child.
  - intros _ _.
    eapply sound_bind; [now apply sound_visit_each|intros _ _].
    auto with sound.
Qed.

Lemma sound_Visit_classdef (visit : path -> pytree -> M unit)
    (p : path) (name : string) (cs : list pytree) :
  Forall (visit_writes_within cfg visit) cs ->
  sound (writes_inside cfg p) anything
    (Visit_classdef cfg root visit p (Node name cs)).
Proof.
  intros Hcs. unfold Visit_classdef. sound_step.
  eapply sound_bind;
    [apply sound__SetBlankLinesBetweenCommentAndClassFunc|intros index _].
  sound_step. sound_step.
  eapply sound_bind; [now apply sound_visit_each|intros _ _].
  repeat sound_step; auto with sound.
Qed.

Lemma writes_inside_parent (p q : path) (cs : list pytree)
    (w : path * option Z) :
  parent p = Some q ->
  writes_inside cfg q w -> writes_within cfg p (Node "funcdef" cs) w.
Proof.
  intros Hq [Hv Hb]. split; [exact Hv|]. right. split; [reflexivity|].
  destruct p; [discriminate|]. simpl in *. congruence.
Qed.

Lemma writes_inside_within (p : path) (node : pytree)
    (w : path * option Z) :
  writes_inside cfg p w -> writes_within cfg p node w.
Proof. intros [Hv Hb]. split; [exact Hv|now left]. Qed.

Lemma sound_Visit_funcdef (visit : path -> pytree -> M unit)
    (p : path) (cs : list pytree) :
  Forall (visit_writes_within cfg visit) cs ->
  sound (writes_within cfg p (Node "funcdef" cs)) anything
    (Visit_funcdef cfg root visit p (Node "funcdef" cs)).
Proof.
  intros Hcs. unfold Visit_funcdef. sound_step.
  eapply sound_bind with (R := anything).
  { eapply sound_weaken; [apply writes_inside_within|].
    apply sound__SetBlankLinesBetweenCommentAndClassFunc. }
  intros _ _.
  eapply sound_bind with (R := anything).
  { destruct (_AsyncFunction root p).
    - destruct (parent p) as [q|] eqn:Hq; [|apply sound_raise].
      destruct (node_at root q) as [unit_root|]; [|apply sound_raise].
      eapply sound_bind with (R := anything).
      { eapply sound_weaken;
          [intros w; apply writes_inside_parent; exact Hq|].
        apply sound__SetBlankLinesBetweenCommentAndClassFunc. }
      intros index _. sound_step.
      eapply sound_bind with (R := anything);
        [|intros _ _; now apply sound_ret].
      apply sound__SetNumNewlines. split; simpl; [unfold allowed; auto|].
      left. match goal with H : fst _ = _ |- _ => rewrite H end.
      apply below_child.
    - eapply sound_weaken; [apply writes_inside_within|].
      apply sound__SetBlankLinesBetweenCommentAndClassFunc. }
  intros index _. sound_step. sound_step.
  eapply sound_bind with (R := anything).
  { eapply sound_weaken; [apply writes_inside_within|].
    now apply sound_visit_each. }
  intros _ _. repeat sound_step; auto with sound.
Qed.

(** Every annotation a visit writes is one of the calculator's values,
    on a node inside the visited subtree or, for a function definition,
    inside its parent's. *)
Lemma sound_Visit (node : pytree) :
  visit_writes_within cfg (Visit cfg root DecoratedTarget) node.
Proof.
  induction node as [ty l c|name cs IH] using pytree_ind; intros p.
  - simpl. unfold Visit_Leaf, DefaultLeafVisit. repeat sound_step.
  - cbn [Visit]. sound_step.
    destruct (String.eqb_spec name "simple_stmt").
    { eapply sound_weaken; [apply writes_inside_within|].
      now apply sound_Visit_simple_stmt. }
    destruct (String.eqb_spec name "decorator").
    { eapply sound_weaken; [apply writes_inside_within|].
      now apply sound_Visit_decorator. }
    destruct (String.eqb_spec name "classdef").
    { eapply sound_weaken; [apply writes_inside_within|].
      now apply sound_Visit_classdef. }
    destruct (String.eqb_spec name "funcdef") as [->|_].
    { now apply sound_Visit_funcdef. }
    eapply sound_weaken; [apply writes_inside_within|].
    now apply sound_DefaultNodeVisit.
Qed.

End SoundVisit.

Lemma not_below_sibling (p : path) (i j : nat) (a : path) :
  below (j :: p) a -> a <> (i :: p)%nat.
Proof.
  intros (s & Hs & ->) E. apply (f_equal (@List.length nat)) in E.
  rewrite length_app in E. simpl in E. destruct s; [congruence|simpl in E; lia].
Qed.

Lemma not_below_uncle (q : path) (i j k : nat) (a : path) :
  below (j :: k :: q) a -> a <> (i :: q)%nat.
Proof.
  intros (s & Hs & ->) E. apply (f_equal (@List.length nat)) in E.
  rewrite length_app in E. simpl in E. lia.
Qed.

(** The children of a definition that are not themselves function
    definitions are visited without a write outside their own subtrees. *)
Lemma visit_each_keeps_to_subtrees (cfg : style) (root : pytree)
    (DecoratedTarget : path -> list string -> option path) (p : path)
    (index : nat) (cs : list pytree) :
  Forall (fun t => NodeName t <> "funcdef") cs ->
  forall i,
    sound (fun w => exists j, below (j :: p)%nat (fst w)) anything
      (visit_each (Visit cfg root DecoratedTarget) p index i cs).
Proof.
  induction 1 as [|c cs Hc _ IH]; intros i; simpl; [now apply sound_ret|].
  eapply sound_bind with (R := anything); [|intros _ _; apply IH].
  destruct (index <=? i)%nat; [|now apply sound_ret].
  eapply sound_weaken; [|apply (sound_Visit cfg root DecoratedTarget c)].
  intros w [_ [Hb|[Hf _]]]; [now exists i|contradiction].
Qed.

Lemma walk_writes_allowed (cfg : style)
    (DecoratedTarget : pytree -> path -> list string -> option path)
    (tree : pytree) :
  Forall (fun w => allowed cfg (snd w))
    (newlines (heap_of (CalculateBlankLines cfg DecoratedTarget tree []))).
Proof.
  unfold CalculateBlankLines.
  destruct (sound_Visit cfg tree (DecoratedTarget tree) tree []
              (mkHeap __init__ [] [])) as [(W & E & F) _].
  rewrite E; simpl; rewrite app_nil_r.
  eapply Forall_impl; [|exact F]. now intros w [Hv _].
Qed.

(** C4, as the code has it: on every tree, under every configuration whose
    top-level value is 0, 1 or 2 and whose between-methods value is at most
    2, every annotation value the walk writes is absent or 1, 2 or 3. *)
Theorem C4_annotation_values (cfg : style)
    (DecoratedTarget : pytree -> path -> list string -> option path)
    (tree : pytree) :
  0 <= BLANK_LINES_AROUND_TOP_LEVEL_DEFINITION cfg <= 2 ->
  BLANK_LINES_BETWEEN_CLASS_DEFS cfg <= 2 ->
  Forall (fun w => blank_line_annotation (snd w))
    (newlines (heap_of (CalculateBlankLines cfg DecoratedTarget tree []))).
Proof.
  intros Htop Hbetween.
  eapply Forall_impl; [|apply walk_writes_allowed].
  intros [a v]; simpl. unfold allowed, blank_line_annotation,
    _NO_BLANK_LINES, _ONE_BLANK_LINE, _TWO_BLANK_LINES.
  intros [-> | [-> | [-> | [-> | ->]]]]; auto.
  - assert (H : BLANK_LINES_AROUND_TOP_LEVEL_DEFINITION cfg = 0
                \/ BLANK_LINES_AROUND_TOP_LEVEL_DEFINITION cfg = 1
                \/ BLANK_LINES_AROUND_TOP_LEVEL_DEFINITION cfg = 2) by lia.
    destruct H as [-> | [-> | ->]]; auto.
  - assert (H : Z.max 2 (1 + BLANK_LINES_BETWEEN_CLASS_DEFS cfg) = 2
                \/ Z.max 2 (1 + BLANK_LINES_BETWEEN_CLASS_DEFS cfg) = 3)
      by lia.
    destruct H as [-> | ->]; auto.
Qed.

Lemma C4_annotation_values_witness :
  Forall (fun w => blank_line_annotation (snd w))
    (annotations_after (mkStyle 2 1) two_methods).
Proof.
  unfold annotations_after.
  apply (C4_annotation_values (mkStyle 2 1) last_child_target two_methods);
    simpl; lia.
Defined.

(** C4 as stated fails: with the top-level value 3 the walk annotates the
    second top-level function with 4. *)
Lemma C4_top_level_value_3_writes_4 :
  In ([0; 1]%nat, Some 4) (annotations_after (mkStyle 3 1) two_top_level_defs)
  /\ ~ blank_line_annotation (Some 4)
  /\ ~ Forall (fun w => blank_line_annotation (snd w))
         (annotations_after (mkStyle 3 1) two_top_level_defs).
Proof.
  assert (Hin : In ([0; 1]%nat, Some 4)
                  (annotations_after (mkStyle 3 1) two_top_level_defs))
    by (vm_compute; tauto).
  assert (Hno : ~ blank_line_annotation (Some 4))
    by (unfold blank_line_annotation, _NO_BLANK_LINES, _ONE_BLANK_LINE,
          _TWO_BLANK_LINES; intros [H|[H|[H|H]]]; discriminate).
  split; [exact Hin|split; [exact Hno|]].
  intros Hall. rewrite Forall_forall in Hall. exact (Hno (Hall _ Hin)).
Qed.

(** ** The walk does not read annotations *)

Lemma framed_ret {A} (a : A) : framed (ret a).
Proof. intros old h; reflexivity. Qed.

Lemma framed_raise {A} (e : exn) : framed (@raise A e).
Proof. intros old h; reflexivity. Qed.

Lemma framed_bind {A B} (m : M A) (f : A -> M B) :
  framed m -> (forall a, framed (f a)) -> framed (bind m f).
Proof.
  intros Hm Hf old h. unfold bind. rewrite Hm.
  destruct (m h) as [a h1|e h1]; simpl; [apply Hf|reflexivity].
Qed.

Lemma framed_get_self : framed get_self.
Proof. intros old h; reflexivity. Qed.

Lemma framed_update (f : calculator -> calculator) : framed (update f).
Proof. intros old h; reflexivity. Qed.

Lemma framed_record_visit (p : path) : framed (record_visit p).
Proof. intros old h; reflexivity. Qed.

Lemma framed__SetNumNewlines (p : path) (v : option Z) :
  framed (_SetNumNewlines p v).
Proof. intros old h; reflexivity. Qed.

Lemma framed_item (p : path) (node : pytree) (i : nat) :
  framed (item p node i).
Proof.
  unfold item; destruct (nth_error _ _); [apply framed_ret|apply framed_raise].
Qed.

Lemma framed_lineno_of (t : pytree) : framed (lineno_of t).
Proof. destruct t; [apply framed_ret|apply framed_raise]. Qed.

Lemma framed_column_of (t : pytree) : framed (column_of t).
Proof. destruct t; [apply framed_ret|apply framed_raise]. Qed.

Lemma framed_FirstLeafNode (node : pytree) :
  forall p, framed (FirstLeafNode p node).
Proof.
  induction node as [ty l c|name cs IH] using pytree_ind; intros p; simpl.
  - apply framed_ret.
  - destruct cs as [|c cs]; [apply framed_raise|].
    inversion IH; subst; auto.
Qed.

Create HintDb framed.

#[local] Hint Resolve framed_ret framed_raise framed_get_self framed_update
  framed_record_visit framed__SetNumNewlines framed_item framed_lineno_of
  framed_column_of framed_FirstLeafNode : framed.

(** A computation built from framed parts by binds and case distinctions
    is framed. *)
Ltac framed_auto :=
  repeat first
    [ progress auto with framed
    | apply framed_bind; [|intros ?]
    | match goal with
      | |- framed (if ?b then _ else _) => destruct b
      | |- framed (match ?x with _ => _ end) => destruct x
      end ].

Section FramedWalk.

Variable cfg : style.
Variable root : pytree.
Variable DecoratedTarget : path -> list string -> option path.

Lemma framed_IsCommentStatement (t : pytree) :
  framed (IsCommentStatement t).
Proof. unfold IsCommentStatement. framed_auto. Qed.

Lemma framed__StartsInZerothColumn (p : path) (node : pytree) :
  framed (_StartsInZerothColumn root p node).
Proof. unfold _StartsInZerothColumn. framed_auto. Qed.

Lemma framed__IsTopLevel (p : path) (node : pytree) :
  framed (_IsTopLevel root p node).
Proof.
  unfold _IsTopLevel. pose proof framed__StartsInZerothColumn.
  framed_auto.
Qed.

Lemma framed__GetNumNewlines (p : path) (node : pytree) :
  framed (_GetNumNewlines cfg root p node).
Proof.
  unfold _GetNumNewlines. pose proof framed__IsTopLevel. framed_auto.
Qed.

Lemma framed_leading_comments (p : path) (rest : list pytree) :
  forall index, framed (leading_comments p index rest).
Proof.
  induction rest as [|c rest IH]; intros index; simpl.
  - apply framed_raise.
  - pose proof framed_IsCommentStatement.
    unfold Visit_Leaf, DefaultLeafVisit. framed_auto.
Qed.

Lemma framed__SetBlankLinesBetweenCommentAndClassFunc
    (p : path) (node : pytree) :
  framed (_SetBlankLinesBetweenCommentAndClassFunc cfg root p node).
Proof.
  unfold _SetBlankLinesBetweenCommentAndClassFunc.
  pose proof framed_leading_comments. pose proof framed__GetNumNewlines.
  framed_auto.
Qed.

Lemma framed_visit_each (visit : path -> pytree -> M unit) (p : path)
    (index : nat) (cs : list pytree) :
  Forall (fun c => forall q, framed (visit q c)) cs ->
  forall i, framed (visit_each visit p index i cs).
Proof.
  induction 1 as [|c cs Hc _ IH]; intros i; simpl; framed_auto.
Qed.

Lemma framed_DefaultNodeVisit (visit : path -> pytree -> M unit)
    (p : path) (node : pytree) :
  Forall (fun c => forall q, framed (visit q c)) (children node) ->
  framed (DefaultNodeVisit cfg root visit p node).
Proof.
  intros Hcs. unfold DefaultNodeVisit.
  pose proof framed__GetNumNewlines.
  pose proof (framed_visit_each visit p 0 _ Hcs). framed_auto.
Qed.

Lemma framed_Visit_simple_stmt (visit : path -> pytree -> M unit)
    (p : path) (node : pytree) :
  Forall (fun c => forall q, framed (visit q c)) (children node) ->
  framed (Visit_simple_stmt cfg root visit p node).
Proof.
  intros Hcs. unfold Visit_simple_stmt.
  pose proof (framed_DefaultNodeVisit visit p node Hcs). framed_auto.
Qed.

Lemma framed_Visit_decorator (visit : path -> pytree -> M unit)
    (p : path) (node : pytree) :
  Forall (fun c => forall q, framed (visit q c)) (children node) ->
  framed (Visit_decorator cfg root DecoratedTarget visit p node).
Proof.
  intros Hcs. unfold Visit_decorator.
  pose proof framed__GetNumNewlines.
  pose proof (framed_visit_each visit p 0 _ Hcs). framed_auto.
Qed.

Lemma framed_Visit_classdef (visit : path -> pytree -> M unit)
    (p : path) (node : pytree) :
  Forall (fun c => forall q, framed (visit q c)) (children node) ->
  framed (Visit_classdef cfg root visit p node).
Proof.
  intros Hcs. unfold Visit_classdef.
  pose proof framed__SetBlankLinesBetweenCommentAndClassFunc.
  pose proof (fun index => framed_visit_each visit p index _ Hcs).
  framed_auto.
Qed.

Lemma framed_Visit_funcdef (visit : path -> pytree -> M unit)
    (p : path) (node : pytree) :
  Forall (fun c => forall q, framed (visit q c)) (children node) ->
  framed (Visit_funcdef cfg root visit p node).
Proof.
  intros Hcs. unfold Visit_funcdef.
  pose proof framed__SetBlankLinesBetweenCommentAndClassFunc.
  pose proof (fun index => framed_visit_each visit p index _ Hcs).
  framed_auto.
Qed.

Lemma framed_Visit (node : pytree) :
  forall p, framed (Visit cfg root DecoratedTarget p node).
Proof.
  induction node as [ty l c|name cs IH] using pytree_ind; intros p.
  - simpl. unfold Visit_Leaf, DefaultLeafVisit. framed_auto.
  - cbn [Visit]. apply framed_bind; [apply framed_record_visit|intros _].
    pose proof (framed_Visit_simple_stmt _ p (Node name cs) IH).
    pose proof (framed_Visit_decorator _ p (Node name cs) IH).
    pose proof (framed_Visit_classdef _ p (Node name cs) IH).
    pose proof (framed_Visit_funcdef _ p (Node name cs) IH).
    pose proof (framed_DefaultNodeVisit _ p (Node name cs) IH).
    repeat match goal with
           | |- framed (if ?b then _ else _) => destruct b
           end; assumption.
Qed.

End FramedWalk.

Lemma CalculateBlankLines_graft (cfg : style)
    (DecoratedTarget : pytree -> path -> list string -> option path)
    (tree : pytree) (ann : list (path * option Z)) :
  CalculateBlankLines cfg DecoratedTarget tree ann =
  graft_result ann (CalculateBlankLines cfg DecoratedTarget tree []).
Proof.
  unfold CalculateBlankLines.
  rewrite <- (framed_Visit cfg tree (DecoratedTarget tree) tree [] ann).
  reflexivity.
Qed.

(** C8: running the walk a second time on the tree the first run left
    repeats the writes of the first run, and so leaves every node with the
    annotation it had after the first run. *)
Theorem C8_walk_twice (cfg : style)
    (DecoratedTarget : pytree -> path -> list string -> option path)
    (tree : pytree) (ann : list (path * option Z)) (p : path) :
  let once := heap_of (CalculateBlankLines cfg DecoratedTarget tree ann) in
  let twice :=
    heap_of (CalculateBlankLines cfg DecoratedTarget tree (newlines once)) in
  GetNodeAnnotation (newlines twice) p = GetNodeAnnotation (newlines once) p
  /\ exists writes,
       newlines once = writes ++ ann
       /\ newlines twice = writes ++ newlines once.
Proof.
  intros once twice. subst twice.
  rewrite (CalculateBlankLines_graft cfg DecoratedTarget tree (newlines once)).
  subst once.
  rewrite (CalculateBlankLines_graft cfg DecoratedTarget tree ann).
  destruct (CalculateBlankLines cfg DecoratedTarget tree []) as [[] h|e h];
    simpl; (split; [|exists (newlines h); split; reflexivity]);
    rewrite !GetNodeAnnotation_app;
    destruct (written (newlines h) p); reflexivity.
Qed.

(** ** Comments before a definition *)

Lemma IsCommentStatement_Leaf (ty : token) (l c : Z) (h : heap) :
  IsCommentStatement (Leaf ty l c) h = Ok false h.
Proof. destruct ty; reflexivity. Qed.

Lemma IsCommentStatement_comment (l c : Z) (more : list pytree) (h : heap) :
  IsCommentStatement (Node "simple_stmt" (Leaf COMMENT l c :: more)) h =
  Ok true h.
Proof. reflexivity. Qed.

Lemma leading_comments_run (p : path) (ty : token) (ln col : Z)
    (rest : list pytree) (comments : list pytree) :
  Forall is_comment_statement comments ->
  forall index h,
  exists h',
    leading_comments p index (comments ++ Leaf ty ln col :: rest) h =
      Ok (index + List.length comments)%nat h'
    /\ self h' = self h.
Proof.
  induction 1 as [|c comments (l & cl & more & ->) _ IH]; intros index h.
  - exists h. simpl. unfold bind. rewrite IsCommentStatement_Leaf.
    now rewrite Nat.add_0_r.
  - cbn [app leading_comments List.length]. unfold bind.
    rewrite IsCommentStatement_comment.
    unfold Visit_Leaf, DefaultLeafVisit, record_visit, get_self, bind, ret.
    cbn [self].
    destruct (last_was_decorator (self h)); cbn [_SetNumNewlines
      SetNodeAnnotation].
    + destruct (IH (S index)
                  (mkHeap (self h) (newlines h)
                     ((0 :: index :: p)%nat :: visits h)))
        as (h' & E & Hs).
      exists h'. rewrite Nat.add_succ_r. split; [exact E|exact Hs].
    + destruct (IH (S index)
                  (mkHeap (self h)
                     (((0 :: index :: p)%nat, Some _ONE_BLANK_LINE)
                        :: newlines h)
                     ((0 :: index :: p)%nat :: visits h)))
        as (h' & E & Hs).
      exists h'. rewrite Nat.add_succ_r. split; [exact E|exact Hs].
Qed.

Lemma item_middle (p : path) (node : pytree) (front : list pytree)
    (c : pytree) (rest : list pytree) (h : heap) :
  children node = front ++ c :: rest ->
  item p node (List.length front) h = Ok ((List.length front :: p)%nat, c) h.
Proof.
  intros E. unfold item. rewrite E, nth_error_app2, Nat.sub_diag by lia.
  reflexivity.
Qed.

Lemma last_comment_line_snoc (front : list pytree) (l col : Z)
    (more : list pytree) :
  last_comment_line (front ++ [Node "simple_stmt" (Leaf COMMENT l col :: more)])
  = Some l.
Proof. unfold last_comment_line. now rewrite rev_app_distr. Qed.

(** The routine on a definition whose keyword follows a comment on the line
    before it: the keyword is stamped with no blank line. *)
Lemma comment_then_definition_adjacent (cfg : style) (root : pytree)
    (p : path) (node : pytree) (comments : list pytree) (ty : token)
    (ln col : Z) (rest : list pytree) (h : heap) :
  children node = comments ++ Leaf ty ln col :: rest ->
  Forall is_comment_statement comments ->
  last_comment_line comments = Some (ln - 1)
  \/ last_comment_lineno (self h) + 1 = ln ->
  exists h',
    _SetBlankLinesBetweenCommentAndClassFunc cfg root p node h =
      Ok (List.length comments) h'
    /\ self h' = self h
    /\ exists W,
         newlines h' =
         ((List.length comments :: p)%nat, Some _NO_BLANK_LINES) :: W.
Proof.
  intros Hch Hall Hadj.
  unfold _SetBlankLinesBetweenCommentAndClassFunc, bind. rewrite Hch.
  destruct (leading_comments_run p ty ln col rest comments Hall 0%nat h)
    as (h1 & E & Hs).
  rewrite E. cbn [Nat.add].
  assert (Hkw : forall h0, item p node (List.length comments) h0 =
                           Ok ((List.length comments :: p)%nat,
                               Leaf ty ln col) h0)
    by (intros h0; now apply item_middle with (rest := rest)).
  assert (Hother :
    last_comment_lineno (self h) + 1 = ln ->
    exists h',
      match
        match get_self h1 with
        | Ok s h2 =>
            match item p node (List.length comments) h2 with
            | Ok child h3 =>
                match lineno_of (snd child) h3 with
                | Ok l h4 =>
                    match
                      (if last_comment_lineno s + 1 =? l
                       then ret _NO_BLANK_LINES
                       else _GetNumNewlines cfg root p node) h4
                    with
                    | Ok num_newlines h5 =>
                        _SetNumNewlines (fst child) (Some num_newlines) h5
                    | Raised e h5 => Raised e h5
                    end
                | Raised e h4 => Raised e h4
                end
            | Raised e h3 => Raised e h3
            end
        | Raised e h2 => Raised e h2
        end
      with
      | Ok _ h2 => ret (List.length comments) h2
      | Raised e h2 => Raised e h2
      end = Ok (List.length comments) h'
      /\ self h' = self h
      /\ exists W,
           newlines h' =
           ((List.length comments :: p)%nat, Some _NO_BLANK_LINES) :: W).
  { intros Hln. unfold get_self. rewrite Hkw. cbn [snd fst lineno_of ret].
    rewrite Hs, Hln, Z.eqb_refl. cbn.
    eexists; split; [reflexivity|]. split; [exact Hs|]. eexists; reflexivity. }
  destruct (rev comments) as [|x r] eqn:Hrev.
  - apply (f_equal (@rev pytree)) in Hrev. rewrite rev_involutive in Hrev.
    subst comments. cbn [List.length Nat.ltb Nat.leb].
    destruct Hadj as [Hadj|Hadj]; [discriminate|]. now apply Hother.
  - apply (f_equal (@rev pytree)) in Hrev. rewrite rev_involutive in Hrev.
    cbn [rev] in Hrev.
    assert (Hx : is_comment_statement x).
    { rewrite Forall_forall in Hall. apply Hall. rewrite Hrev.
      apply in_or_app; right; now left. }
    destruct Hx as (lc & cl & more & ->).
    assert (Hpos : (0 <? List.length comments)%nat = true).
    { rewrite Hrev, length_app. apply Nat.ltb_lt. simpl. lia. }
    rewrite Hpos, Hkw. cbn [snd fst lineno_of ret].
    assert (Hprev : forall h0,
              item p node (List.length comments - 1) h0 =
              Ok ((List.length comments - 1 :: p)%nat,
                  Node "simple_stmt" (Leaf COMMENT lc cl :: more)) h0).
    { intros h0.
      replace (List.length comments - 1)%nat with (List.length (rev r))
        by (rewrite Hrev, length_app; simpl; lia).
      apply item_middle with (rest := Leaf ty ln col :: rest).
      rewrite Hch, Hrev, <- app_assoc. reflexivity. }
    rewrite Hprev. cbn [snd fst item children nth_error ret lineno_of].
    destruct (ln - 1 =? lc) eqn:Hlc.
    + cbn. eexists; split; [reflexivity|]. split; [exact Hs|].
      eexists; reflexivity.
    + apply Hother. destruct Hadj as [Hadj|Hadj]; [|exact Hadj].
      rewrite Hrev, last_comment_line_snoc in Hadj.
      apply Z.eqb_neq in Hlc. congruence.
Qed.

(** A computation that writes only strictly inside the subtrees of the
    children of [p] keeps the annotation a child of [p] has. *)
Lemma inside_children_keeps {A} (m : M A) (p : path) (k : nat)
    (v : option Z) (W : list (path * option Z)) (h : heap) :
  sound (fun w => exists j, below (j :: p)%nat (fst w)) anything m ->
  newlines h = ((k :: p)%nat, v) :: W ->
  GetNodeAnnotation (newlines (heap_of (m h))) (k :: p)%nat = v.
Proof.
  intros Hm Hh. destruct (Hm h) as [(W' & E & F) _].
  rewrite E, GetNodeAnnotation_app, written_false, Hh.
  - apply GetNodeAnnotation_head.
  - eapply Forall_impl; [|exact F].
    intros w [j Hj]. eapply not_below_sibling; exact Hj.
Qed.

(** The keyword stamped with no blank line keeps that annotation to the
    end of the visit of its class definition, and of its function
    definition when that is not [async]. *)
Lemma adjacent_keyword_kept (cfg : style) (root : pytree)
    (DecoratedTarget : path -> list string -> option path) (p : path)
    (name : string) (comments : list pytree) (ty : token) (ln col : Z)
    (rest : list pytree) (h : heap) :
  let node := Node name (comments ++ Leaf ty ln col :: rest) in
  Forall is_comment_statement comments ->
  Forall (fun t => NodeName t <> "funcdef") rest ->
  last_comment_line comments = Some (ln - 1)
  \/ last_comment_lineno (self h) + 1 = ln ->
  GetNodeAnnotation
    (newlines (heap_of (Visit_classdef cfg root
                          (Visit cfg root DecoratedTarget) p node h)))
    (List.length comments :: p)%nat = Some _NO_BLANK_LINES
  /\ (_AsyncFunction root p = false ->
      GetNodeAnnotation
        (newlines (heap_of (Visit_funcdef cfg root
                              (Visit cfg root DecoratedTarget) p node h)))
        (List.length comments :: p)%nat = Some _NO_BLANK_LINES).
Proof.
  intros node Hall Hrest Hadj.
  assert (Hkids : Forall (fun t => NodeName t <> "funcdef") (children node)).
  { cbn [node children]. apply Forall_app. split.
    - eapply Forall_impl; [|exact Hall].
      intros t (l & cl & more & ->). discriminate.
    - constructor; [destruct ty; discriminate|exact Hrest]. }
  set (h0 := mkHeap (with_last_was_class_or_function false (self h))
               (newlines h) (visits h)).
  assert (Hroutine : forall h1,
            self h1 = self h0 ->
            exists h2,
              _SetBlankLinesBetweenCommentAndClassFunc cfg root p node h1 =
                Ok (List.length comments) h2
              /\ self h2 = self h0
              /\ exists W,
                   newlines h2 =
                   ((List.length comments :: p)%nat, Some _NO_BLANK_LINES)
                     :: W).
  { intros h1 Hs.
    destruct (comment_then_definition_adjacent cfg root p node comments ty
                ln col rest h1 eq_refl Hall) as (h2 & E & Hs2 & HW).
    - now rewrite Hs.
    - exists h2. split; [exact E|]. split; [congruence|exact HW]. }
  destruct (Hroutine h0 eq_refl) as (h1 & E1 & Hs1 & W1 & HW1).
  split.
  - unfold Visit_classdef. unfold bind at 1. unfold update at 1. fold h0.
    unfold bind at 1. rewrite E1.
    apply inside_children_keeps with (W := W1); [|exact HW1].
    sound_step. sound_step.
    eapply sound_bind with (R := anything);
      [now apply visit_each_keeps_to_subtrees|intros _ _].
    repeat sound_step; auto with sound.
  - intros Hsync.
    destruct (Hroutine h1 Hs1) as (h2 & E2 & Hs2 & W2 & HW2).
    unfold Visit_funcdef. unfold bind at 1. unfold update at 1. fold h0.
    unfold bind at 1. rewrite E1. unfold bind at 1. rewrite Hsync, E2.
    apply inside_children_keeps with (W := W2); [|exact HW2].
    sound_step. sound_step.
    eapply sound_bind with (R := anything);
      [now apply visit_each_keeps_to_subtrees|intros _ _].
    repeat sound_step; auto with sound.
Qed.

(** C7: for a class or function definition whose last leading comment is
    on the line before its first child past the comments, the keyword, or
    whose keyword is on the line after the last standalone comment seen, the
    comment-then-definition routine annotates that child with 1, no blank
    line; the keyword still has that annotation when the visit of the class
    definition, or of the function definition that is not [async], ends. *)
Theorem C7_comment_attachment (cfg : style) (root : pytree)
    (DecoratedTarget : path -> list string -> option path) (p : path)
    (name : string) (comments : list pytree) (ty : token) (ln col : Z)
    (rest : list pytree) (h : heap) :
  let node := Node name (comments ++ Leaf ty ln col :: rest) in
  let keyword := (List.length comments :: p)%nat in
  Forall is_comment_statement comments ->
  last_comment_line comments = Some (ln - 1)
  \/ last_comment_lineno (self h) + 1 = ln ->
  (exists h',
     _SetBlankLinesBetweenCommentAndClassFunc cfg root p node h =
       Ok (List.length comments) h'
     /\ GetNodeAnnotation (newlines h') keyword = Some _NO_BLANK_LINES
     /\ blank_lines _NO_BLANK_LINES = 0)
  /\ (Forall (fun t => NodeName t <> "funcdef") rest ->
      GetNodeAnnotation
        (newlines (heap_of (Visit_classdef cfg root
                              (Visit cfg root DecoratedTarget) p node h)))
        keyword = Some _NO_BLANK_LINES
      /\ (_AsyncFunction root p = false ->
          GetNodeAnnotation
            (newlines (heap_of (Visit_funcdef cfg root
                                  (Visit cfg root DecoratedTarget) p node h)))
            keyword = Some _NO_BLANK_LINES)).
Proof.
  intros node keyword Hall Hadj. split.
  - destruct (comment_then_definition_adjacent cfg root p node comments ty
                ln col rest h eq_refl Hall Hadj) as (h' & E & _ & W & HW).
    exists h'. split; [exact E|]. split; [|reflexivity].
    rewrite HW. apply GetNodeAnnotation_head.
  - intros Hrest. now apply adjacent_keyword_kept.
Qed.

Lemma C7_comment_attachment_witness :
  exists h',
    _SetBlankLinesBetweenCommentAndClassFunc (mkStyle 2 1) commented_def
      [1]%nat
      (Node "funcdef"
         ([Node "simple_stmt" [Leaf COMMENT 3 0]]
            ++ Leaf NAME 4 0 :: tl (def_children 4 0)))
      (mkHeap __init__ [] []) = Ok 1%nat h'
    /\ GetNodeAnnotation (newlines h') [1; 1]%nat = Some _NO_BLANK_LINES
    /\ blank_lines _NO_BLANK_LINES = 0.
Proof.
  apply (C7_comment_attachment (mkStyle 2 1) commented_def
           (last_child_target commented_def) [1]%nat "funcdef"
           [Node "simple_stmt" [Leaf COMMENT 3 0]] NAME 4 0
           (tl (def_children 4 0)) (mkHeap __init__ [] [])).
  - constructor; [|constructor]. exists 3, 0, []. reflexivity.
  - left. reflexivity.
Defined.

(** C9: for a class or function definition whose first child past the
    comments is on line 1, reached while no standalone comment has been seen
    ([last_comment_lineno] still 0), the comment-then-definition routine
    annotates the keyword with 1, no blank line, since [0 + 1 = 1], and the
    keyword still has that annotation when the visit of the class
    definition, or of the function definition that is not [async], ends; at
    top level, without leading comments and not after a decorator, the
    generic rule would have given
    [1 + BLANK_LINES_AROUND_TOP_LEVEL_DEFINITION]. *)
Theorem C9_first_line_sentinel (cfg : style) (root : pytree)
    (DecoratedTarget : path -> list string -> option path) (p : path)
    (name : string) (comments : list pytree) (ty : token) (col : Z)
    (rest : list pytree) (h : heap) :
  let node := Node name (comments ++ Leaf ty 1 col :: rest) in
  let keyword := (List.length comments :: p)%nat in
  Forall is_comment_statement comments ->
  last_comment_lineno (self h) = 0 ->
  (exists h',
     _SetBlankLinesBetweenCommentAndClassFunc cfg root p node h =
       Ok (List.length comments) h'
     /\ GetNodeAnnotation (newlines h') keyword = Some _NO_BLANK_LINES)
  /\ (Forall (fun t => NodeName t <> "funcdef") rest ->
      GetNodeAnnotation
        (newlines (heap_of (Visit_classdef cfg root
                              (Visit cfg root DecoratedTarget) p node h)))
        keyword = Some _NO_BLANK_LINES
      /\ (_AsyncFunction root p = false ->
          GetNodeAnnotation
            (newlines (heap_of (Visit_funcdef cfg root
                                  (Visit cfg root DecoratedTarget) p node h)))
            keyword = Some _NO_BLANK_LINES))
  /\ (comments = [] -> col = 0 ->
      last_was_decorator (self h) = false ->
      class_level (self h) = 0 -> function_level (self h) = 0 ->
      _GetNumNewlines cfg root p node h =
      Ok (1 + BLANK_LINES_AROUND_TOP_LEVEL_DEFINITION cfg) h).
Proof.
  intros node keyword Hall Hzero.
  assert (Hadj : last_comment_line comments = Some (1 - 1)
                 \/ last_comment_lineno (self h) + 1 = 1)
    by (right; rewrite Hzero; reflexivity).
  split; [|split].
  - destruct (comment_then_definition_adjacent cfg root p node comments ty 1
                col rest h eq_refl Hall Hadj) as (h' & E & _ & W & HW).
    exists h'. split; [exact E|].
    rewrite HW. apply GetNodeAnnotation_head.
  - intros Hrest. now apply adjacent_keyword_kept.
  - intros Hnone -> Hd Hc Hf. subst node. rewrite Hnone.
    apply _GetNumNewlines_top_level; [exact Hd|].
    now apply _IsTopLevel_first_column with (q := (0 :: p)%nat) (ty := ty)
      (l := 1).
Qed.

Lemma C9_first_line_sentinel_witness :
  exists h',
    _SetBlankLinesBetweenCommentAndClassFunc (mkStyle 2 1) two_top_level_defs
      [0]%nat (Node "funcdef" ([] ++ Leaf NAME 1 0 :: tl (def_children 1 0)))
      (mkHeap __init__ [] []) = Ok 0%nat h'
    /\ GetNodeAnnotation (newlines h') [0; 0]%nat = Some _NO_BLANK_LINES.
Proof.
  apply (C9_first_line_sentinel (mkStyle 2 1) two_top_level_defs
           (last_child_target two_top_level_defs) [0]%nat "funcdef" [] NAME
           0 (tl (def_children 1 0)) (mkHeap __init__ [] [])).
  - constructor.
  - reflexivity.
Defined.

(** ** Decorators *)

Lemma existsb_false_In {A} (f : A -> bool) (l : list A) (x : A) :
  existsb f l = false -> In x l -> f x = false.
Proof.
  intros Hf Hin. destruct (f x) eqn:E; [|reflexivity].
  assert (H : existsb f l = true) by (apply existsb_exists; eauto).
  congruence.
Qed.

(** Visiting an expression never raises and annotates nothing. *)
Lemma Visit_expression (cfg : style) (root : pytree)
    (DecoratedTarget : path -> list string -> option path) (t : pytree) :
  expression t = true ->
  forall p h,
  exists h',
    Visit cfg root DecoratedTarget p t h = Ok tt h'
    /\ newlines h' = newlines h.
Proof.
  induction t as [ty l c|name cs IH] using pytree_ind; intros Hex p h.
  - eexists; split; reflexivity.
  - cbn [expression] in Hex. apply andb_true_iff in Hex as [Hname Hcs].
    apply negb_true_iff in Hname.
    assert (Hkind : forall kind,
              In kind ("decorator" :: "classdef" :: "funcdef"
                         :: _PYTHON_STATEMENTS) ->
              (name =? kind)%string = false)
      by (intros kind; apply existsb_false_In; exact Hname).
    cbn [Visit].
    rewrite (Hkind "simple_stmt"), (Hkind "decorator"), (Hkind "classdef"),
      (Hkind "funcdef") by (simpl; tauto).
    assert (Hstmt : existsb (String.eqb name) _PYTHON_STATEMENTS = false).
    { cbn [existsb] in Hname.
      apply orb_false_iff in Hname as [_ Hname].
      apply orb_false_iff in Hname as [_ Hname].
      apply orb_false_iff in Hname as [_ Hname]. exact Hname. }
    unfold DefaultNodeVisit, bind, record_visit, get_self. cbn [self NodeName].
    rewrite Hstmt.
    assert (Hloop : forall i h0,
              exists h',
                visit_each (Visit cfg root DecoratedTarget) p 0 i cs h0 =
                  Ok tt h'
                /\ newlines h' = newlines h0).
    { clear Hname Hkind Hstmt. induction cs as [|c cs IHcs]; intros i h0.
      - eexists; split; reflexivity.
      - cbn [forallb] in Hcs. apply andb_true_iff in Hcs as [Hc Hcs].
        inversion IH as [|? ? IHc IHrest]; subst.
        cbn [visit_each]. unfold bind. cbn [Nat.leb].
        destruct (IHc Hc (i :: p)%nat h0) as (h1 & E1 & N1). rewrite E1.
        destruct (IHcs IHrest Hcs (S i) h1) as (h2 & E2 & N2).
        exists h2. split; [exact E2|congruence]. }
    assert (Hif : forall (b : bool) (m : M unit), (if b then m else m) = m)
      by (now intros [] m).
    cbn [children]. rewrite Hif. unfold ret, update.
    cbn [self newlines visits].
    destruct (Hloop 0%nat
                (mkHeap
                   (with_last_was_class_or_function false (self h))
                   (newlines h) (p :: visits h))) as (h' & E & N).
    exists h'. split; [exact E|exact N].
Qed.

(** On a node whose first child is a token the generic rule never raises. *)
Lemma _GetNumNewlines_first_token (cfg : style) (root : pytree) (p : path)
    (name : string) (ty : token) (l c : Z) (rest : list pytree) (h : heap) :
  exists v,
    _GetNumNewlines cfg root p (Node name (Leaf ty l c :: rest)) h = Ok v h.
Proof.
  unfold _GetNumNewlines, _IsTopLevel, _StartsInZerothColumn, bind, get_self.
  cbn [FirstLeafNode ret snd column_of].
  destruct (last_was_decorator (self h)); [eexists; reflexivity|].
  assert (Hrest : forall top : bool,
    exists v,
      (if top
       then ret (1 + BLANK_LINES_AROUND_TOP_LEVEL_DEFINITION cfg)
       else
         match _prev_stmt (self h) with
         | Some prev =>
             if _MethodsInSameClass root prev p
             then ret (Z.max _ONE_BLANK_LINE
                         (1 + BLANK_LINES_BETWEEN_CLASS_DEFS cfg))
             else ret _NO_BLANK_LINES
         | None => ret _NO_BLANK_LINES
         end) h = Ok v h).
  { intros [|]; [eexists; reflexivity|].
    destruct (_prev_stmt (self h)) as [prev|]; [|eexists; reflexivity].
    destruct (_MethodsInSameClass root prev p); eexists; reflexivity. }
  destruct (negb _); [apply (Hrest false)|].
  destruct (c =? 0); [apply (Hrest true)|].
  unfold _AsyncFunction.
  destruct (prev_sibling p) as [s|]; [|apply (Hrest false)].
  destruct (node_at root s) as [[ty' l' c'|name' cs']|];
    cbn [type_is column_of ret]; try apply (Hrest false).
  destruct (token_eqb ty' ASYNC); [apply Hrest|apply (Hrest false)].
Qed.

Lemma visit_each_expression (cfg : style) (root : pytree)
    (DecoratedTarget : path -> list string -> option path) (p : path)
    (index : nat) (cs : list pytree) :
  forallb expression cs = true ->
  forall i h,
  exists h',
    visit_each (Visit cfg root DecoratedTarget) p index i cs h = Ok tt h'
    /\ newlines h' = newlines h.
Proof.
  induction cs as [|c cs IH]; intros Hcs i h.
  - eexists; split; reflexivity.
  - cbn [forallb] in Hcs. apply andb_true_iff in Hcs as [Hc Hcs].
    cbn [visit_each]. unfold bind.
    assert (Hhead : exists h1,
              (if (index <=? i)%nat
               then Visit cfg root DecoratedTarget (i :: p)%nat c
               else ret tt) h = Ok tt h1
              /\ newlines h1 = newlines h).
    { destruct (index <=? i)%nat; [|eexists; split; reflexivity].
      now apply Visit_expression. }
    destruct Hhead as (h1 & E1 & N1). rewrite E1.
    destruct (IH Hcs (S i) h1) as (h2 & E2 & N2).
    exists h2. split; [exact E2|congruence].
Qed.

(** The visit of a decorator over expressions, whose first child is the
    [@] token at line [l]: it returns, having annotated that token once,
    with the value the four-way choice of [Visit_decorator] gives. *)
Lemma Visit_decorator_run (cfg : style) (root : pytree)
    (DecoratedTarget : path -> list string -> option path) (p : path)
    (name : string) (ty : token) (l c : Z) (rest : list pytree) (h : heap) :
  forallb expression rest = true ->
  let node := Node name (Leaf ty l c :: rest) in
  exists v h',
    Visit_decorator cfg root DecoratedTarget
      (Visit cfg root DecoratedTarget) p node h = Ok tt h'
    /\ newlines h' = ((0 :: p)%nat, Some v) :: newlines h
    /\ (if comment_on_previous_line (self h) l then v = _NO_BLANK_LINES
        else if last_was_decorator (self h) then v = _NO_BLANK_LINES
        else if match _DecoratedFuncdef DecoratedTarget p,
                      _prev_stmt (self h) with
                | Some f, Some prev => _MethodsInSameClass root prev f
                | _, _ => false
                end
        then v = Z.max _ONE_BLANK_LINE (1 + BLANK_LINES_BETWEEN_CLASS_DEFS cfg)
        else _GetNumNewlines cfg root p node h = Ok v h).
Proof.
  intros Hrest node.
  assert (Hkids : forall v,
            exists h',
              bind (visit_each (Visit cfg root DecoratedTarget) p 0 0
                      (children node))
                (fun _ => update (with_last_was_decorator true))
                (mkHeap (self h) (((0 :: p)%nat, Some v) :: newlines h)
                   (visits h)) = Ok tt h'
              /\ newlines h' = ((0 :: p)%nat, Some v) :: newlines h).
  { intros v. unfold bind.
    destruct (visit_each_expression cfg root DecoratedTarget p 0
                (children node) Hrest 0%nat
                (mkHeap (self h) (((0 :: p)%nat, Some v) :: newlines h)
                   (visits h))) as (h1 & E1 & N1).
    rewrite E1. eexists; split; [reflexivity|exact N1]. }
  unfold Visit_decorator, comment_on_previous_line.
  unfold bind at 1. unfold get_self at 1. unfold bind at 1.
  assert (Hadj :
    (if last_comment_lineno (self h) =? 0 then ret false
     else bind (item p node 0) (fun first =>
          bind (lineno_of (snd first)) (fun l0 =>
          ret (last_comment_lineno (self h) =? l0 - 1)))) h =
    Ok (negb (last_comment_lineno (self h) =? 0)
        && (last_comment_lineno (self h) =? l - 1)) h).
  { destruct (last_comment_lineno (self h) =? 0); reflexivity. }
  rewrite Hadj. clear Hadj. unfold bind at 1.
  assert (Hset : forall v h0,
            bind (item p node 0)
              (fun first => _SetNumNewlines (fst first) (Some v)) h0 =
            Ok tt (mkHeap (self h0) (((0 :: p)%nat, Some v) :: newlines h0)
                     (visits h0))) by reflexivity.
  destruct (negb (last_comment_lineno (self h) =? 0)
            && (last_comment_lineno (self h) =? l - 1)).
  { rewrite Hset. destruct (Hkids _NO_BLANK_LINES) as (h' & E & N).
    exists _NO_BLANK_LINES, h'. repeat split; assumption. }
  destruct (last_was_decorator (self h)).
  { rewrite Hset. destruct (Hkids _NO_BLANK_LINES) as (h' & E & N).
    exists _NO_BLANK_LINES, h'. repeat split; assumption. }
  destruct (match _DecoratedFuncdef DecoratedTarget p,
                  _prev_stmt (self h) with
            | Some f, Some prev => _MethodsInSameClass root prev f
            | _, _ => false
            end).
  { rewrite Hset.
    destruct (Hkids (Z.max _ONE_BLANK_LINE
                       (1 + BLANK_LINES_BETWEEN_CLASS_DEFS cfg)))
      as (h' & E & N).
    eexists _, h'. repeat split; [exact E|exact N]. }
  destruct (_GetNumNewlines_first_token cfg root p name ty l c rest h)
    as (v & Hv).
  fold node in Hv.
  assert (Hgen :
    bind (item p node 0) (fun first =>
    bind (_GetNumNewlines cfg root p node) (fun n =>
    _SetNumNewlines (fst first) (Some n))) h =
    Ok tt (mkHeap (self h) (((0 :: p)%nat, Some v) :: newlines h)
             (visits h))).
  { unfold bind. cbn [item node children nth_error ret].
    fold node. now rewrite Hv. }
  rewrite Hgen. destruct (Hkids v) as (h' & E & N).
  exists v, h'. repeat split; assumption.
Qed.

(** C5: a decorator reached just after another decorator, or after a
    standalone comment on the line before its first token, has that token
    annotated with 1, no blank line; and after a decorator the generic rule
    returns 1 for every node, whatever its level and class. *)
Theorem C5_decorator_hugging (cfg : style) (root : pytree)
    (DecoratedTarget : path -> list string -> option path) (p : path)
    (ty : token) (l c : Z) (rest : list pytree) (h : heap) :
  forallb expression rest = true ->
  last_was_decorator (self h) = true
  \/ (last_comment_lineno (self h) <> 0
      /\ last_comment_lineno (self h) = l - 1) ->
  (exists h',
     Visit_decorator cfg root DecoratedTarget
       (Visit cfg root DecoratedTarget) p
       (Node "decorator" (Leaf ty l c :: rest)) h = Ok tt h'
     /\ GetNodeAnnotation (newlines h') (0 :: p)%nat = Some _NO_BLANK_LINES
     /\ blank_lines _NO_BLANK_LINES = 0)
  /\ (last_was_decorator (self h) = true ->
      forall q node,
        _GetNumNewlines cfg root q node h = Ok _NO_BLANK_LINES h).
Proof.
  intros Hrest Hprev. split.
  - destruct (Visit_decorator_run cfg root DecoratedTarget p "decorator" ty
                l c rest h Hrest) as (v & h' & E & N & Hv).
    exists h'. split; [exact E|]. split; [|reflexivity].
    rewrite N, GetNodeAnnotation_head. f_equal.
    unfold comment_on_previous_line in Hv.
    destruct Hprev as [Hdec|[Hseen Hline]].
    + rewrite Hdec in Hv. now destruct (negb _ && _).
    + apply Z.eqb_neq in Hseen. apply Z.eqb_eq in Hline.
      now rewrite Hseen, Hline in Hv.
  - intros Hdec q node. unfold _GetNumNewlines, bind, get_self.
    now rewrite Hdec.
Qed.

Lemma C5_decorator_hugging_witness :
  exists h',
    Visit_decorator (mkStyle 2 1) decorated_method
      (last_child_target decorated_method)
      (Visit (mkStyle 2 1) decorated_method
         (last_child_target decorated_method))
      [1; 3; 3; 0]%nat
      (Node "decorator" [Leaf OP 4 2; Leaf NAME 4 3; Leaf NEWLINE 4 9])
      before_decorator = Ok tt h'
    /\ GetNodeAnnotation (newlines h') [0; 1; 3; 3; 0]%nat =
       Some _NO_BLANK_LINES
    /\ blank_lines _NO_BLANK_LINES = 0.
Proof.
  apply (C5_decorator_hugging (mkStyle 2 1) decorated_method
           (last_child_target decorated_method) [1; 3; 3; 0]%nat OP 4 2
           [Leaf NAME 4 3; Leaf NEWLINE 4 9] before_decorator).
  - reflexivity.
  - right. split; [discriminate|reflexivity].
Defined.

(** C10: when the decorated function cannot be resolved, or no previous
    statement has been recorded, the visit of a decorator does not raise:
    the same-class branch is skipped and the first token is annotated, by
    the generic rule unless a comment on the previous line or a preceding
    decorator has already forced 1. *)
Theorem C10_decorator_without_target (cfg : style) (root : pytree)
    (DecoratedTarget : path -> list string -> option path) (p : path)
    (ty : token) (l c : Z) (rest : list pytree) (h : heap) :
  forallb expression rest = true ->
  _DecoratedFuncdef DecoratedTarget p = None \/ _prev_stmt (self h) = None ->
  let node := Node "decorator" (Leaf ty l c :: rest) in
  exists v h',
    Visit_decorator cfg root DecoratedTarget
      (Visit cfg root DecoratedTarget) p node h = Ok tt h'
    /\ GetNodeAnnotation (newlines h') (0 :: p)%nat = Some v
    /\ (comment_on_previous_line (self h) l = false ->
        last_was_decorator (self h) = false ->
        _GetNumNewlines cfg root p node h = Ok v h)
    /\ (comment_on_previous_line (self h) l = true
        \/ last_was_decorator (self h) = true ->
        v = _NO_BLANK_LINES).
Proof.
  intros Hrest Hnone node.
  destruct (Visit_decorator_run cfg root DecoratedTarget p "decorator" ty
              l c rest h Hrest) as (v & h' & E & N & Hv).
  exists v, h'. split; [exact E|]. split.
  { now rewrite N, GetNodeAnnotation_head. }
  assert (Hskip : match _DecoratedFuncdef DecoratedTarget p,
                        _prev_stmt (self h) with
                  | Some f, Some prev => _MethodsInSameClass root prev f
                  | _, _ => false
                  end = false).
  { destruct Hnone as [-> | ->]; [reflexivity|].
    now destruct (_DecoratedFuncdef DecoratedTarget p). }
  rewrite Hskip in Hv. split.
  - intros Hc Hd. now rewrite Hc, Hd in Hv.
  - intros [Hc|Hd].
    + now rewrite Hc in Hv.
    + rewrite Hd in Hv. now destruct (comment_on_previous_line (self h) l).
Qed.

Lemma C10_decorator_without_target_witness :
  exists v h',
    Visit_decorator (mkStyle 2 1) decorated_first
      (last_child_target decorated_first)
      (Visit (mkStyle 2 1) decorated_first
         (last_child_target decorated_first))
      [0; 0]%nat
      (Node "decorator" [Leaf OP 1 0; Leaf NAME 1 1; Leaf NEWLINE 1 7])
      (mkHeap __init__ [] []) = Ok tt h'
    /\ GetNodeAnnotation (newlines h') [0; 0; 0]%nat = Some v
    /\ (comment_on_previous_line __init__ 1 = false ->
        last_was_decorator __init__ = false ->
        _GetNumNewlines (mkStyle 2 1) decorated_first [0; 0]%nat
          (Node "decorator" [Leaf OP 1 0; Leaf NAME 1 1; Leaf NEWLINE 1 7])
          (mkHeap __init__ [] []) = Ok v (mkHeap __init__ [] []))
    /\ (comment_on_previous_line __init__ 1 = true
        \/ last_was_decorator __init__ = true ->
        v = _NO_BLANK_LINES).
Proof.
  apply (C10_decorator_without_target (mkStyle 2 1) decorated_first
           (last_child_target decorated_first) [0; 0]%nat OP 1 0
           [Leaf NAME 1 1; Leaf NEWLINE 1 7] (mkHeap __init__ [] [])).
  - reflexivity.
  - right. reflexivity.
Defined.

(** ** [async] definitions *)

Lemma descend_app (t : pytree) (r1 r2 : list nat) :
  descend t (r1 ++ r2) =
  match descend t r1 with
  | Some u => descend u r2
  | None => None
  end.
Proof.
  revert t; induction r1 as [|i r1 IH]; intros t; simpl; [reflexivity|].
  destruct (nth_error (children t) i); [apply IH|reflexivity].
Qed.

Lemma node_at_child (root : pytree) (q : path) (t : pytree) (i : nat) :
  node_at root q = Some t ->
  node_at root (i :: q) = nth_error (children t) i.
Proof.
  unfold node_at; intros H. simpl. rewrite descend_app, H. simpl.
  now destruct (nth_error (children t) i).
Qed.

(** The routine on a node that starts with a token: no comment to skip,
    one annotation, on that token. *)
Lemma comment_then_definition_no_comment (cfg : style) (root : pytree)
    (p : path) (name : string) (ty : token) (l c : Z) (rest : list pytree)
    (h : heap) :
  exists v,
    _SetBlankLinesBetweenCommentAndClassFunc cfg root p
      (Node name (Leaf ty l c :: rest)) h =
    Ok 0%nat (mkHeap (self h) (((0 :: p)%nat, Some v) :: newlines h)
                (visits h)).
Proof.
  unfold _SetBlankLinesBetweenCommentAndClassFunc, bind.
  cbn [children leading_comments]. unfold bind.
  rewrite IsCommentStatement_Leaf. cbn [ret Nat.ltb Nat.leb].
  unfold get_self.
  cbn [item children nth_error ret snd fst lineno_of].
  destruct (last_comment_lineno (self h) + 1 =? l).
  - exists _NO_BLANK_LINES. reflexivity.
  - destruct (_GetNumNewlines_first_token cfg root p name ty l c rest h)
      as (v & Hv).
    exists v. now rewrite Hv.
Qed.

(** ** The scenarios of the specification, run *)

Example two_methods_between_0 :
  GetNodeAnnotation (annotations_after (mkStyle 2 0) two_methods)
    [0; 3; 3; 0]%nat = Some _ONE_BLANK_LINE.
Proof. vm_compute. reflexivity. Qed.

Example decorator_after_comment :
  GetNodeAnnotation (annotations_after (mkStyle 2 1) decorated_method)
    [0; 1; 3; 3; 0]%nat = Some _NO_BLANK_LINES.
Proof. vm_compute. reflexivity. Qed.

Example async_def_annotations :
  GetNodeAnnotation (annotations_after (mkStyle 2 1) async_def)
    [0; 1; 1]%nat = None
  /\ GetNodeAnnotation (annotations_after (mkStyle 2 1) async_def)
       [0; 1]%nat = Some _TWO_BLANK_LINES.
Proof. split; vm_compute; reflexivity. Qed.

(** The states the witnesses start from are the states the walk is in
    when it reaches those nodes. *)
Example state_after_first_method :
  self (heap_of (Visit (mkStyle 2 1) two_methods
                   (last_child_target two_methods) [2; 3; 0]%nat
                   (def_stmt 2 2)
                   (mkHeap (mkCalc 1 0 0 false false None) [] [])))
  = self after_first_method.
Proof. vm_compute. reflexivity. Qed.

Example state_before_decorator :
  self (heap_of
          (bind (Visit (mkStyle 2 1) decorated_method
                   (last_child_target decorated_method) [2; 3; 0]%nat
                   (Node "simple_stmt"
                      [ Node "expr_stmt"
                          [Leaf NAME 2 2; Leaf OP 2 4; Leaf NUMBER 2 6];
                        Leaf NEWLINE 2 7 ]))
             (fun _ =>
                Visit (mkStyle 2 1) decorated_method
                  (last_child_target decorated_method) [0; 3; 3; 0]%nat
                  (Node "simple_stmt" [Leaf COMMENT 3 2]))
             (mkHeap (mkCalc 1 0 0 false false None) [] [])))
  = self before_decorator.
Proof. vm_compute. reflexivity. Qed.

Example state_before_async_def :
  self (heap_of (Visit (mkStyle 2 1) async_def (last_child_target async_def)
                   [0]%nat
                   (Node "simple_stmt" [Leaf NAME 1 0; Leaf NEWLINE 1 5])
                   (mkHeap __init__ [] [])))
  = self before_async_def.
Proof. vm_compute. reflexivity. Qed.

(** ** The rule evaluator only reads the calculator *)

Lemma reader_ret {A} (a : A) : reader (ret a).
Proof. intros h1 h2 _; reflexivity. Qed.

Lemma reader_raise {A} (e : exn) : reader (@raise A e).
Proof. intros h1 h2 _; reflexivity. Qed.

Lemma reader_bind {A B} (m : M A) (f : A -> M B) :
  reader m -> (forall a, reader (f a)) -> reader (bind m f).
Proof.
  intros Hm Hf h1 h2 Hs. unfold bind.
  rewrite (Hm h1 h2 Hs), (Hm h2 h2 eq_refl).
  destruct (m h2) as [a h|e h]; [|reflexivity].
  apply Hf; exact Hs.
Qed.

Lemma reader_get_self : reader get_self.
Proof. intros h1 h2 Hs; unfold get_self; now rewrite Hs. Qed.

Lemma reader_item (p : path) (node : pytree) (i : nat) :
  reader (item p node i).
Proof.
  unfold item; destruct (nth_error _ _); [apply reader_ret|apply reader_raise].
Qed.

Lemma reader_lineno_of (t : pytree) : reader (lineno_of t).
Proof. destruct t; [apply reader_ret|apply reader_raise]. Qed.

Lemma reader_column_of (t : pytree) : reader (column_of t).
Proof. destruct t; [apply reader_ret|apply reader_raise]. Qed.

Lemma reader_FirstLeafNode (node : pytree) :
  forall p, reader (FirstLeafNode p node).
Proof.
  induction node as [ty l c|name cs IH] using pytree_ind; intros p; simpl.
  - apply reader_ret.
  - destruct cs as [|c cs]; [apply reader_raise|].
    inversion IH; subst; auto.
Qed.

Create HintDb reader.

#[local] Hint Resolve reader_ret reader_raise reader_get_self reader_item
  reader_lineno_of reader_column_of reader_FirstLeafNode : reader.

Ltac reader_auto :=
  repeat first
    [ progress auto with reader
    | apply reader_bind; [|intros ?]
    | match goal with
      | |- reader (if ?b then _ else _) => destruct b
      | |- reader (match ?x with _ => _ end) => destruct x
      end ].

Lemma reader_IsCommentStatement (t : pytree) : reader (IsCommentStatement t).
Proof. unfold IsCommentStatement. reader_auto. Qed.

Lemma reader__StartsInZerothColumn (root : pytree) (p : path)
    (node : pytree) :
  reader (_StartsInZerothColumn root p node).
Proof. unfold _StartsInZerothColumn. reader_auto. Qed.

Lemma reader__IsTopLevel (root : pytree) (p : path) (node : pytree) :
  reader (_IsTopLevel root p node).
Proof.
  unfold _IsTopLevel. pose proof (reader__StartsInZerothColumn root).
  reader_auto.
Qed.

Lemma reader__GetNumNewlines (cfg : style) (root : pytree) (p : path)
    (node : pytree) :
  reader (_GetNumNewlines cfg root p node).
Proof.
  unfold _GetNumNewlines. pose proof (reader__IsTopLevel root). reader_auto.
Qed.

Lemma reader_same_heap {A} (m : M A) (h : heap) :
  reader m -> heap_of (m h) = h.
Proof.
  intros Hm. rewrite (Hm h h eq_refl). now destruct (m h).
Qed.

(** The only exception of the first-leaf search is [IndexError]. *)
Lemma FirstLeafNode_raises (node : pytree) :
  forall p h e h',
    FirstLeafNode p node h = Raised e h' -> e = IndexError.
Proof.
  induction node as [ty l c|name cs IH] using pytree_ind;
    intros p h e h'; simpl.
  - discriminate.
  - destruct cs as [|c cs]; [now intros [= <- _]|].
    inversion IH; subst; eauto.
Qed.

Lemma FirstLeafNode_returns_leaf (node : pytree) :
  forall p h q t h',
    FirstLeafNode p node h = Ok (q, t) h' ->
    exists ty l c, t = Leaf ty l c.
Proof.
  induction node as [ty l c|name cs IH] using pytree_ind;
    intros p h q t h'; simpl.
  - intros [= _ <- _]. eauto.
  - destruct cs as [|c cs]; [discriminate|].
    inversion IH; subst; eauto.
Qed.

Lemma _StartsInZerothColumn_raises (root : pytree) (p : path)
    (node : pytree) (h : heap) (e : exn) (h' : heap) :
  _StartsInZerothColumn root p node h = Raised e h' -> e = IndexError.
Proof.
  unfold _StartsInZerothColumn, bind.
  destruct (FirstLeafNode p node h) as [[q t] h1|e1 h1] eqn:E.
  - destruct (FirstLeafNode_returns_leaf _ _ _ _ _ _ E) as (ty & l & c & ->).
    cbn [snd column_of ret].
    destruct (c =? 0); [discriminate|].
    unfold _AsyncFunction.
    destruct (prev_sibling p) as [s|]; [|discriminate].
    destruct (node_at root s) as [[ty' l' c'|name' cs']|];
      cbn [type_is column_of ret]; try discriminate.
    destruct (token_eqb ty' ASYNC); discriminate.
  - intros [= <- _]. eapply FirstLeafNode_raises; eassumption.
Qed.

(** The generic rule reads the calculator and nothing else: it leaves the
    heap as it was; the count it returns is 1,
    [1 + BLANK_LINES_AROUND_TOP_LEVEL_DEFINITION] or
    [max(2, 1 + BLANK_LINES_BETWEEN_CLASS_DEFS)], so at least 1 when the
    top-level value is not negative; and the only exception it raises is
    [IndexError], from a node without children on the way to the first
    leaf. *)
Theorem generic_rule_reads_only (cfg : style) (root : pytree) (p : path)
    (node : pytree) (h : heap) :
  match _GetNumNewlines cfg root p node h with
  | Ok n h' =>
      h' = h
      /\ (n = _NO_BLANK_LINES
          \/ n = 1 + BLANK_LINES_AROUND_TOP_LEVEL_DEFINITION cfg
          \/ n = Z.max _ONE_BLANK_LINE
                   (1 + BLANK_LINES_BETWEEN_CLASS_DEFS cfg))
      /\ (0 <= BLANK_LINES_AROUND_TOP_LEVEL_DEFINITION cfg -> 1 <= n)
  | Raised e h' => h' = h /\ e = IndexError
  end
  /\ forall h2,
       self h2 = self h ->
       _GetNumNewlines cfg root p node h2 =
       match _GetNumNewlines cfg root p node h with
       | Ok n _ => Ok n h2
       | Raised e _ => Raised e h2
       end.
Proof.
  split; [|intros h2 Hs; now apply reader__GetNumNewlines].
  pose proof (reader_same_heap _ h (reader__GetNumNewlines cfg root p node))
    as Hsame.
  destruct (_GetNumNewlines cfg root p node h) as [n h'|e h'] eqn:E;
    simpl in Hsame; (split; [exact Hsame|]).
  - assert (Hn : n = _NO_BLANK_LINES
                 \/ n = 1 + BLANK_LINES_AROUND_TOP_LEVEL_DEFINITION cfg
                 \/ n = Z.max _ONE_BLANK_LINE
                          (1 + BLANK_LINES_BETWEEN_CLASS_DEFS cfg)).
    { revert E. unfold _GetNumNewlines, _IsTopLevel, bind, get_self.
      destruct (last_was_decorator (self h)); [intros [= <- _]; auto|].
      assert (Hlow :
        forall h0,
          match _prev_stmt (self h) with
          | Some prev =>
              if _MethodsInSameClass root prev p
              then ret (Z.max _ONE_BLANK_LINE
                          (1 + BLANK_LINES_BETWEEN_CLASS_DEFS cfg))
              else ret _NO_BLANK_LINES
          | None => ret _NO_BLANK_LINES
          end h0 = Ok n h' ->
          n = _NO_BLANK_LINES
          \/ n = 1 + BLANK_LINES_AROUND_TOP_LEVEL_DEFINITION cfg
          \/ n = Z.max _ONE_BLANK_LINE
                   (1 + BLANK_LINES_BETWEEN_CLASS_DEFS cfg)).
      { intros h0. destruct (_prev_stmt (self h)) as [prev|];
          [|intros [= <- _]; auto].
        destruct (_MethodsInSameClass root prev p); intros [= <- _]; auto. }
      destruct (negb _); [apply Hlow|].
      destruct (_StartsInZerothColumn root p node h) as [top h1|e1 h1];
        [|discriminate].
      destruct top; [intros [= <- _]; auto|apply Hlow]. }
    split; [exact Hn|].
    unfold _NO_BLANK_LINES, _ONE_BLANK_LINE in Hn. lia.
  - revert E. unfold _GetNumNewlines, _IsTopLevel, bind, get_self.
    destruct (last_was_decorator (self h)); [discriminate|].
    destruct (negb _).
    + cbn [ret]. destruct (_prev_stmt (self h)) as [prev|]; [|discriminate].
      destruct (_MethodsInSameClass root prev p); discriminate.
    + destruct (_StartsInZerothColumn root p node h) as [top h1|e1 h1] eqn:E1.
      * destruct top; [discriminate|].
        destruct (_prev_stmt (self h)) as [prev|]; [|discriminate].
        destruct (_MethodsInSameClass root prev p); discriminate.
      * intros [= <- _]. eapply _StartsInZerothColumn_raises; eassumption.
Qed.

Lemma path_eqb_sym (p q : path) : path_eqb p q = path_eqb q p.
Proof.
  revert q; induction p as [|i p IH]; intros [|j q]; simpl; try reflexivity.
  now rewrite Nat.eqb_sym, IH.
Qed.

(** Being methods of one class does not depend on which of the two nodes
    comes first: [_MethodsInSameClass] gives the same answer with its
    arguments swapped. *)
Theorem _MethodsInSameClass_symmetric (root : pytree) (a b : path) :
  _MethodsInSameClass root a b = _MethodsInSameClass root b a.
Proof.
  unfold _MethodsInSameClass. rewrite andb_comm.
  destruct (negb _); [reflexivity|].
  destruct (EnclosingClass root (parent_of (EnclosingFunc root a)));
    destruct (EnclosingClass root (parent_of (EnclosingFunc root b)));
    try reflexivity.
  apply path_eqb_sym.
Qed.

(** It holds only of two nodes whose nearest enclosing blocks are function
    definitions with an enclosing class, the same one. *)
Lemma _MethodsInSameClass_resolves (root : pytree) (a b : path) :
  _MethodsInSameClass root a b = true ->
  exists f g cls,
    EnclosingFunc root a = Some f /\ EnclosingFunc root b = Some g
    /\ is_kind root "funcdef" f = true /\ is_kind root "funcdef" g = true
    /\ EnclosingClass root (parent f) = Some cls
    /\ EnclosingClass root (parent g) = Some cls.
Proof.
  unfold _MethodsInSameClass.
  destruct (EnclosingFunc root a) as [f|]; [|discriminate].
  destruct (EnclosingFunc root b) as [g|];
    [|cbn [IsFuncDef]; rewrite andb_false_r; discriminate].
  cbn [IsFuncDef parent_of].
  destruct (is_kind root "funcdef" f) eqn:Hf; [|discriminate].
  destruct (is_kind root "funcdef" g) eqn:Hg; [|discriminate].
  cbn [andb negb].
  destruct (EnclosingClass root (parent f)) as [c1|] eqn:E1;
    [|discriminate].
  destruct (EnclosingClass root (parent g)) as [c2|] eqn:E2;
    [|discriminate].
  intros Heq. apply path_eqb_eq in Heq. subst c2.
  exists f, g, c1. repeat split; assumption || reflexivity.
Qed.

(** ** The comment-then-definition routine, step by step *)

Lemma comment_tokens_S (p : path) (index n : nat) :
  comment_tokens p index (S n) =
  comment_tokens p (S index) n ++ [(0 :: index :: p)%nat].
Proof. reflexivity. Qed.

Lemma comment_writes_S (s : calculator) (p : path) (index n : nat) :
  comment_writes s p index (S n) =
  comment_writes s p (S index) n
    ++ (if last_was_decorator s then []
        else [((0 :: index :: p)%nat, Some _ONE_BLANK_LINE)]).
Proof.
  unfold comment_writes. destruct (last_was_decorator s); [reflexivity|].
  now rewrite comment_tokens_S, map_app.
Qed.

(** One turn of the loop on a comment statement. *)
Lemma leading_comments_step (p : path) (index : nat) (l cl : Z)
    (more rest : list pytree) (h : heap) :
  leading_comments p index
    (Node "simple_stmt" (Leaf COMMENT l cl :: more) :: rest) h =
  leading_comments p (S index) rest
    (mkHeap (self h)
       ((if last_was_decorator (self h) then []
         else [((0 :: index :: p)%nat, Some _ONE_BLANK_LINE)]) ++ newlines h)
       ((0 :: index :: p)%nat :: visits h)).
Proof.
  cbn [leading_comments]. unfold bind. rewrite IsCommentStatement_comment.
  unfold Visit_Leaf, DefaultLeafVisit, record_visit, get_self, bind, ret.
  cbn [self]. now destruct (last_was_decorator (self h)).
Qed.

(** The loop over [n] leading comments stops at the first child that is
    not a comment statement, having visited each comment token once and,
    unless a decorator came just before, annotated each with one blank
    line; the calculator is as before. *)
Lemma leading_comments_exact (p : path) (stop : pytree)
    (rest : list pytree) (comments : list pytree) :
  Forall is_comment_statement comments ->
  (forall h, IsCommentStatement stop h = Ok false h) ->
  forall index h,
    leading_comments p index (comments ++ stop :: rest) h =
    Ok (index + List.length comments)%nat
      (mkHeap (self h)
         (comment_writes (self h) p index (List.length comments)
            ++ newlines h)
         (comment_tokens p index (List.length comments) ++ visits h)).
Proof.
  intros Hall Hstop.
  induction Hall as [|c comments (l & cl & more & ->) _ IH]; intros index h.
  - cbn [app leading_comments List.length]. unfold bind. rewrite Hstop.
    unfold comment_writes. cbn [comment_tokens seq map rev app ret].
    rewrite Nat.add_0_r. destruct h. now destruct (last_was_decorator _).
  - cbn [app List.length]. rewrite leading_comments_step, IH.
    cbn [self newlines visits].
    rewrite comment_writes_S, comment_tokens_S, <- !app_assoc,
      Nat.add_succ_r.
    reflexivity.
Qed.

(** With nothing but comment statements among the children, the loop runs
    past the last child. *)
Lemma leading_comments_past_the_end (p : path) (comments : list pytree) :
  Forall is_comment_statement comments ->
  forall index h,
    leading_comments p index comments h =
    Raised IndexError
      (mkHeap (self h)
         (comment_writes (self h) p index (List.length comments)
            ++ newlines h)
         (comment_tokens p index (List.length comments) ++ visits h)).
Proof.
  induction 1 as [|c comments (l & cl & more & ->) _ IH]; intros index h.
  - cbn [leading_comments List.length]. unfold comment_writes, raise.
    cbn [comment_tokens seq map rev app].
    destruct h. now destruct (last_was_decorator _).
  - cbn [List.length]. rewrite leading_comments_step, IH.
    cbn [self newlines visits].
    rewrite comment_writes_S, comment_tokens_S, <- !app_assoc.
    reflexivity.
Qed.

(** The generic rule returns on every node whose first leaf is found. *)
Lemma _GetNumNewlines_returns (cfg : style) (root : pytree) (p : path)
    (node : pytree) (q : path) (ty : token) (l c : Z) :
  (forall h, FirstLeafNode p node h = Ok (q, Leaf ty l c) h) ->
  forall h, exists v, _GetNumNewlines cfg root p node h = Ok v h.
Proof.
  intros Hleaf h.
  pose proof (reader_same_heap _ h (reader__GetNumNewlines cfg root p node))
    as Hsame.
  destruct (_GetNumNewlines cfg root p node h) as [n h'|e h'] eqn:E.
  - simpl in Hsame. subst h'. now exists n.
  - exfalso. revert E.
    unfold _GetNumNewlines, _IsTopLevel, bind, get_self.
    destruct (last_was_decorator (self h)); [discriminate|].
    unfold _StartsInZerothColumn, bind.
    assert (Hlow :
      forall h0,
        match _prev_stmt (self h) with
        | Some prev =>
            if _MethodsInSameClass root prev p
            then ret (Z.max _ONE_BLANK_LINE
                        (1 + BLANK_LINES_BETWEEN_CLASS_DEFS cfg))
            else ret _NO_BLANK_LINES
        | None => ret _NO_BLANK_LINES
        end h0 <> Raised e h').
    { intros h0. destruct (_prev_stmt (self h)) as [prev|]; [|discriminate].
      destruct (_MethodsInSameClass root prev p); discriminate. }
    destruct (negb _); [apply Hlow|].
    rewrite Hleaf. cbn [snd column_of ret].
    destruct (c =? 0); [discriminate|].
    unfold _AsyncFunction.
    destruct (prev_sibling p) as [s|]; [|apply Hlow].
    destruct (node_at root s) as [[ty' l' c'|name' cs']|];
      cbn [type_is column_of ret]; try apply Hlow.
    destruct (token_eqb ty' ASYNC); [|apply Hlow].
    destruct (c' =? 0); [discriminate|apply Hlow].
Qed.

Lemma FirstLeafNode_definition (p : path) (name : string)
    (comments : list pytree) (ty : token) (ln col : Z)
    (rest : list pytree) :
  Forall is_comment_statement comments ->
  exists q ty' l' c',
    forall h,
      FirstLeafNode p (Node name (comments ++ Leaf ty ln col :: rest)) h =
      Ok (q, Leaf ty' l' c') h.
Proof.
  intros [|c comments' (l & cl & more & ->) _].
  - exists (0 :: p)%nat, ty, ln, col. reflexivity.
  - exists (0 :: 0 :: p)%nat, COMMENT, l, cl. reflexivity.
Qed.

(** The routine on a definition made of leading comment statements and a
    keyword token, written out: it returns the index of the keyword, having
    visited and annotated the comment tokens as the loop does and annotated
    the keyword, with 1 when a comment is on the line before and with the
    generic rule's count otherwise; the calculator is as before. *)
Lemma comment_then_definition_exact (cfg : style) (root : pytree)
    (p : path) (name : string) (comments : list pytree) (ty : token)
    (ln col : Z) (rest : list pytree) (h : heap) :
  let node := Node name (comments ++ Leaf ty ln col :: rest) in
  let n := List.length comments in
  Forall is_comment_statement comments ->
  exists v,
    (if comment_adjacent (self h) comments ln then v = _NO_BLANK_LINES
     else _GetNumNewlines cfg root p node h = Ok v h)
    /\ forall h',
         self h' = self h ->
         _SetBlankLinesBetweenCommentAndClassFunc cfg root p node h' =
         Ok n (mkHeap (self h')
                 (((n :: p)%nat, Some v)
                    :: comment_writes (self h) p 0 n ++ newlines h')
                 (comment_tokens p 0 n ++ visits h')).
Proof.
  intros node n Hall.
  destruct (FirstLeafNode_definition p name comments ty ln col rest Hall)
    as (q & ty' & l' & c' & Hleaf).
  destruct (_GetNumNewlines_returns cfg root p node q ty' l' c' Hleaf h)
    as (v0 & Hv0).
  exists (if comment_adjacent (self h) comments ln then _NO_BLANK_LINES
          else v0).
  split; [now destruct (comment_adjacent (self h) comments ln)|].
  intros h' Hs.
  unfold _SetBlankLinesBetweenCommentAndClassFunc, bind.
  cbn [node children].
  rewrite (leading_comments_exact p (Leaf ty ln col) rest comments Hall
             (IsCommentStatement_Leaf ty ln col)).
  cbn [Nat.add]. fold n. rewrite Hs.
  set (h1 := mkHeap (self h) (comment_writes (self h) p 0 n ++ newlines h')
               (comment_tokens p 0 n ++ visits h')).
  assert (Hkw : item p node n h1 = Ok ((n :: p)%nat, Leaf ty ln col) h1)
    by (now apply item_middle with (rest := rest)).
  assert (Hgen : _GetNumNewlines cfg root p node h1 = Ok v0 h1).
  { rewrite (reader__GetNumNewlines cfg root p node h1 h eq_refl).
    now rewrite Hv0. }
  assert (Hother :
    match
      match get_self h1 with
      | Ok s h2 =>
          match item p node n h2 with
          | Ok child h3 =>
              match lineno_of (snd child) h3 with
              | Ok l h4 =>
                  match
                    (if last_comment_lineno s + 1 =? l
                     then ret _NO_BLANK_LINES
                     else _GetNumNewlines cfg root p node) h4
                  with
                  | Ok num_newlines h5 =>
                      _SetNumNewlines (fst child) (Some num_newlines) h5
                  | Raised e h5 => Raised e h5
                  end
              | Raised e h4 => Raised e h4
              end
          | Raised e h3 => Raised e h3
          end
      | Raised e h2 => Raised e h2
      end
    with
    | Ok _ h2 => ret n h2
    | Raised e h2 => Raised e h2
    end =
    Ok n (mkHeap (self h)
            (((n :: p)%nat,
              Some (if last_comment_lineno (self h) + 1 =? ln
                    then _NO_BLANK_LINES else v0))
               :: comment_writes (self h) p 0 n ++ newlines h')
            (comment_tokens p 0 n ++ visits h'))).
  { unfold get_self. rewrite Hkw. cbn [snd fst lineno_of ret self h1].
    destruct (last_comment_lineno (self h) + 1 =? ln).
    - reflexivity.
    - fold h1. now rewrite Hgen. }
  unfold comment_adjacent, last_comment_line.
  destruct (rev comments) as [|x r] eqn:Hrev.
  - apply (f_equal (@rev pytree)) in Hrev. rewrite rev_involutive in Hrev.
    assert (Hn : n = 0%nat) by (subst n; now rewrite Hrev).
    rewrite Hn in *. cbn [Nat.ltb Nat.leb orb]. exact Hother.
  - apply (f_equal (@rev pytree)) in Hrev. rewrite rev_involutive in Hrev.
    cbn [rev] in Hrev.
    assert (Hx : is_comment_statement x).
    { rewrite Forall_forall in Hall. apply Hall. rewrite Hrev.
      apply in_or_app; right; now left. }
    destruct Hx as (lc & cl & more & ->).
    assert (Hpos : (0 <? n)%nat = true).
    { subst n. rewrite Hrev, length_app. apply Nat.ltb_lt. simpl. lia. }
    rewrite Hpos, Hkw. cbn [snd fst lineno_of ret].
    assert (Hprev :
      item p node (n - 1) h1 =
      Ok ((n - 1 :: p)%nat,
          Node "simple_stmt" (Leaf COMMENT lc cl :: more)) h1).
    { replace (n - 1)%nat with (List.length (rev r))
        by (subst n; rewrite Hrev, length_app; simpl; lia).
      apply item_middle with (rest := Leaf ty ln col :: rest).
      cbn [node children]. rewrite Hrev, <- app_assoc. reflexivity. }
    rewrite Hprev. cbn [snd fst item children nth_error ret lineno_of].
    destruct (ln - 1 =? lc); [reflexivity|]. cbn [orb]. exact Hother.
Qed.

Lemma GetNodeAnnotation_constant (W X : list (path * option Z))
    (a : path) (v : option Z) :
  Forall (fun w => snd w = v) W ->
  In a (map fst W) ->
  GetNodeAnnotation (W ++ X) a = v.
Proof.
  induction 1 as [|[q x] W Hx _ IH]; simpl; [contradiction|].
  simpl in Hx. subst x.
  destruct (path_eqb q a) eqn:E; [reflexivity|].
  intros [->|Hin]; [now rewrite path_eqb_refl in E|now apply IH].
Qed.

Lemma comment_tokens_In (p : path) (n i : nat) :
  (i < n)%nat -> In (0 :: i :: p)%nat (comment_tokens p 0 n).
Proof.
  intros Hi. unfold comment_tokens. apply in_rev. rewrite rev_involutive.
  apply in_map_iff. exists i. split; [reflexivity|].
  apply in_seq. lia.
Qed.

Lemma comment_tokens_NoDup (p : path) (index n : nat) :
  NoDup (comment_tokens p index n).
Proof.
  unfold comment_tokens. apply NoDup_rev. revert index.
  induction n as [|n IH]; intros index; simpl; constructor; [|apply IH].
  intros Hin. apply in_map_iff in Hin as (j & [= ->] & Hj).
  apply in_seq in Hj. lia.
Qed.

(** On a class or function definition made of leading comment statements
    and a keyword token, the comment-then-definition routine never raises:
    it returns the index of the keyword, the number of leading comments, and
    annotates the keyword; it leaves the calculator as it was, so the
    comments it passes do not count as the last comment seen; and it visits
    the comment token of each leading comment, each once. *)
Theorem routine_on_definition (cfg : style) (root : pytree) (p : path)
    (name : string) (comments : list pytree) (ty : token) (ln col : Z)
    (rest : list pytree) (h : heap) :
  let node := Node name (comments ++ Leaf ty ln col :: rest) in
  let n := List.length comments in
  Forall is_comment_statement comments ->
  exists v h',
    _SetBlankLinesBetweenCommentAndClassFunc cfg root p node h = Ok n h'
    /\ self h' = self h
    /\ GetNodeAnnotation (newlines h') (n :: p)%nat = Some v
    /\ (exists visited,
          visits h' = visited ++ visits h
          /\ NoDup visited
          /\ forall a,
               In a visited <->
               exists i, (i < n)%nat /\ a = (0 :: i :: p)%nat).
Proof.
  intros node n Hall.
  destruct (comment_then_definition_exact cfg root p name comments ty ln col
              rest h Hall) as (v & _ & Hrun).
  specialize (Hrun h eq_refl). fold node n in Hrun.
  eexists v, _. split; [exact Hrun|]. cbn [self newlines visits].
  split; [reflexivity|]. split; [apply GetNodeAnnotation_head|].
  exists (comment_tokens p 0 n). split; [reflexivity|].
  split; [apply comment_tokens_NoDup|].
  intros a. unfold comment_tokens. rewrite <- in_rev, in_map_iff.
  split.
  - intros (i & <- & Hi). apply in_seq in Hi. exists i. split; [lia|easy].
  - intros (i & Hi & ->). exists i. split; [reflexivity|].
    apply in_seq. lia.
Qed.

Lemma routine_on_definition_witness :
  exists v h',
    _SetBlankLinesBetweenCommentAndClassFunc (mkStyle 2 1) commented_def
      [1]%nat
      (Node "funcdef"
         ([Node "simple_stmt" [Leaf COMMENT 3 0]]
            ++ Leaf NAME 4 0 :: tl (def_children 4 0)))
      (mkHeap __init__ [] []) = Ok 1%nat h'
    /\ self h' = __init__
    /\ GetNodeAnnotation (newlines h') [1; 1]%nat = Some v
    /\ (exists visited,
          visits h' = visited ++ []
          /\ NoDup visited
          /\ forall a,
               In a visited <->
               exists i, (i < 1)%nat /\ a = [0; i; 1]%nat).
Proof.
  apply (routine_on_definition (mkStyle 2 1) commented_def [1]%nat "funcdef"
           [Node "simple_stmt" [Leaf COMMENT 3 0]] NAME 4 0
           (tl (def_children 4 0)) (mkHeap __init__ [] [])).
  constructor; [|constructor]. exists 3, 0, []. reflexivity.
Defined.

(** Each leading comment of a definition is annotated with 2, one blank
    line, by the routine, unless a decorator came just before the
    definition: then the routine leaves the annotations of the comments as
    they were. *)
Theorem leading_comments_one_blank_line (cfg : style) (root : pytree)
    (p : path) (name : string) (comments : list pytree) (ty : token)
    (ln col : Z) (rest : list pytree) (h : heap) (i : nat) :
  let node := Node name (comments ++ Leaf ty ln col :: rest) in
  Forall is_comment_statement comments ->
  (i < List.length comments)%nat ->
  GetNodeAnnotation
    (newlines (heap_of (_SetBlankLinesBetweenCommentAndClassFunc cfg root p
                          node h)))
    (0 :: i :: p)%nat =
  if last_was_decorator (self h)
  then GetNodeAnnotation (newlines h) (0 :: i :: p)%nat
  else Some _ONE_BLANK_LINE.
Proof.
  intros node Hall Hi.
  destruct (comment_then_definition_exact cfg root p name comments ty ln col
              rest h Hall) as (v & _ & Hrun).
  subst node. rewrite (Hrun h eq_refl). cbn [heap_of newlines].
  rewrite GetNodeAnnotation_other
    by (intros E; apply (f_equal (@List.length nat)) in E; simpl in E; lia).
  unfold comment_writes. destruct (last_was_decorator (self h));
    [reflexivity|].
  apply GetNodeAnnotation_constant.
  - apply Forall_forall. intros w Hw. apply in_map_iff in Hw.
    now destruct Hw as (a & <- & _).
  - rewrite map_map. cbn [fst]. rewrite map_id.
    now apply comment_tokens_In.
Qed.

Lemma leading_comments_one_blank_line_witness :
  GetNodeAnnotation
    (newlines
       (heap_of
          (_SetBlankLinesBetweenCommentAndClassFunc (mkStyle 2 1)
             commented_def [1]%nat
             (Node "funcdef"
                ([Node "simple_stmt" [Leaf COMMENT 3 0]]
                   ++ Leaf NAME 4 0 :: tl (def_children 4 0)))
             (mkHeap __init__ [] []))))
    [0; 0; 1]%nat =
  if last_was_decorator __init__
  then GetNodeAnnotation [] [0; 0; 1]%nat
  else Some _ONE_BLANK_LINE.
Proof.
  apply (leading_comments_one_blank_line (mkStyle 2 1) commented_def
           [1]%nat "funcdef" [Node "simple_stmt" [Leaf COMMENT 3 0]] NAME 4
           0 (tl (def_children 4 0)) (mkHeap __init__ [] []) 0%nat).
  - constructor; [|constructor]. exists 3, 0, []. reflexivity.
  - simpl. lia.
Defined.

(** Running the routine a second time right after the first, as
    [Visit_funcdef] does on a function that is not [async], returns the same
    index and leaves the calculator and the annotation of every node as the
    first run left them. *)
Theorem routine_twice (cfg : style) (root : pytree) (p : path)
    (name : string) (comments : list pytree) (ty : token) (ln col : Z)
    (rest : list pytree) (h : heap) :
  let node := Node name (comments ++ Leaf ty ln col :: rest) in
  Forall is_comment_statement comments ->
  exists index h1 h2,
    _SetBlankLinesBetweenCommentAndClassFunc cfg root p node h = Ok index h1
    /\ _SetBlankLinesBetweenCommentAndClassFunc cfg root p node h1 =
       Ok index h2
    /\ self h2 = self h1
    /\ forall a,
         GetNodeAnnotation (newlines h2) a =
         GetNodeAnnotation (newlines h1) a.
Proof.
  intros node Hall.
  destruct (comment_then_definition_exact cfg root p name comments ty ln col
              rest h Hall) as (v & _ & Hrun).
  fold node in Hrun.
  eexists _, _, _. split; [exact (Hrun h eq_refl)|].
  split; [apply Hrun; reflexivity|]. cbn [self newlines].
  split; [reflexivity|]. intros a.
  set (W := ((List.length comments :: p)%nat, Some v)
              :: comment_writes (self h) p 0 (List.length comments)).
  change (GetNodeAnnotation (W ++ W ++ newlines h) a =
          GetNodeAnnotation (W ++ newlines h) a).
  rewrite !GetNodeAnnotation_app. now destruct (written W a).
Qed.

Lemma routine_twice_witness :
  exists index h1 h2,
    _SetBlankLinesBetweenCommentAndClassFunc (mkStyle 2 1) commented_def
      [1]%nat
      (Node "funcdef"
         ([Node "simple_stmt" [Leaf COMMENT 3 0]]
            ++ Leaf NAME 4 0 :: tl (def_children 4 0)))
      (mkHeap __init__ [] []) = Ok index h1
    /\ _SetBlankLinesBetweenCommentAndClassFunc (mkStyle 2 1) commented_def
         [1]%nat
         (Node "funcdef"
            ([Node "simple_stmt" [Leaf COMMENT 3 0]]
               ++ Leaf NAME 4 0 :: tl (def_children 4 0)))
         h1 = Ok index h2
    /\ self h2 = self h1
    /\ forall a,
         GetNodeAnnotation (newlines h2) a =
         GetNodeAnnotation (newlines h1) a.
Proof.
  apply (routine_twice (mkStyle 2 1) commented_def [1]%nat "funcdef"
           [Node "simple_stmt" [Leaf COMMENT 3 0]] NAME 4 0
           (tl (def_children 4 0)) (mkHeap __init__ [] [])).
  constructor; [|constructor]. exists 3, 0, []. reflexivity.
Defined.

Lemma post_bind_any {A B} (m : M A) (f : A -> M B) (h : heap)
    (Q : B -> heap -> Prop) :
  (forall a h1, post (f a) h1 Q) -> post (bind m f) h Q.
Proof.
  intros Hf. unfold post, bind. destruct (m h) as [a h1|e h1]; [|exact I].
  apply Hf.
Qed.

Lemma post_bind {A B} (m : M A) (f : A -> M B) (h : heap)
    (Q1 : A -> heap -> Prop) (Q : B -> heap -> Prop) :
  post m h Q1 -> (forall a h1, Q1 a h1 -> post (f a) h1 Q) ->
  post (bind m f) h Q.
Proof.
  intros Hm Hf. unfold post, bind in *.
  destruct (m h) as [a h1|e h1]; [|exact I]. now apply Hf.
Qed.

Lemma post_update (f : calculator -> calculator) (h : heap)
    (Q : unit -> heap -> Prop) :
  Q tt (mkHeap (f (self h)) (newlines h) (visits h)) -> post (update f) h Q.
Proof. intros HQ; exact HQ. Qed.

Lemma post_Ok {A} (m : M A) (h : heap) (Q : A -> heap -> Prop) (a : A)
    (h' : heap) :
  post m h Q -> m h = Ok a h' -> Q a h'.
Proof. unfold post. intros HQ E. now rewrite E in HQ. Qed.

(** A decorator that has been visited is remembered. *)
Lemma Visit_decorator_sets_flag (cfg : style) (root : pytree)
    (DecoratedTarget : path -> list string -> option path)
    (visit : path -> pytree -> M unit) (p : path) (node : pytree)
    (h : heap) :
  post (Visit_decorator cfg root DecoratedTarget visit p node) h
    (fun _ h' => last_was_decorator (self h') = true).
Proof.
  unfold Visit_decorator.
  do 4 (apply post_bind_any; intros ? ?).
  apply post_update. reflexivity.
Qed.

(** The routine right after a decorator, written out. *)
Lemma routine_after_decorator (cfg : style) (root : pytree) (p : path)
    (name : string) (comments : list pytree) (ty : token) (ln col : Z)
    (rest : list pytree) (h : heap) :
  Forall is_comment_statement comments ->
  last_was_decorator (self h) = true ->
  _SetBlankLinesBetweenCommentAndClassFunc cfg root p
    (Node name (comments ++ Leaf ty ln col :: rest)) h =
  Ok (List.length comments)
    (mkHeap (self h)
       (((List.length comments :: p)%nat, Some _NO_BLANK_LINES)
          :: newlines h)
       (comment_tokens p 0 (List.length comments) ++ visits h)).
Proof.
  intros Hall Hdec.
  destruct (comment_then_definition_exact cfg root p name comments ty ln col
              rest h Hall) as (v & Hv & Hrun).
  assert (Hone : v = _NO_BLANK_LINES).
  { destruct (comment_adjacent (self h) comments ln); [exact Hv|].
    revert Hv. unfold _GetNumNewlines, bind, get_self. rewrite Hdec.
    now intros [= <-]. }
  rewrite (Hrun h eq_refl). unfold comment_writes. rewrite Hdec, Hone.
  reflexivity.
Qed.

(** Right after a decorator, the routine annotates the keyword of the
    definition with 1, no blank line, whatever the nesting, the lines and
    the configuration, and writes no other annotation: the leading comments
    of the definition get none. *)
Theorem definition_after_decorator (cfg : style) (root : pytree) (p : path)
    (name : string) (comments : list pytree) (ty : token) (ln col : Z)
    (rest : list pytree) (h : heap) :
  let node := Node name (comments ++ Leaf ty ln col :: rest) in
  let n := List.length comments in
  Forall is_comment_statement comments ->
  last_was_decorator (self h) = true ->
  exists h',
    _SetBlankLinesBetweenCommentAndClassFunc cfg root p node h = Ok n h'
    /\ newlines h' = ((n :: p)%nat, Some _NO_BLANK_LINES) :: newlines h.
Proof.
  intros node n Hall Hdec. subst node n.
  eexists. split.
  - apply routine_after_decorator; assumption.
  - reflexivity.
Qed.

Lemma definition_after_decorator_witness :
  exists h',
    _SetBlankLinesBetweenCommentAndClassFunc (mkStyle 2 1) decorated_method
      [2; 3; 3; 0]%nat
      (Node "funcdef" ([] ++ Leaf NAME 5 2 :: tl (def_children 5 2)))
      (mkHeap (mkCalc 1 0 3 true false (Some [2; 3; 0]%nat)) [] [])
    = Ok 0%nat h'
    /\ newlines h' = [([0; 2; 3; 3; 0]%nat, Some _NO_BLANK_LINES)].
Proof.
  apply (definition_after_decorator (mkStyle 2 1) decorated_method
           [2; 3; 3; 0]%nat "funcdef" [] NAME 5 2 (tl (def_children 5 2))
           (mkHeap (mkCalc 1 0 3 true false (Some [2; 3; 0]%nat)) [] [])).
  - constructor.
  - reflexivity.
Defined.

(** A decorator and the definition after it: visiting the decorator, a
    token followed by expressions, and then running the routine on the
    definition returns, and writes two annotations in all, one on the
    decorator's first token and 1 on the keyword of the definition. *)
Theorem decorator_then_definition (cfg : style) (root : pytree)
    (DecoratedTarget : path -> list string -> option path) (pd : path)
    (tyd : token) (ld cd : Z) (rest_d : list pytree) (p : path)
    (name : string) (comments : list pytree) (ty : token) (ln col : Z)
    (rest : list pytree) (h : heap) :
  let decorator := Node "decorator" (Leaf tyd ld cd :: rest_d) in
  let node := Node name (comments ++ Leaf ty ln col :: rest) in
  let n := List.length comments in
  forallb expression rest_d = true ->
  Forall is_comment_statement comments ->
  exists v h',
    bind (Visit_decorator cfg root DecoratedTarget
            (Visit cfg root DecoratedTarget) pd decorator)
      (fun _ => _SetBlankLinesBetweenCommentAndClassFunc cfg root p node) h
    = Ok n h'
    /\ newlines h' =
       ((n :: p)%nat, Some _NO_BLANK_LINES)
         :: ((0 :: pd)%nat, Some v) :: newlines h.
Proof.
  intros decorator node n Hexpr Hall.
  destruct (Visit_decorator_run cfg root DecoratedTarget pd "decorator" tyd
              ld cd rest_d h Hexpr) as (v & h1 & E1 & N1 & _).
  fold decorator in E1.
  pose proof (post_Ok _ _ _ _ _
                (Visit_decorator_sets_flag cfg root DecoratedTarget
                   (Visit cfg root DecoratedTarget) pd decorator h) E1)
    as Hflag.
  pose proof (routine_after_decorator cfg root p name comments ty ln col
                rest h1 Hall Hflag) as E2.
  eexists v, _. unfold bind. rewrite E1. split; [exact E2|].
  cbn [newlines]. now rewrite N1.
Qed.

Lemma decorator_then_definition_witness :
  exists v h',
    bind (Visit_decorator (mkStyle 2 1) decorated_method
            (last_child_target decorated_method)
            (Visit (mkStyle 2 1) decorated_method
               (last_child_target decorated_method))
            [1; 3; 3; 0]%nat
            (Node "decorator" [Leaf OP 4 2; Leaf NAME 4 3; Leaf NEWLINE 4 9]))
      (fun _ =>
         _SetBlankLinesBetweenCommentAndClassFunc (mkStyle 2 1)
           decorated_method [2; 3; 3; 0]%nat
           (Node "funcdef" ([] ++ Leaf NAME 5 2 :: tl (def_children 5 2))))
      before_decorator
    = Ok 0%nat h'
    /\ newlines h' =
       [ ([0; 2; 3; 3; 0]%nat, Some _NO_BLANK_LINES);
         ([0; 1; 3; 3; 0]%nat, Some v) ].
Proof.
  apply (decorator_then_definition (mkStyle 2 1) decorated_method
           (last_child_target decorated_method) [1; 3; 3; 0]%nat OP 4 2
           [Leaf NAME 4 3; Leaf NEWLINE 4 9] [2; 3; 3; 0]%nat "funcdef" []
           NAME 5 2 (tl (def_children 5 2)) before_decorator).
  - reflexivity.
  - constructor.
Defined.

(** A definition without children, or whose children are all comment
    statements, makes the routine raise [IndexError]: its loop runs past the
    last child.  The calculator is as before. *)
Theorem routine_without_keyword (cfg : style) (root : pytree) (p : path)
    (name : string) (comments : list pytree) (h : heap) :
  Forall is_comment_statement comments ->
  exists h',
    _SetBlankLinesBetweenCommentAndClassFunc cfg root p (Node name comments) h
    = Raised IndexError h'
    /\ self h' = self h.
Proof.
  intros Hall. unfold _SetBlankLinesBetweenCommentAndClassFunc, bind.
  cbn [children]. rewrite (leading_comments_past_the_end p comments Hall).
  eexists. split; reflexivity.
Qed.

Lemma routine_without_keyword_witness :
  exists h',
    _SetBlankLinesBetweenCommentAndClassFunc (mkStyle 2 1)
      (Node "classdef" []) [] (Node "classdef" []) (mkHeap __init__ [] [])
    = Raised IndexError h'
    /\ self h' = __init__.
Proof.
  apply (routine_without_keyword (mkStyle 2 1) (Node "classdef" []) []
           "classdef" [] (mkHeap __init__ [] [])).
  constructor.
Defined.

(** When the first child past the leading comments is not a token but a
    node, of another kind than [simple_stmt], the routine raises
    [AttributeError] on reading its line number, before it annotates that
    child: the only annotations written are those of the comments. *)
Theorem routine_keyword_not_a_token (cfg : style) (root : pytree)
    (p : path) (name : string) (comments : list pytree) (kind : string)
    (cs rest : list pytree) (h : heap) :
  let node := Node name (comments ++ Node kind cs :: rest) in
  let n := List.length comments in
  Forall is_comment_statement comments ->
  kind <> "simple_stmt" ->
  exists h',
    _SetBlankLinesBetweenCommentAndClassFunc cfg root p node h
    = Raised AttributeError h'
    /\ self h' = self h
    /\ newlines h' = comment_writes (self h) p 0 n ++ newlines h.
Proof.
  intros node n Hall Hkind.
  assert (Hstop : forall h0, IsCommentStatement (Node kind cs) h0 = Ok false h0).
  { intros h0. unfold IsCommentStatement. cbn [NodeName].
    now rewrite (proj2 (String.eqb_neq kind "simple_stmt") Hkind). }
  unfold _SetBlankLinesBetweenCommentAndClassFunc, bind.
  cbn [node children].
  rewrite (leading_comments_exact p (Node kind cs) rest comments Hall Hstop).
  cbn [Nat.add]. fold n.
  set (h1 := mkHeap (self h) (comment_writes (self h) p 0 n ++ newlines h)
               (comment_tokens p 0 n ++ visits h)).
  assert (Hkw : item p node n h1 = Ok ((n :: p)%nat, Node kind cs) h1)
    by (now apply item_middle with (rest := rest)).
  exists h1. split; [|split; reflexivity].
  destruct (0 <? n)%nat.
  - now rewrite Hkw.
  - unfold get_self. now rewrite Hkw.
Qed.

Lemma routine_keyword_not_a_token_witness :
  exists h',
    _SetBlankLinesBetweenCommentAndClassFunc (mkStyle 2 1)
      (Node "classdef" [Node "suite" []]) []
      (Node "classdef" ([] ++ Node "suite" [] :: []))
      (mkHeap __init__ [] [])
    = Raised AttributeError h'
    /\ self h' = __init__
    /\ newlines h' = comment_writes __init__ [] 0 0 ++ [].
Proof.
  apply (routine_keyword_not_a_token (mkStyle 2 1)
           (Node "classdef" [Node "suite" []]) [] "classdef" [] "suite" []
           [] (mkHeap __init__ [] [])).
  - constructor.
  - discriminate.
Defined.

(** ** Subtrees the calculator has no method for *)

Lemma with_last_was_class_or_function_false (s : calculator) :
  last_was_class_or_function s = false ->
  with_last_was_class_or_function false s = s.
Proof. destruct s; simpl; now intros ->. Qed.

Lemma plain_kind (name : string) (kind : string) :
  existsb (String.eqb name)
    ["simple_stmt"; "decorator"; "classdef"; "funcdef"] = false ->
  In kind ["simple_stmt"; "decorator"; "classdef"; "funcdef"] ->
  (name =? kind)%string = false.
Proof. intros H Hin. exact (existsb_false_In _ _ kind H Hin). Qed.

Lemma visit_each_plain (cfg : style) (root : pytree)
    (DecoratedTarget : path -> list string -> option path) (p : path)
    (cs : list pytree) :
  Forall (fun c =>
            forall q h,
              last_was_class_or_function (self h) = false ->
              exists V,
                Visit cfg root DecoratedTarget q c h =
                Ok tt (mkHeap (self h) (newlines h) (V ++ visits h))) cs ->
  forall i h,
    last_was_class_or_function (self h) = false ->
    exists V,
      visit_each (Visit cfg root DecoratedTarget) p 0 i cs h =
      Ok tt (mkHeap (self h) (newlines h) (V ++ visits h)).
Proof.
  induction 1 as [|c cs Hc _ IH]; intros i h Hflag.
  - exists []. now destruct h.
  - cbn [visit_each Nat.leb]. unfold bind.
    destruct (Hc (i :: p)%nat h Hflag) as (V1 & E1). rewrite E1.
    destruct (IH (S i) (mkHeap (self h) (newlines h) (V1 ++ visits h)) Hflag)
      as (V2 & E2).
    rewrite E2. exists (V2 ++ V1). cbn [self newlines visits].
    now rewrite app_assoc.
Qed.

(** The visit of a plain subtree, written out. *)
Lemma Visit_plain (cfg : style) (root : pytree)
    (DecoratedTarget : path -> list string -> option path) (t : pytree) :
  plain t = true ->
  forall p h,
    last_was_class_or_function (self h) = false ->
    exists visited,
      Visit cfg root DecoratedTarget p t h =
      Ok tt (mkHeap (self h) (newlines h) (visited ++ visits h)).
Proof.
  induction t as [ty l c|name cs IH] using pytree_ind; intros Hplain p h Hflag.
  - exists [p]. reflexivity.
  - cbn [plain] in Hplain. apply andb_true_iff in Hplain as [Hname Hcs].
    apply negb_true_iff in Hname.
    cbn [Visit].
    rewrite (plain_kind name "simple_stmt"), (plain_kind name "decorator"),
      (plain_kind name "classdef"), (plain_kind name "funcdef")
      by (assumption || (simpl; tauto)).
    unfold DefaultNodeVisit, bind, record_visit, get_self, update.
    cbn [self newlines visits children]. rewrite Hflag.
    cbn [ret self newlines visits].
    rewrite (with_last_was_class_or_function_false _ Hflag).
    assert (Hkids :
      Forall (fun c =>
                forall q h0,
                  last_was_class_or_function (self h0) = false ->
                  exists V,
                    Visit cfg root DecoratedTarget q c h0 =
                    Ok tt (mkHeap (self h0) (newlines h0) (V ++ visits h0)))
        cs).
    { rewrite Forall_forall in IH |- *. intros c Hin q h0 Hf.
      apply IH; [exact Hin| |exact Hf].
      rewrite forallb_forall in Hcs. now apply Hcs. }
    destruct (visit_each_plain cfg root DecoratedTarget p cs Hkids 0%nat
                (mkHeap (self h) (newlines h) (p :: visits h)) Hflag)
      as (V & E).
    rewrite E. exists (V ++ [p]). cbn [self newlines visits].
    now rewrite <- app_assoc.
Qed.

(** Unless a definition has just been left, the visit of a subtree without
    simple statements, decorators and definitions returns and changes
    neither the calculator nor an annotation: it only records the nodes it
    visits. *)
Theorem plain_subtree_untouched (cfg : style) (root : pytree)
    (DecoratedTarget : path -> list string -> option path) (t : pytree)
    (p : path) (h : heap) :
  plain t = true ->
  last_was_class_or_function (self h) = false ->
  exists h',
    Visit cfg root DecoratedTarget p t h = Ok tt h'
    /\ self h' = self h
    /\ newlines h' = newlines h.
Proof.
  intros Hplain Hflag.
  destruct (Visit_plain cfg root DecoratedTarget t Hplain p h Hflag)
    as (V & E).
  eexists. split; [exact E|]. split; reflexivity.
Qed.

Lemma plain_subtree_untouched_witness :
  exists h',
    Visit (mkStyle 2 1) decorated_method (last_child_target decorated_method)
      [0; 2; 3; 0]%nat
      (Node "expr_stmt" [Leaf NAME 2 2; Leaf OP 2 4; Leaf NUMBER 2 6])
      (mkHeap __init__ [] []) = Ok tt h'
    /\ self h' = __init__
    /\ newlines h' = [].
Proof.
  apply (plain_subtree_untouched (mkStyle 2 1) decorated_method
           (last_child_target decorated_method)
           (Node "expr_stmt" [Leaf NAME 2 2; Leaf OP 2 4; Leaf NUMBER 2 6])
           [0; 2; 3; 0]%nat (mkHeap __init__ [] []));
    reflexivity.
Defined.

(** The visit of a simple statement over plain children, written out. *)
Lemma Visit_simple_stmt_run (cfg : style) (root : pytree)
    (DecoratedTarget : path -> list string -> option path) (p : path)
    (first : pytree) (more : list pytree) (q : path) (ty : token) (l c : Z)
    (h : heap) :
  let node := Node "simple_stmt" (first :: more) in
  forallb plain (first :: more) = true ->
  (forall h0, FirstLeafNode p node h0 = Ok (q, Leaf ty l c) h0) ->
  exists v visited,
    _GetNumNewlines cfg root q (Leaf ty l c) h = Ok v h
    /\ Visit_simple_stmt cfg root (Visit cfg root DecoratedTarget) p node h =
       Ok tt
         (mkHeap
            (record_simple_stmt p first
               (with_last_was_class_or_function false (self h)))
            ((if last_was_class_or_function (self h)
              then [(q, Some v)] else []) ++ newlines h)
            (visited ++ visits h)).
Proof.
  intros node Hplain Hleaf.
  assert (Hself : forall h0, FirstLeafNode q (Leaf ty l c) h0 =
                             Ok (q, Leaf ty l c) h0) by reflexivity.
  destruct (_GetNumNewlines_returns cfg root q (Leaf ty l c) q ty l c Hself h)
    as (v & Hv).
  assert (Hkids :
    forall h0,
      last_was_class_or_function (self h0) = false ->
      exists V,
        visit_each (Visit cfg root DecoratedTarget) p 0 0 (first :: more) h0 =
        Ok tt (mkHeap (self h0) (newlines h0) (V ++ visits h0))).
  { intros h0 Hf. apply visit_each_plain; [|exact Hf].
    apply Forall_forall. intros t Hin q0 h1 Hf1.
    apply Visit_plain; [|exact Hf1].
    rewrite forallb_forall in Hplain. now apply Hplain. }
  assert (Hrecord :
    forall h0,
      bind (item p node 0)
        (fun first0 =>
           if type_is (snd first0) COMMENT
           then bind (lineno_of (snd first0))
                  (fun l0 => update (with_last_comment_lineno l0))
           else update (with_prev_stmt (Some p))) h0 =
      Ok tt (mkHeap (record_simple_stmt p first (self h0)) (newlines h0)
               (visits h0))).
  { intros h0. unfold bind. cbn [item node children nth_error ret snd].
    destruct first as [[] l0 c0|name0 cs0]; reflexivity. }
  assert (Hdefault :
    exists V,
      DefaultNodeVisit cfg root (Visit cfg root DecoratedTarget) p node h =
      Ok tt
        (mkHeap (with_last_was_class_or_function false (self h))
           ((if last_was_class_or_function (self h)
             then [(q, Some v)] else []) ++ newlines h)
           (V ++ visits h))).
  { unfold DefaultNodeVisit, bind, get_self, update.
    destruct (last_was_class_or_function (self h)) eqn:Hflag.
    - change (existsb (String.eqb (NodeName node)) _PYTHON_STATEMENTS)
        with true.
      cbv beta iota. rewrite Hleaf. cbn [fst snd]. rewrite Hv.
      cbn [_SetNumNewlines SetNodeAnnotation self newlines visits app].
      change (children node) with (first :: more).
      destruct (Hkids
                  (mkHeap (with_last_was_class_or_function false (self h))
                     ((q, Some v) :: newlines h) (visits h)) eq_refl)
        as (V & E).
      exists V. exact E.
    - cbn [ret self newlines visits app].
      change (children node) with (first :: more).
      destruct (Hkids
                  (mkHeap (with_last_was_class_or_function false (self h))
                     (newlines h) (visits h)) eq_refl) as (V & E).
      exists V. exact E. }
  destruct Hdefault as (V & HD).
  exists v, V. split; [exact Hv|].
  unfold Visit_simple_stmt. unfold bind at 1. rewrite HD.
  now rewrite Hrecord.
Qed.

(** The visit of a standalone comment over plain children remembers the
    comment's line as the last comment line and does not touch the
    remembered previous statement, the nesting depths or the decorator
    flag. *)
Theorem comment_line_remembered (cfg : style) (root : pytree)
    (DecoratedTarget : path -> list string -> option path) (p : path)
    (l c : Z) (more : list pytree) (h : heap) :
  let node := Node "simple_stmt" (Leaf COMMENT l c :: more) in
  forallb plain more = true ->
  exists h',
    Visit_simple_stmt cfg root (Visit cfg root DecoratedTarget) p node h =
      Ok tt h'
    /\ last_comment_lineno (self h') = l
    /\ _prev_stmt (self h') = _prev_stmt (self h)
    /\ levels (self h') = levels (self h)
    /\ last_was_decorator (self h') = last_was_decorator (self h).
Proof.
  intros node Hplain.
  destruct (Visit_simple_stmt_run cfg root DecoratedTarget p (Leaf COMMENT l c)
              more (0 :: p)%nat COMMENT l c h Hplain (fun _ => eq_refl))
    as (v & V & _ & E).
  eexists. split; [exact E|]. cbn. repeat split; reflexivity.
Qed.

Lemma comment_line_remembered_witness :
  exists h',
    Visit_simple_stmt (mkStyle 2 1) decorated_method
      (Visit (mkStyle 2 1) decorated_method
         (last_child_target decorated_method))
      [0; 3; 3; 0]%nat (Node "simple_stmt" [Leaf COMMENT 3 2])
      (mkHeap (mkCalc 1 0 0 false false (Some [2; 3; 0]%nat)) [] []) =
      Ok tt h'
    /\ last_comment_lineno (self h') = 3
    /\ _prev_stmt (self h') = Some [2; 3; 0]%nat
    /\ levels (self h') = (1, 0)
    /\ last_was_decorator (self h') = false.
Proof.
  apply (comment_line_remembered (mkStyle 2 1) decorated_method
           (last_child_target decorated_method) [0; 3; 3; 0]%nat 3 2 []
           (mkHeap (mkCalc 1 0 0 false false (Some [2; 3; 0]%nat)) [] [])).
  reflexivity.
Defined.

(** The visit of a simple statement that does not start with a comment
    token, over plain children, remembers the statement as the previous
    statement and keeps the last comment line, the nesting depths and the
    decorator flag. *)
Theorem statement_remembered (cfg : style) (root : pytree)
    (DecoratedTarget : path -> list string -> option path) (p : path)
    (first : pytree) (more : list pytree) (q : path) (ty : token) (l c : Z)
    (h : heap) :
  let node := Node "simple_stmt" (first :: more) in
  forallb plain (first :: more) = true ->
  (forall h0, FirstLeafNode p node h0 = Ok (q, Leaf ty l c) h0) ->
  type_is first COMMENT = false ->
  exists h',
    Visit_simple_stmt cfg root (Visit cfg root DecoratedTarget) p node h =
      Ok tt h'
    /\ _prev_stmt (self h') = Some p
    /\ last_comment_lineno (self h') = last_comment_lineno (self h)
    /\ levels (self h') = levels (self h)
    /\ last_was_decorator (self h') = last_was_decorator (self h).
Proof.
  intros node Hplain Hleaf Hfirst.
  destruct (Visit_simple_stmt_run cfg root DecoratedTarget p first more q ty
              l c h Hplain Hleaf) as (v & V & _ & E).
  eexists. split; [exact E|]. cbn [self].
  destruct first as [[] l0 c0|name0 cs0]; try discriminate;
    cbn; repeat split; reflexivity.
Qed.

Lemma statement_remembered_witness :
  exists h',
    Visit_simple_stmt (mkStyle 2 1) async_def
      (Visit (mkStyle 2 1) async_def (last_child_target async_def))
      [0]%nat (Node "simple_stmt" [Leaf NAME 1 0; Leaf NEWLINE 1 5])
      (mkHeap __init__ [] []) = Ok tt h'
    /\ _prev_stmt (self h') = Some [0]%nat
    /\ last_comment_lineno (self h') = 0
    /\ levels (self h') = (0, 0)
    /\ last_was_decorator (self h') = false.
Proof.
  apply (statement_remembered (mkStyle 2 1) async_def
           (last_child_target async_def) [0]%nat (Leaf NAME 1 0)
           [Leaf NEWLINE 1 5] [0; 0]%nat NAME 1 0 (mkHeap __init__ [] []));
    reflexivity.
Defined.

(** A simple statement over plain children is annotated only when it comes
    right after a class or function definition: then its first token gets
    the count of the generic rule, and nothing else is written; otherwise
    the visit writes no annotation.  Either way the definition flag is
    cleared, so the statement after it is not annotated. *)
Theorem statement_after_definition (cfg : style) (root : pytree)
    (DecoratedTarget : path -> list string -> option path) (p : path)
    (first : pytree) (more : list pytree) (q : path) (ty : token) (l c : Z)
    (h : heap) :
  let node := Node "simple_stmt" (first :: more) in
  forallb plain (first :: more) = true ->
  (forall h0, FirstLeafNode p node h0 = Ok (q, Leaf ty l c) h0) ->
  exists v h',
    _GetNumNewlines cfg root q (Leaf ty l c) h = Ok v h
    /\ Visit_simple_stmt cfg root (Visit cfg root DecoratedTarget) p node h =
       Ok tt h'
    /\ newlines h' =
       (if last_was_class_or_function (self h)
        then (q, Some v) :: newlines h
        else newlines h)
    /\ last_was_class_or_function (self h') = false.
Proof.
  intros node Hplain Hleaf.
  destruct (Visit_simple_stmt_run cfg root DecoratedTarget p first more q ty
              l c h Hplain Hleaf) as (v & V & Hv & E).
  eexists v, _. split; [exact Hv|]. split; [exact E|]. cbn [self newlines].
  split; [now destruct (last_was_class_or_function (self h))|].
  destruct first as [[] l0 c0|name0 cs0]; reflexivity.
Qed.

Lemma statement_after_definition_witness :
  exists v h',
    _GetNumNewlines (mkStyle 2 1) async_def [0; 0]%nat (Leaf NAME 1 0)
      (mkHeap (mkCalc 0 0 0 false true None) [] []) =
      Ok v (mkHeap (mkCalc 0 0 0 false true None) [] [])
    /\ Visit_simple_stmt (mkStyle 2 1) async_def
         (Visit (mkStyle 2 1) async_def (last_child_target async_def))
         [0]%nat (Node "simple_stmt" [Leaf NAME 1 0; Leaf NEWLINE 1 5])
         (mkHeap (mkCalc 0 0 0 false true None) [] []) = Ok tt h'
    /\ newlines h' = [([0; 0]%nat, Some v)]
    /\ last_was_class_or_function (self h') = false.
Proof.
  apply (statement_after_definition (mkStyle 2 1) async_def
           (last_child_target async_def) [0]%nat (Leaf NAME 1 0)
           [Leaf NEWLINE 1 5] [0; 0]%nat NAME 1 0
           (mkHeap (mkCalc 0 0 0 false true None) [] []));
    reflexivity.
Defined.

(** ** Nesting depths *)

Lemma keeps_levels_ret {A} (a : A) : keeps_levels (ret a).
Proof. intros h; reflexivity. Qed.

Lemma keeps_levels_raise {A} (e : exn) : keeps_levels (@raise A e).
Proof. intros h; exact I. Qed.

Lemma keeps_levels_bind {A B} (m : M A) (f : A -> M B) :
  keeps_levels m -> (forall a, keeps_levels (f a)) -> keeps_levels (bind m f).
Proof.
  intros Hm Hf h. eapply post_bind; [apply Hm|].
  intros a h1 H1. cbv beta in H1. specialize (Hf a h1). unfold post in *.
  destruct (f a h1); [congruence|exact I].
Qed.

Lemma keeps_levels_reader {A} (m : M A) : reader m -> keeps_levels m.
Proof.
  intros Hm h. unfold post. pose proof (reader_same_heap m h Hm) as Hh.
  destruct (m h); simpl in Hh; [now subst|exact I].
Qed.

Lemma keeps_levels_record_visit (p : path) : keeps_levels (record_visit p).
Proof. intros h; reflexivity. Qed.

Lemma keeps_levels__SetNumNewlines (p : path) (v : option Z) :
  keeps_levels (_SetNumNewlines p v).
Proof. intros h; reflexivity. Qed.

Lemma keeps_levels_update (f : calculator -> calculator) :
  (forall s, levels (f s) = levels s) -> keeps_levels (update f).
Proof. intros Hf h. exact (Hf (self h)). Qed.

Lemma keeps_levels_item (p : path) (node : pytree) (i : nat) :
  keeps_levels (item p node i).
Proof. apply keeps_levels_reader, reader_item. Qed.

Lemma keeps_levels_lineno_of (t : pytree) : keeps_levels (lineno_of t).
Proof. apply keeps_levels_reader, reader_lineno_of. Qed.

Lemma keeps_levels_get_self : keeps_levels get_self.
Proof. apply keeps_levels_reader, reader_get_self. Qed.

Lemma keeps_levels_FirstLeafNode (p : path) (node : pytree) :
  keeps_levels (FirstLeafNode p node).
Proof. apply keeps_levels_reader, reader_FirstLeafNode. Qed.

Lemma keeps_levels_IsCommentStatement (t : pytree) :
  keeps_levels (IsCommentStatement t).
Proof. apply keeps_levels_reader, reader_IsCommentStatement. Qed.

Lemma keeps_levels__GetNumNewlines (cfg : style) (root : pytree) (p : path)
    (node : pytree) :
  keeps_levels (_GetNumNewlines cfg root p node).
Proof. apply keeps_levels_reader, reader__GetNumNewlines. Qed.

Create HintDb levels.

#[local] Hint Resolve keeps_levels_ret keeps_levels_raise
  keeps_levels_record_visit keeps_levels__SetNumNewlines keeps_levels_item
  keeps_levels_lineno_of keeps_levels_get_self keeps_levels_FirstLeafNode
  keeps_levels_IsCommentStatement keeps_levels__GetNumNewlines : levels.

Ltac levels_auto :=
  repeat first
    [ progress auto with levels
    | apply keeps_levels_bind; [|intros ?]
    | apply keeps_levels_update; intros []; reflexivity
    | match goal with
      | |- keeps_levels (if ?b then _ else _) => destruct b
      | |- keeps_levels (match ?x with _ => _ end) => destruct x
      end ].

Section Levels.

Variable cfg : style.
Variable root : pytree.
Variable DecoratedTarget : path -> list string -> option path.

Lemma keeps_levels_leading_comments (p : path) (rest : list pytree) :
  forall index, keeps_levels (leading_comments p index rest).
Proof.
  induction rest as [|c rest IH]; intros index; simpl.
  - apply keeps_levels_raise.
  - unfold Visit_Leaf, DefaultLeafVisit. levels_auto.
Qed.

Lemma keeps_levels_routine (p : path) (node : pytree) :
  keeps_levels (_SetBlankLinesBetweenCommentAndClassFunc cfg root p node).
Proof.
  unfold _SetBlankLinesBetweenCommentAndClassFunc.
  pose proof keeps_levels_leading_comments. levels_auto.
Qed.

Lemma keeps_levels_visit_each (visit : path -> pytree -> M unit) (p : path)
    (index : nat) (cs : list pytree) :
  Forall (fun c => forall q, keeps_levels (visit q c)) cs ->
  forall i, keeps_levels (visit_each visit p index i cs).
Proof.
  induction 1 as [|c cs Hc _ IH]; intros i; simpl; levels_auto.
Qed.

Lemma keeps_levels_DefaultNodeVisit (visit : path -> pytree -> M unit)
    (p : path) (node : pytree) :
  Forall (fun c => forall q, keeps_levels (visit q c)) (children node) ->
  keeps_levels (DefaultNodeVisit cfg root visit p node).
Proof.
  intros Hcs. unfold DefaultNodeVisit.
  pose proof (keeps_levels_visit_each visit p 0 _ Hcs). levels_auto.
Qed.

Lemma keeps_levels_Visit_simple_stmt (visit : path -> pytree -> M unit)
    (p : path) (node : pytree) :
  Forall (fun c => forall q, keeps_levels (visit q c)) (children node) ->
  keeps_levels (Visit_simple_stmt cfg root visit p node).
Proof.
  intros Hcs. unfold Visit_simple_stmt.
  pose proof (keeps_levels_DefaultNodeVisit visit p node Hcs). levels_auto.
Qed.

Lemma keeps_levels_Visit_decorator (visit : path -> pytree -> M unit)
    (p : path) (node : pytree) :
  Forall (fun c => forall q, keeps_levels (visit q c)) (children node) ->
  keeps_levels (Visit_decorator cfg root DecoratedTarget visit p node).
Proof.
  intros Hcs. unfold Visit_decorator.
  pose proof (keeps_levels_visit_each visit p 0 _ Hcs). levels_auto.
Qed.

(** A class definition whose visit returns has brought the class depth back
    down, and is remembered as the previous statement and as a definition
    just left. *)
Lemma Visit_classdef_post (visit : path -> pytree -> M unit) (p : path)
    (node : pytree) (h : heap) :
  Forall (fun c => forall q, keeps_levels (visit q c)) (children node) ->
  post (Visit_classdef cfg root visit p node) h
    (fun _ h' =>
       levels (self h') = levels (self h)
       /\ _prev_stmt (self h') = Some p
       /\ last_was_class_or_function (self h') = true).
Proof.
  intros Hcs. unfold Visit_classdef.
  eapply post_bind;
    [apply (keeps_levels_update (with_last_was_class_or_function false));
     intros []; reflexivity|].
  intros ? h1 H1. cbv beta in H1.
  eapply post_bind; [apply keeps_levels_routine|].
  intros index h2 H2. cbv beta in H2.
  eapply post_bind;
    [apply (keeps_levels_update (with_last_was_decorator false));
     intros []; reflexivity|].
  intros ? h3 H3. cbv beta in H3.
  unfold bind at 1. unfold update at 1.
  eapply post_bind; [apply (keeps_levels_visit_each visit p index _ Hcs)|].
  intros ? h4 H4. cbv beta in H4. cbn [self] in H4.
  unfold bind, update, post. cbn [self].
  repeat split; try reflexivity.
  unfold levels in *. cbn. destruct (self h4), (self h3), (self h2),
    (self h1), (self h). cbn in *.
  injection H4 as -> ->. injection H3 as -> ->. injection H2 as -> ->.
  injection H1 as -> ->. f_equal; lia.
Qed.

Lemma Visit_funcdef_post (visit : path -> pytree -> M unit) (p : path)
    (node : pytree) (h : heap) :
  Forall (fun c => forall q, keeps_levels (visit q c)) (children node) ->
  post (Visit_funcdef cfg root visit p node) h
    (fun _ h' =>
       levels (self h') = levels (self h)
       /\ _prev_stmt (self h') = Some p
       /\ last_was_class_or_function (self h') = true).
Proof.
  intros Hcs. unfold Visit_funcdef.
  eapply post_bind;
    [apply (keeps_levels_update (with_last_was_class_or_function false));
     intros []; reflexivity|].
  intros ? h1 H1. cbv beta in H1.
  eapply post_bind; [apply keeps_levels_routine|].
  intros index0 h2 H2. cbv beta in H2.
  eapply post_bind with
    (Q1 := fun _ h' => levels (self h') = levels (self h2)).
  { assert (Hk : keeps_levels
                   (if _AsyncFunction root p
                    then
                      match parent p with
                      | Some q =>
                          match node_at root q with
                          | Some unit_root =>
                              bind (_SetBlankLinesBetweenCommentAndClassFunc
                                      cfg root q unit_root)
                                (fun index =>
                                   bind (item p node 0)
                                     (fun first =>
                                        bind (_SetNumNewlines (fst first) None)
                                          (fun _ => ret index)))
                          | None => raise AttributeError
                          end
                      | None => raise AttributeError
                      end
                    else _SetBlankLinesBetweenCommentAndClassFunc cfg root p
                           node)).
    { pose proof keeps_levels_routine. levels_auto. }
    apply Hk. }
  intros index h3 H3. cbv beta in H3.
  eapply post_bind;
    [apply (keeps_levels_update (with_last_was_decorator false));
     intros []; reflexivity|].
  intros ? h4 H4. cbv beta in H4.
  unfold bind at 1. unfold update at 1.
  eapply post_bind; [apply (keeps_levels_visit_each visit p index _ Hcs)|].
  intros ? h5 H5. cbv beta in H5. cbn [self] in H5.
  unfold bind, update, post. cbn [self].
  repeat split; try reflexivity.
  unfold levels in *. cbn. destruct (self h5), (self h4), (self h3),
    (self h2), (self h1), (self h). cbn in *.
  injection H5 as -> ->. injection H4 as -> ->. injection H3 as -> ->.
  injection H2 as -> ->. injection H1 as -> ->. f_equal; lia.
Qed.

Lemma keeps_levels_Visit (node : pytree) :
  forall p, keeps_levels (Visit cfg root DecoratedTarget p node).
Proof.
  induction node as [ty l c|name cs IH] using pytree_ind; intros p.
  - simpl. unfold Visit_Leaf, DefaultLeafVisit. levels_auto.
  - cbn [Visit].
    apply keeps_levels_bind; [apply keeps_levels_record_visit|intros _].
    pose proof (keeps_levels_Visit_simple_stmt _ p (Node name cs) IH).
    pose proof (keeps_levels_Visit_decorator _ p (Node name cs) IH).
    pose proof (keeps_levels_DefaultNodeVisit _ p (Node name cs) IH).
    assert (Hc : keeps_levels
                   (Visit_classdef cfg root (Visit cfg root DecoratedTarget)
                      p (Node name cs))).
    { intros h. pose proof (Visit_classdef_post _ p (Node name cs) h IH) as Hp.
      unfold post in *. now destruct (Visit_classdef _ _ _ _ _ h). }
    assert (Hf : keeps_levels
                   (Visit_funcdef cfg root (Visit cfg root DecoratedTarget)
                      p (Node name cs))).
    { intros h. pose proof (Visit_funcdef_post _ p (Node name cs) h IH) as Hp.
      unfold post in *. now destruct (Visit_funcdef _ _ _ _ _ h). }
    repeat match goal with
           | |- keeps_levels (if ?b then _ else _) => destruct b
           end; assumption.
Qed.

End Levels.

(** When the visit of a node returns, the class and function nesting depths
    are what they were when it started, whatever the tree: every increment
    of [Visit_classdef] and [Visit_funcdef] has met its decrement. *)
Theorem levels_restored (cfg : style) (root : pytree)
    (DecoratedTarget : path -> list string -> option path) (p : path)
    (node : pytree) (h h' : heap) :
  Visit cfg root DecoratedTarget p node h = Ok tt h' ->
  class_level (self h') = class_level (self h)
  /\ function_level (self h') = function_level (self h).
Proof.
  intros E.
  pose proof (post_Ok _ _ _ _ _
                (keeps_levels_Visit cfg root DecoratedTarget node p h) E)
    as Hl.
  unfold levels in Hl. cbv beta in Hl. now injection Hl.
Qed.

Lemma levels_restored_witness :
  class_level
    (self (heap_of (CalculateBlankLines (mkStyle 2 1) last_child_target
                      two_methods []))) = class_level __init__
  /\ function_level
       (self (heap_of (CalculateBlankLines (mkStyle 2 1) last_child_target
                         two_methods []))) = function_level __init__.
Proof.
  apply (levels_restored (mkStyle 2 1) two_methods
           (last_child_target two_methods) [] two_methods
           (mkHeap __init__ [] [])
           (heap_of (CalculateBlankLines (mkStyle 2 1) last_child_target
                       two_methods []))).
  vm_compute. reflexivity.
Defined.

(** A class or function definition whose visit returns is remembered as
    the previous statement and as a definition just left, with the nesting
    depths as they were before it. *)
Theorem definition_remembered (cfg : style) (root : pytree)
    (DecoratedTarget : path -> list string -> option path) (p : path)
    (name : string) (cs : list pytree) (h h' : heap) :
  (name = "classdef" \/ name = "funcdef") ->
  Visit cfg root DecoratedTarget p (Node name cs) h = Ok tt h' ->
  _prev_stmt (self h') = Some p
  /\ last_was_class_or_function (self h') = true
  /\ class_level (self h') = class_level (self h)
  /\ function_level (self h') = function_level (self h).
Proof.
  intros Hname E.
  assert (Hkids : Forall (fun c => forall q,
                            keeps_levels (Visit cfg root DecoratedTarget q c))
                    (children (Node name cs))).
  { apply Forall_forall. intros c _ q.
    apply keeps_levels_Visit. }
  assert (Hpost :
    post (Visit cfg root DecoratedTarget p (Node name cs)) h
      (fun _ h' =>
         levels (self h') = levels (self h)
         /\ _prev_stmt (self h') = Some p
         /\ last_was_class_or_function (self h') = true)).
  { cbn [Visit]. unfold bind at 1. unfold record_visit at 1.
    destruct Hname as [-> | ->].
    - change (("classdef" =? "simple_stmt")%string) with false.
      change (("classdef" =? "decorator")%string) with false.
      change (("classdef" =? "classdef")%string) with true. cbv iota.
      exact (Visit_classdef_post cfg root _ p (Node "classdef" cs)
               (mkHeap (self h) (newlines h) (p :: visits h)) Hkids).
    - change (("funcdef" =? "simple_stmt")%string) with false.
      change (("funcdef" =? "decorator")%string) with false.
      change (("funcdef" =? "classdef")%string) with false.
      change (("funcdef" =? "funcdef")%string) with true. cbv iota.
      exact (Visit_funcdef_post cfg root _ p (Node "funcdef" cs)
               (mkHeap (self h) (newlines h) (p :: visits h)) Hkids). }
  destruct (post_Ok _ _ _ _ _ Hpost E) as (Hl & Hp & Hf).
  unfold levels in Hl. injection Hl as Hc Hfn. auto.
Qed.

Lemma definition_remembered_witness :
  _prev_stmt
    (self (heap_of (Visit (mkStyle 2 1) two_methods
                      (last_child_target two_methods) [2; 3; 0]%nat
                      (Node "funcdef" (def_children 2 2))
                      (mkHeap (mkCalc 1 0 0 false false None) [] []))))
  = Some [2; 3; 0]%nat
  /\ last_was_class_or_function
       (self (heap_of (Visit (mkStyle 2 1) two_methods
                         (last_child_target two_methods) [2; 3; 0]%nat
                         (Node "funcdef" (def_children 2 2))
                         (mkHeap (mkCalc 1 0 0 false false None) [] []))))
     = true
  /\ class_level
       (self (heap_of (Visit (mkStyle 2 1) two_methods
                         (last_child_target two_methods) [2; 3; 0]%nat
                         (Node "funcdef" (def_children 2 2))
                         (mkHeap (mkCalc 1 0 0 false false None) [] []))))
     = 1
  /\ function_level
       (self (heap_of (Visit (mkStyle 2 1) two_methods
                         (last_child_target two_methods) [2; 3; 0]%nat
                         (Node "funcdef" (def_children 2 2))
                         (mkHeap (mkCalc 1 0 0 false false None) [] []))))
     = 0.
Proof.
  apply (definition_remembered (mkStyle 2 1) two_methods
           (last_child_target two_methods) [2; 3; 0]%nat "funcdef"
           (def_children 2 2) (mkHeap (mkCalc 1 0 0 false false None) [] [])
           (heap_of (Visit (mkStyle 2 1) two_methods
                       (last_child_target two_methods) [2; 3; 0]%nat
                       (Node "funcdef" (def_children 2 2))
                       (mkHeap (mkCalc 1 0 0 false false None) [] [])))).
  - right. reflexivity.
  - vm_compute. reflexivity.
Defined.

(** ** Where the walk writes *)

(** The visit of a node that is not a function definition annotates only
    nodes strictly inside the subtree of that node, whether it returns or
    raises: never the node itself, a sibling or an ancestor. *)
Theorem visit_annotates_inside (cfg : style) (root : pytree)
    (DecoratedTarget : path -> list string -> option path) (p : path)
    (node : pytree) (h : heap) :
  NodeName node <> "funcdef" ->
  exists writes,
    newlines (heap_of (Visit cfg root DecoratedTarget p node h)) =
    writes ++ newlines h
    /\ Forall (fun w => below p (fst w)) writes.
Proof.
  intros Hname.
  destruct (sound_Visit cfg root DecoratedTarget node p h)
    as [(W & E & F) _].
  exists W. split; [exact E|].
  eapply Forall_impl; [|exact F].
  intros w [_ [Hb|[Hf _]]]; [exact Hb|contradiction].
Qed.

Lemma visit_annotates_inside_witness :
  exists writes,
    newlines (heap_of (Visit (mkStyle 2 1) two_methods
                         (last_child_target two_methods) [0]%nat
                         class_of_two_methods (mkHeap __init__ [] []))) =
    writes ++ []
    /\ Forall (fun w => below [0]%nat (fst w)) writes.
Proof.
  apply (visit_annotates_inside (mkStyle 2 1) two_methods
           (last_child_target two_methods) [0]%nat class_of_two_methods
           (mkHeap __init__ [] [])).
  discriminate.
Defined.

(** On that class the visit returns and writes five annotations, all of
    them inside the class. *)
Example visit_of_class_writes_inside :
  exists h',
    Visit (mkStyle 2 1) two_methods (last_child_target two_methods) [0]%nat
      class_of_two_methods (mkHeap __init__ [] []) = Ok tt h'
    /\ map fst (newlines h') =
       [ [0; 3; 3; 0]; [0; 3; 3; 0]; [0; 2; 3; 0]; [0; 2; 3; 0]; [0; 0] ]%nat.
Proof. eexists. split; vm_compute; reflexivity. Qed.

(** The walk never annotates the root of the tree it is given: the root has
    after the walk the annotation it had before, whether the walk returns
    or raises. *)
Theorem walk_leaves_root_annotation (cfg : style)
    (DecoratedTarget : pytree -> path -> list string -> option path)
    (tree : pytree) (ann : list (path * option Z)) :
  GetNodeAnnotation
    (newlines (heap_of (CalculateBlankLines cfg DecoratedTarget tree ann)))
    [] = GetNodeAnnotation ann [].
Proof.
  unfold CalculateBlankLines.
  destruct (sound_Visit cfg tree (DecoratedTarget tree) tree []
              (mkHeap __init__ ann [])) as [(W & E & F) _].
  rewrite E. cbn [newlines].
  rewrite GetNodeAnnotation_app, written_false; [reflexivity|].
  eapply Forall_impl; [|exact F].
  intros w [_ [Hb|[_ Hb]]]; destruct Hb as (s & Hs & ->);
    cbn [tl]; rewrite app_nil_r; exact Hs.
Qed.

(** ** More on decorators, [async] and annotations already there *)

(** A decorator that follows neither a comment on the line before nor
    another decorator, and whose decorated function and the remembered
    previous statement are methods of one class, has its first token
    annotated with [max(2, 1 + BLANK_LINES_BETWEEN_CLASS_DEFS)], whatever
    the generic rule would give. *)
Theorem decorator_between_methods (cfg : style) (root : pytree)
    (DecoratedTarget : path -> list string -> option path) (p : path)
    (ty : token) (l c : Z) (rest : list pytree) (h : heap)
    (func prev : path) :
  forallb expression rest = true ->
  comment_on_previous_line (self h) l = false ->
  last_was_decorator (self h) = false ->
  _DecoratedFuncdef DecoratedTarget p = Some func ->
  _prev_stmt (self h) = Some prev ->
  _MethodsInSameClass root prev func = true ->
  exists h',
    Visit_decorator cfg root DecoratedTarget
      (Visit cfg root DecoratedTarget) p
      (Node "decorator" (Leaf ty l c :: rest)) h = Ok tt h'
    /\ newlines h' =
       ((0 :: p)%nat,
        Some (Z.max _ONE_BLANK_LINE (1 + BLANK_LINES_BETWEEN_CLASS_DEFS cfg)))
         :: newlines h.
Proof.
  intros Hrest Hc Hd Hfunc Hprev Hsame.
  destruct (Visit_decorator_run cfg root DecoratedTarget p "decorator" ty
              l c rest h Hrest) as (v & h' & E & N & Hv).
  rewrite Hc, Hd, Hfunc, Hprev, Hsame in Hv. subst v.
  exists h'. split; assumption.
Qed.

Lemma decorator_between_methods_witness :
  exists h',
    Visit_decorator (mkStyle 2 3) decorated_second_method
      (last_child_target decorated_second_method)
      (Visit (mkStyle 2 3) decorated_second_method
         (last_child_target decorated_second_method))
      [0; 3; 3; 0]%nat
      (Node "decorator" [Leaf OP 4 2; Leaf NAME 4 3; Leaf NEWLINE 4 9])
      after_first_method = Ok tt h'
    /\ newlines h' =
       [([0; 0; 3; 3; 0]%nat,
         Some (Z.max _ONE_BLANK_LINE
                 (1 + BLANK_LINES_BETWEEN_CLASS_DEFS (mkStyle 2 3))))].
Proof.
  apply (decorator_between_methods (mkStyle 2 3) decorated_second_method
           (last_child_target decorated_second_method) [0; 3; 3; 0]%nat
           OP 4 2 [Leaf NAME 4 3; Leaf NEWLINE 4 9] after_first_method
           [1; 3; 3; 0]%nat [2; 3; 0]%nat); vm_compute; reflexivity.
Defined.

(** An [async] definition counts as starting in column 0 when its [async]
    keyword does, though its own first token does not: outside every class
    and function, and not after a decorator, the generic rule gives it the
    top-level count. *)
Theorem async_definition_top_level (cfg : style) (root : pytree)
    (p : path) (node : pytree) (q : path) (ty : token) (l c : Z)
    (i : nat) (parent_path : path) (la : Z) (h : heap) :
  p = (S i :: parent_path)%nat ->
  node_at root (i :: parent_path)%nat = Some (Leaf ASYNC la 0) ->
  FirstLeafNode p node h = Ok (q, Leaf ty l c) h ->
  last_was_decorator (self h) = false ->
  class_level (self h) = 0 ->
  function_level (self h) = 0 ->
  _StartsInZerothColumn root p node h = Ok true h
  /\ _GetNumNewlines cfg root p node h =
     Ok (1 + BLANK_LINES_AROUND_TOP_LEVEL_DEFINITION cfg) h.
Proof.
  intros -> Hasync Hleaf Hd Hc Hf.
  assert (Hcol : _StartsInZerothColumn root (S i :: parent_path)%nat node h
                 = Ok true h).
  { unfold _StartsInZerothColumn, bind. rewrite Hleaf.
    cbn [snd column_of ret]. destruct (c =? 0); [reflexivity|].
    unfold _AsyncFunction. cbn [prev_sibling]. rewrite Hasync.
    reflexivity. }
  split; [exact Hcol|].
  apply _GetNumNewlines_top_level; [exact Hd|].
  unfold _IsTopLevel, bind, get_self. now rewrite Hc, Hf.
Qed.

Lemma async_definition_top_level_witness :
  _StartsInZerothColumn async_def [1; 1]%nat (def_stmt 4 6) before_async_def
  = Ok true before_async_def
  /\ _GetNumNewlines (mkStyle 2 1) async_def [1; 1]%nat (def_stmt 4 6)
       before_async_def =
     Ok (1 + BLANK_LINES_AROUND_TOP_LEVEL_DEFINITION (mkStyle 2 1))
       before_async_def.
Proof.
  apply (async_definition_top_level (mkStyle 2 1) async_def [1; 1]%nat
           (def_stmt 4 6) [0; 1; 1]%nat NAME 4 6 0%nat [1]%nat 4
           before_async_def); reflexivity.
Defined.

(** The walk does not read the annotations the tree already has: with any
    annotations [ann] it returns or raises as on the bare tree, with the
    same calculator and the same visits, and its writes are those on the
    bare tree, put before [ann]. *)
Theorem walk_ignores_annotations (cfg : style)
    (DecoratedTarget : pytree -> path -> list string -> option path)
    (tree : pytree) (ann : list (path * option Z)) :
  let bare := CalculateBlankLines cfg DecoratedTarget tree [] in
  let run := CalculateBlankLines cfg DecoratedTarget tree ann in
  self (heap_of run) = self (heap_of bare)
  /\ visits (heap_of run) = visits (heap_of bare)
  /\ newlines (heap_of run) = newlines (heap_of bare) ++ ann
  /\ match bare, run with
     | Ok _ _, Ok _ _ => True
     | Raised e _, Raised e' _ => e = e'
     | _, _ => False
     end.
Proof.
  intros bare run. subst run.
  rewrite (CalculateBlankLines_graft cfg DecoratedTarget tree ann).
  fold bare. destruct bare as [[] hb|e hb]; cbn; repeat split; reflexivity.
Qed.

(** A simple statement or a decorator without children makes its visit
    raise [IndexError], and the visit annotates nothing. *)
Theorem childless_statement_or_decorator (cfg : style) (root : pytree)
    (DecoratedTarget : path -> list string -> option path)
    (visit : path -> pytree -> M unit) (p : path) (h : heap) :
  (exists h',
     Visit_simple_stmt cfg root visit p (Node "simple_stmt" []) h =
       Raised IndexError h'
     /\ newlines h' = newlines h)
  /\ (exists h',
        Visit_decorator cfg root DecoratedTarget visit p
          (Node "decorator" []) h = Raised IndexError h'
        /\ newlines h' = newlines h).
Proof.
  split.
  - unfold Visit_simple_stmt, DefaultNodeVisit, bind, get_self.
    destruct (last_was_class_or_function (self h)).
    + change (existsb (String.eqb (NodeName (Node "simple_stmt" [])))
                _PYTHON_STATEMENTS) with true.
      cbn. eexists; split; reflexivity.
    + cbn. eexists; split; reflexivity.
  - unfold Visit_decorator, bind, get_self.
    destruct (last_comment_lineno (self h) =? 0).
    + cbn [ret]. destruct (last_was_decorator (self h));
        [cbn; eexists; split; reflexivity|].
      destruct (match _DecoratedFuncdef DecoratedTarget p,
                      _prev_stmt (self h) with
                | Some f, Some prev => _MethodsInSameClass root prev f
                | _, _ => false
                end); cbn; eexists; split; reflexivity.
    + cbn. eexists; split; reflexivity.
Qed.

(** ** The [def] keyword of an [async] definition, to the end of the walk *)

Lemma spares_quiet (d : path) (W : list (path * option Z)) :
  Forall (spares d) W -> GetNodeAnnotation W d = None.
Proof.
  induction 1 as [|[a v] W Hw _ IH]; [reflexivity|].
  simpl. destruct (path_eqb a d) eqn:E; [|exact IH].
  apply path_eqb_eq in E. destruct Hw as [Hw|Hw]; [contradiction|exact Hw].
Qed.

Lemma hush_sound {A} (d : path) (R : A -> Prop) (m : M A) :
  sound (spares d) R m -> hush d m.
Proof.
  intros Hm h. unfold post. destruct (Hm h) as [(W & E & F) _].
  destruct (m h) as [a h'|e h']; [|exact I].
  exists W. split; [exact E|now apply spares_quiet].
Qed.

Lemma hush_bind {A B} (d : path) (m : M A) (f : A -> M B) :
  hush d m -> (forall a, hush d (f a)) -> hush d (bind m f).
Proof.
  intros Hm Hf h. unfold post, bind.
  specialize (Hm h). unfold post in Hm.
  destruct (m h) as [a h1|e h1]; [|exact I].
  specialize (Hf a h1). unfold post in Hf.
  destruct (f a h1) as [b h2|e h2]; [|exact I].
  destruct Hm as (W1 & E1 & Q1). destruct Hf as (W2 & E2 & Q2).
  exists (W2 ++ W1). split; [now rewrite E2, E1, app_assoc|].
  rewrite GetNodeAnnotation_app, Q2, Q1. now destruct (written W2 d).
Qed.

Lemma hush_ret {A} (d : path) (a : A) : hush d (ret a).
Proof. apply hush_sound with (R := anything). now apply sound_ret. Qed.

Lemma hush_update (d : path) (f : calculator -> calculator) :
  hush d (update f).
Proof. eapply hush_sound. apply sound_update. Qed.

Lemma hush_visit_each (d : path) (visit : path -> pytree -> M unit)
    (p : path) (index : nat) (cs : list pytree) :
  forall i,
    (forall j c, nth_error cs j = Some c -> hush d (visit ((i + j)%nat :: p) c)) ->
    hush d (visit_each visit p index i cs).
Proof.
  induction cs as [|c cs IH]; intros i Hcs; simpl.
  - apply hush_ret.
  - apply hush_bind.
    + destruct (index <=? i)%nat.
      * specialize (Hcs 0%nat c eq_refl). now rewrite Nat.add_0_r in Hcs.
      * apply hush_ret.
    + intros _. apply IH. intros j c' Hj.
      specialize (Hcs (S j) c' Hj). now rewrite Nat.add_succ_r in Hcs.
Qed.

Lemma sound_IsCommentStatement_kind ok (c : pytree) :
  sound ok (fun b : bool => b = true -> NodeName c = "simple_stmt")
    (IsCommentStatement c).
Proof.
  unfold IsCommentStatement.
  destruct (String.eqb_spec (NodeName c) "simple_stmt") as [E|_].
  - destruct (children c); [apply sound_raise|now apply sound_ret].
  - apply sound_ret. discriminate.
Qed.

Section DefKeyword.

Variable cfg : style.
Variable root : pytree.
Variable DecoratedTarget : path -> list string -> option path.

(** The definition: the node at [S i :: q], an [async] function definition
    that starts with its keyword and has no function definition among its
    other children. *)
Variables (q : path) (i : nat) (ty : token) (l c : Z) (rest : list pytree).

Hypothesis Hnode :
  node_at root (S i :: q) = Some (Node "funcdef" (Leaf ty l c :: rest)).
Hypothesis Hasync : _AsyncFunction root (S i :: q) = true.
Hypothesis Hrest : Forall (fun t => NodeName t <> "funcdef") rest.

Lemma other_kind_elsewhere (p : path) (t : pytree) :
  node_at root p = Some t -> NodeName t <> "funcdef" -> p <> (S i :: q)%nat.
Proof.
  intros Ht Hname ->. rewrite Hnode in Ht. injection Ht as <-.
  now apply Hname.
Qed.

Lemma child_of_definition (j : nat) (t : pytree) :
  node_at root (j :: S i :: q)%nat = Some t -> NodeName t <> "funcdef".
Proof.
  rewrite (node_at_child root (S i :: q)%nat _ j Hnode). cbn [children].
  destruct j as [|j]; cbn [nth_error].
  - intros [= <-]. destruct ty; discriminate.
  - intros Hj. apply nth_error_In in Hj.
    rewrite Forall_forall in Hrest. now apply Hrest.
Qed.

Lemma first_leaf_elsewhere (p : path) (k : nat) :
  p <> (S i :: q)%nat ->
  (repeat 0%nat k ++ 0%nat :: p <> 0 :: S i :: q)%nat.
Proof.
  intros Hp E. destruct k as [|k]; simpl in E.
  - injection E as E. now apply Hp.
  - injection E as E. destruct k; discriminate.
Qed.

Lemma sound_FirstLeafNode_route ok (node : pytree) :
  forall p,
    sound ok (fun r => exists k, @eq path (fst r) (repeat 0%nat k ++ p))
      (FirstLeafNode p node).
Proof.
  induction node as [ty' l' c'|name cs IH] using pytree_ind; intros p; simpl.
  - apply sound_ret. now exists 0%nat.
  - destruct cs as [|c0 cs]; [apply sound_raise|].
    inversion IH as [|? ? Hc _]; subst.
    eapply sound_post; [|apply Hc]. simpl.
    intros r [k ->]. exists (S k).
    change (0 :: p)%nat with ([0%nat] ++ p). rewrite app_assoc.
    now rewrite <- repeat_cons.
Qed.

Lemma spares_leading_comments (p : path) (cs : list pytree) :
  forall index,
    (forall j t, nth_error cs j = Some t ->
                 node_at root ((index + j)%nat :: p) = Some t) ->
    sound (spares (0 :: S i :: q)%nat) anything
      (leading_comments p index cs).
Proof.
  induction cs as [|t cs IH]; intros index Hcs; simpl; [apply sound_raise|].
  eapply sound_bind; [apply sound_IsCommentStatement_kind|intros b Hb].
  destruct b; [|now apply sound_ret].
  eapply sound_bind with (R := anything).
  { unfold Visit_Leaf, DefaultLeafVisit. repeat sound_step. }
  intros _ _. sound_step.
  eapply sound_bind with (R := anything).
  - destruct (last_was_decorator a); [now apply sound_ret|].
    apply sound__SetNumNewlines. left. simpl. intros E.
    injection E as E1 E2. subst index p.
    specialize (Hcs 0%nat t eq_refl). rewrite Nat.add_0_r in Hcs.
    rewrite Hnode in Hcs. injection Hcs as <-.
    specialize (Hb eq_refl). discriminate.
  - intros _ _. apply IH. intros j t' Hj.
    specialize (Hcs (S j) t' Hj). now rewrite Nat.add_succ_r in Hcs.
Qed.

Lemma spares_routine (p : path) (node : pytree) :
  node_at root p = Some node ->
  p <> (S i :: q)%nat ->
  sound (spares (0 :: S i :: q)%nat) anything
    (_SetBlankLinesBetweenCommentAndClassFunc cfg root p node).
Proof.
  intros Hp Hne.
  assert (Hkw : forall index v, spares (0 :: S i :: q)%nat ((index :: p)%nat, v)).
  { intros index v. left. simpl. intros [= _ E]. now apply Hne. }
  unfold _SetBlankLinesBetweenCommentAndClassFunc.
  eapply sound_bind with (R := anything).
  { apply spares_leading_comments. intros j t Hj. cbn [Nat.add].
    now rewrite (node_at_child root p node j Hp). }
  intros index _.
  assert (Hother :
    sound (spares (0 :: S i :: q)%nat) anything
      (bind get_self (fun s =>
       bind (item p node index) (fun child =>
       bind (lineno_of (snd child)) (fun l =>
       bind (if last_comment_lineno s + 1 =? l then ret _NO_BLANK_LINES
             else _GetNumNewlines cfg root p node)
         (fun num_newlines =>
            _SetNumNewlines (fst child) (Some num_newlines))))))).
  { sound_step. sound_step. sound_step.
    eapply sound_bind with (R := anything).
    - destruct (_ =? _); [now apply sound_ret|].
      eapply sound_post; [|apply sound__GetNumNewlines]. now intros.
    - intros n _. apply sound__SetNumNewlines.
      match goal with H : fst _ = _ |- _ => rewrite H end. apply Hkw. }
  eapply sound_bind with (R := anything); [|intros _ _; now apply sound_ret].
  destruct (0 <? index)%nat; [|exact Hother].
  sound_step. sound_step. sound_step. sound_step. sound_step.
  destruct (_ =? _); [|exact Hother].
  apply sound__SetNumNewlines.
  match goal with H : fst a = _ |- _ => rewrite H end. apply Hkw.
Qed.

Lemma hush_stamp_first_leaf (p : path) (name : string) (cs : list pytree)
    (s : calculator) :
  p <> (S i :: q)%nat ->
  hush (0 :: S i :: q)%nat
    (if last_was_class_or_function s then
       if existsb (String.eqb (NodeName (Node name cs))) _PYTHON_STATEMENTS
       then
         leaf <- FirstLeafNode p (Node name cs) ;
         n <- _GetNumNewlines cfg root (fst leaf) (snd leaf) ;
         _SetNumNewlines (fst leaf) (Some n)
       else ret tt
     else ret tt).
Proof.
  intros Hne.
  destruct (last_was_class_or_function s); [|apply hush_ret].
  destruct (existsb _ _); [|apply hush_ret].
  apply hush_sound with (R := anything).
  destruct cs as [|c0 cs].
  { eapply sound_bind with (R := fun _ => False);
      [apply sound_raise|intros ? []]. }
  change (FirstLeafNode p (Node name (c0 :: cs)))
    with (FirstLeafNode (0%nat :: p) c0).
  eapply sound_bind; [apply sound_FirstLeafNode_route|intros leaf [k Hk]].
  eapply sound_bind; [apply sound__GetNumNewlines|intros n _].
  apply sound__SetNumNewlines. left. simpl. rewrite Hk.
  now apply first_leaf_elsewhere.
Qed.

Lemma hush_DefaultNodeVisit (visit : path -> pytree -> M unit) (p : path)
    (name : string) (cs : list pytree) :
  p <> (S i :: q)%nat ->
  hush (0 :: S i :: q)%nat (visit_each visit p 0 0 cs) ->
  hush (0 :: S i :: q)%nat
    (DefaultNodeVisit cfg root visit p (Node name cs)).
Proof.
  intros Hne Hcs. unfold DefaultNodeVisit.
  apply hush_bind; [eapply hush_sound; apply sound_get_self|intros s].
  apply hush_bind; [now apply hush_stamp_first_leaf|intros _].
  apply hush_bind; [apply hush_update|intros _; exact Hcs].
Qed.

Lemma hush_Visit_simple_stmt (visit : path -> pytree -> M unit) (p : path)
    (name : string) (cs : list pytree) :
  p <> (S i :: q)%nat ->
  hush (0 :: S i :: q)%nat (visit_each visit p 0 0 cs) ->
  hush (0 :: S i :: q)%nat
    (Visit_simple_stmt cfg root visit p (Node name cs)).
Proof.
  intros Hne Hcs. unfold Visit_simple_stmt.
  apply hush_bind; [now apply hush_DefaultNodeVisit|intros _].
  apply hush_sound with (R := anything).
  repeat sound_step; auto with sound.
Qed.

Lemma hush_Visit_decorator (visit : path -> pytree -> M unit) (p : path)
    (name : string) (cs : list pytree) :
  p <> (S i :: q)%nat ->
  hush (0 :: S i :: q)%nat (visit_each visit p 0 0 cs) ->
  hush (0 :: S i :: q)%nat
    (Visit_decorator cfg root DecoratedTarget visit p (Node name cs)).
Proof.
  intros Hne Hcs. unfold Visit_decorator.
  apply hush_bind; [eapply hush_sound; apply sound_get_self|intros s].
  apply hush_bind.
  { apply hush_sound with (R := anything).
    destruct (_ =? _); repeat sound_step. }
  intros adjacent.
  apply hush_bind.
  - apply hush_sound with (R := anything).
    destruct adjacent; [|destruct (last_was_decorator s);
                          [|destruct (match _ with Some _ => _ | None => _ end)]];
      sound_step.
    4: eapply sound_bind; [apply sound__GetNumNewlines|intros n Hn].
    all: apply sound__SetNumNewlines; left; simpl.
    all: match goal with H : fst _ = _ |- _ => rewrite H end.
    all: intros E; injection E as E; now apply Hne.
  - intros _. apply hush_bind; [exact Hcs|intros _; apply hush_update].
Qed.

Lemma hush_Visit_classdef (visit : path -> pytree -> M unit) (p : path)
    (name : string) (cs : list pytree) :
  node_at root p = Some (Node name cs) ->
  p <> (S i :: q)%nat ->
  (forall index, hush (0 :: S i :: q)%nat (visit_each visit p index 0 cs)) ->
  hush (0 :: S i :: q)%nat
    (Visit_classdef cfg root visit p (Node name cs)).
Proof.
  intros Hp Hne Hcs. unfold Visit_classdef.
  apply hush_bind; [apply hush_update|intros _].
  apply hush_bind;
    [eapply hush_sound; now apply spares_routine|intros index].
  apply hush_bind; [apply hush_update|intros _].
  apply hush_bind; [apply hush_update|intros _].
  apply hush_bind; [apply Hcs|intros _].
  apply hush_bind; [apply hush_update|intros _].
  apply hush_bind; [apply hush_update|intros _; apply hush_update].
Qed.

(** What follows the routine in the visit of a definition. *)
Lemma hush_after_routine (visit : path -> pytree -> M unit) (p : path)
    (cs : list pytree) (index : nat) :
  (forall index, hush (0 :: S i :: q)%nat (visit_each visit p index 0 cs)) ->
  hush (0 :: S i :: q)%nat
    (update (with_last_was_decorator false) ;;
     update (fun s => with_function_level (function_level s + 1) s) ;;
     visit_each visit p index 0%nat cs ;;
     update (fun s => with_function_level (function_level s - 1) s) ;;
     update (with_last_was_class_or_function true) ;;
     update (with_prev_stmt (Some p))).
Proof.
  intros Hcs.
  apply hush_bind; [apply hush_update|intros _].
  apply hush_bind; [apply hush_update|intros _].
  apply hush_bind; [apply Hcs|intros _].
  apply hush_bind; [apply hush_update|intros _].
  apply hush_bind; [apply hush_update|intros _; apply hush_update].
Qed.

(** Another function definition: neither its own routine nor the one on
    its [async] unit reaches the keyword. *)
Lemma hush_Visit_funcdef_elsewhere (visit : path -> pytree -> M unit)
    (p : path) (cs : list pytree) :
  node_at root p = Some (Node "funcdef" cs) ->
  p <> (S i :: q)%nat ->
  (forall index, hush (0 :: S i :: q)%nat (visit_each visit p index 0 cs)) ->
  hush (0 :: S i :: q)%nat
    (Visit_funcdef cfg root visit p (Node "funcdef" cs)).
Proof.
  intros Hp Hne Hcs. unfold Visit_funcdef.
  apply hush_bind; [apply hush_update|intros _].
  apply hush_bind;
    [eapply hush_sound; now apply spares_routine|intros index0].
  apply hush_bind; [|intros index; now apply hush_after_routine].
  apply hush_sound with (R := anything).
  destruct (_AsyncFunction root p); [|now apply spares_routine].
  destruct p as [|j u]; cbn [parent]; [apply sound_raise|].
  destruct (node_at root u) as [unit_root|] eqn:Hu; [|apply sound_raise].
  eapply sound_bind with (R := anything).
  { apply spares_routine; [exact Hu|]. intros ->.
    now apply (child_of_definition j _ Hp). }
  intros index _. sound_step.
  eapply sound_bind with (R := anything); [|intros _ _; now apply sound_ret].
  apply sound__SetNumNewlines. now right.
Qed.

(** The definition itself: the keyword is annotated, then cleared once the
    routine has run on the unit, and the children leave it alone. *)
Lemma hush_Visit_funcdef_here (visit : path -> pytree -> M unit) :
  (forall index,
     hush (0 :: S i :: q)%nat
       (visit_each visit (S i :: q)%nat index 0 (Leaf ty l c :: rest))) ->
  hush (0 :: S i :: q)%nat
    (Visit_funcdef cfg root visit (S i :: q)%nat
       (Node "funcdef" (Leaf ty l c :: rest))).
Proof.
  intros Hcs h. unfold post, Visit_funcdef.
  unfold bind at 1. unfold update at 1.
  set (h0 := mkHeap _ (newlines h) (visits h)).
  unfold bind at 1.
  destruct (sound__SetBlankLinesBetweenCommentAndClassFunc cfg root
              (S i :: q)%nat (Node "funcdef" (Leaf ty l c :: rest)) h0)
    as [(W1 & E1 & _) _].
  destruct (_SetBlankLinesBetweenCommentAndClassFunc cfg root (S i :: q)%nat
              (Node "funcdef" (Leaf ty l c :: rest)) h0)
    as [index0 h1|e h1]; [|exact I].
  cbn [heap_of] in E1.
  unfold bind at 1. rewrite Hasync. cbn [parent].
  destruct (node_at root q) as [unit_root|]; [|exact I].
  unfold bind at 1.
  destruct (sound__SetBlankLinesBetweenCommentAndClassFunc cfg root q
              unit_root h1) as [(W2 & E2 & _) _].
  destruct (_SetBlankLinesBetweenCommentAndClassFunc cfg root q unit_root h1)
    as [index h2|e h2]; [|exact I].
  cbn [heap_of] in E2.
  unfold bind at 1. cbn [item children nth_error ret].
  unfold bind at 1. cbn [fst _SetNumNewlines SetNodeAnnotation ret].
  set (h3 := mkHeap (self h2) (((0 :: S i :: q)%nat, None) :: newlines h2)
               (visits h2)).
  pose proof (hush_after_routine visit (S i :: q)%nat
                (Leaf ty l c :: rest) index Hcs h3) as Htail.
  unfold post in Htail.
  match goal with
  | |- match ?m with _ => _ end =>
      match type of Htail with
      | match ?m' with _ => _ end => change m with m'
      end
  end.
  destruct (bind _ _ h3) as [[] h4|e h4]; [|exact I].
  destruct Htail as (W3 & E3 & Q3).
  exists (W3 ++ ((0 :: S i :: q)%nat, None) :: W2 ++ W1). split.
  - rewrite E3. subst h3. cbn [newlines]. rewrite E2, E1. subst h0.
    cbn [newlines]. rewrite <- app_assoc, <- app_comm_cons.
    now rewrite <- app_assoc.
  - rewrite GetNodeAnnotation_app, Q3.
    destruct (written W3 _); [reflexivity|apply GetNodeAnnotation_head].
Qed.

(** Every visit of the walk leaves the keyword of the definition without a
    value. *)
Lemma hush_Visit (node : pytree) :
  forall p,
    node_at root p = Some node ->
    hush (0 :: S i :: q)%nat (Visit cfg root DecoratedTarget p node).
Proof.
  induction node as [ty' l' c'|name cs IH] using pytree_ind; intros p Hp.
  - simpl. unfold Visit_Leaf, DefaultLeafVisit.
    apply hush_sound with (R := anything). repeat sound_step.
  - assert (Hcs : forall index,
              hush (0 :: S i :: q)%nat
                (visit_each (Visit cfg root DecoratedTarget) p index 0 cs)).
    { intros index. apply hush_visit_each. intros j t Hj. cbn [Nat.add].
      rewrite Forall_forall in IH.
      apply (IH t (nth_error_In _ _ Hj)).
      now rewrite (node_at_child root p _ j Hp). }
    cbn [Visit].
    apply hush_bind; [eapply hush_sound; apply sound_record_visit|intros _].
    assert (Hkind : name <> "funcdef" -> p <> (S i :: q)%nat).
    { intros Hname. now apply (other_kind_elsewhere p _ Hp). }
    destruct (String.eqb_spec name "simple_stmt") as [->|_].
    { apply hush_Visit_simple_stmt; [now apply Hkind|apply Hcs]. }
    destruct (String.eqb_spec name "decorator") as [->|_].
    { apply hush_Visit_decorator; [now apply Hkind|apply Hcs]. }
    destruct (String.eqb_spec name "classdef") as [->|_].
    { apply hush_Visit_classdef; [exact Hp|now apply Hkind|exact Hcs]. }
    destruct (String.eqb_spec name "funcdef") as [->|Hname].
    { destruct (list_eq_dec Nat.eq_dec p (S i :: q)%nat) as [->|Hne].
      - rewrite Hnode in Hp. injection Hp as <-.
        now apply hush_Visit_funcdef_here.
      - now apply hush_Visit_funcdef_elsewhere. }
    apply hush_DefaultNodeVisit; [now apply Hkind|apply Hcs].
Qed.

End DefKeyword.

(** ** The visit of an [async] definition *)

Lemma written_other_length (W : list (path * option Z)) (a : path) :
  Forall (fun w => List.length (fst w) <> List.length a) W ->
  written W a = false.
Proof.
  intros H. apply written_false. eapply Forall_impl; [|exact H].
  intros w Hw E. apply Hw. exact (f_equal (@List.length nat) E).
Qed.

Lemma comment_writes_length (s : calculator) (p : path) (index n : nat) :
  Forall (fun w => List.length (fst w) = S (S (List.length p)))
    (comment_writes s p index n).
Proof.
  unfold comment_writes. destruct (last_was_decorator s); [constructor|].
  apply Forall_forall. intros w Hw.
  apply in_map_iff in Hw as (a & <- & Ha). unfold comment_tokens in Ha.
  apply in_rev in Ha. apply in_map_iff in Ha as (j & <- & _). reflexivity.
Qed.

Lemma below_length (p a : path) :
  below p a -> (List.length p < List.length a)%nat.
Proof.
  intros (s & Hs & ->). rewrite length_app.
  destruct s; [contradiction|simpl; lia].
Qed.

(** What the visit of a definition does after the routine. *)
Lemma sound_after_routine (cfg : style) (root : pytree)
    (DecoratedTarget : path -> list string -> option path) (p : path)
    (cs : list pytree) (index : nat) :
  Forall (fun t => NodeName t <> "funcdef") cs ->
  sound (fun w => exists j, below (j :: p)%nat (fst w)) anything
    (update (with_last_was_decorator false) ;;
     update (fun s => with_function_level (function_level s + 1) s) ;;
     visit_each (Visit cfg root DecoratedTarget) p index 0%nat cs ;;
     update (fun s => with_function_level (function_level s - 1) s) ;;
     update (with_last_was_class_or_function true) ;;
     update (with_prev_stmt (Some p))).
Proof.
  intros Hcs. sound_step. sound_step.
  eapply sound_bind with (R := anything).
  - now apply visit_each_keeps_to_subtrees.
  - intros _ _. repeat sound_step; auto with sound.
Qed.

(** The visit of a function definition that follows the [async] keyword in
    its unit, written out up to the visits of its children: the routine
    runs on the definition, then on the unit, where it annotates the
    leading comments and the first child that is not one, and the keyword
    of the definition is cleared. *)
Lemma Visit_funcdef_async_run (cfg : style) (root : pytree)
    (DecoratedTarget : path -> list string -> option path) (q : path)
    (unit_name : string) (comments : list pytree) (ty0 : token) (l0 c0 : Z)
    (more : list pytree) (i : nat) (la ca : Z) (ty : token) (l c : Z)
    (rest : list pytree) (h : heap) :
  let unit_root := Node unit_name (comments ++ Leaf ty0 l0 c0 :: more) in
  let k := List.length comments in
  let p := (S i :: q)%nat in
  let node := Node "funcdef" (Leaf ty l c :: rest) in
  let s0 := with_last_was_class_or_function false (self h) in
  node_at root q = Some unit_root ->
  Forall is_comment_statement comments ->
  nth_error (children unit_root) i = Some (Leaf ASYNC la ca) ->
  Forall (fun t => NodeName t <> "funcdef") rest ->
  exists v0 v1 W,
    let h1 :=
      mkHeap s0 (((0 :: p)%nat, Some v0) :: newlines h) (visits h) in
    _SetBlankLinesBetweenCommentAndClassFunc cfg root p node
      (mkHeap s0 (newlines h) (visits h)) = Ok 0%nat h1
    /\ _SetBlankLinesBetweenCommentAndClassFunc cfg root q unit_root h1 =
       Ok k (mkHeap s0
               (((k :: q)%nat, Some v1)
                  :: comment_writes s0 q 0 k ++ newlines h1)
               (comment_tokens q 0 k ++ visits h))
    /\ (if comment_adjacent s0 comments l0 then v1 = _NO_BLANK_LINES
        else _GetNumNewlines cfg root q unit_root h1 = Ok v1 h1)
    /\ newlines
         (heap_of (Visit_funcdef cfg root (Visit cfg root DecoratedTarget)
                     p node h)) =
       W ++ ((0 :: p)%nat, None) :: ((k :: q)%nat, Some v1)
         :: comment_writes s0 q 0 k
         ++ ((0 :: p)%nat, Some v0) :: newlines h
    /\ Forall (fun w => exists j, below (j :: p)%nat (fst w)) W.
Proof.
  intros unit_root k p node s0 Hunit Hall Hkw Hrest.
  assert (Hasync : _AsyncFunction root p = true).
  { unfold _AsyncFunction, p. cbn [prev_sibling].
    now rewrite (node_at_child root q _ i Hunit), Hkw. }
  set (h0 := mkHeap s0 (newlines h) (visits h)).
  destruct (comment_then_definition_no_comment cfg root p "funcdef" ty l c
              rest h0) as (v0 & E0).
  fold node in E0. cbn [self newlines visits h0] in E0.
  set (h1 := mkHeap s0 (((0 :: p)%nat, Some v0) :: newlines h) (visits h))
    in *.
  destruct (comment_then_definition_exact cfg root q unit_name comments ty0
              l0 c0 more h1 Hall) as (v1 & Hv1 & E1).
  specialize (E1 h1 eq_refl). fold unit_root k in E1, Hv1.
  cbn [self newlines visits h1] in E1, Hv1.
  set (h2 := mkHeap s0
               (((k :: q)%nat, Some v1)
                  :: comment_writes s0 q 0 k ++ newlines h1)
               (comment_tokens q 0 k ++ visits h)) in *.
  set (h3 := mkHeap s0 (((0 :: p)%nat, None) :: newlines h2) (visits h2)).
  pose proof (sound_after_routine cfg root DecoratedTarget p
                (Leaf ty l c :: rest) k) as Htail.
  assert (Hcs : Forall (fun t => NodeName t <> "funcdef")
                  (Leaf ty l c :: rest))
    by (constructor; [destruct ty; discriminate|exact Hrest]).
  specialize (Htail Hcs). destruct (Htail h3) as [(W & EW & FW) _].
  exists v0, v1, W. split; [exact E0|]. split; [exact E1|].
  split; [exact Hv1|]. split; [|exact FW].
  assert (Hrun : Visit_funcdef cfg root (Visit cfg root DecoratedTarget) p
                   node h =
                 (update (with_last_was_decorator false) ;;
                  update (fun s =>
                            with_function_level (function_level s + 1) s) ;;
                  visit_each (Visit cfg root DecoratedTarget) p k 0%nat
                    (Leaf ty l c :: rest) ;;
                  update (fun s =>
                            with_function_level (function_level s - 1) s) ;;
                  update (with_last_was_class_or_function true) ;;
                  update (with_prev_stmt (Some p))) h3).
  { unfold Visit_funcdef. unfold bind at 1. unfold update at 1.
    fold s0. fold h0. unfold bind at 1. rewrite E0.
    unfold bind at 1. rewrite Hasync. cbn [parent p].
    fold p. rewrite Hunit. unfold bind at 1. rewrite E1.
    unfold bind at 1. cbn [item node children nth_error ret].
    unfold bind at 1. cbn [fst _SetNumNewlines SetNodeAnnotation].
    reflexivity. }
  rewrite Hrun. exact EW.
Qed.

(** On a tree in which an [async] function definition starts with its
    keyword and has no function definition among its other children, a
    walk that returns has left no value on that keyword. *)
Lemma walk_clears_def_keyword (cfg : style)
    (DecoratedTarget : pytree -> path -> list string -> option path)
    (root : pytree) (q : path) (i : nat) (ty : token) (l c : Z)
    (rest : list pytree) (ann : list (path * option Z)) (h_end : heap) :
  node_at root (S i :: q)%nat = Some (Node "funcdef" (Leaf ty l c :: rest)) ->
  _AsyncFunction root (S i :: q)%nat = true ->
  Forall (fun t => NodeName t <> "funcdef") rest ->
  CalculateBlankLines cfg DecoratedTarget root ann = Ok tt h_end ->
  exists W,
    newlines h_end = W ++ ann
    /\ GetNodeAnnotation W (0 :: S i :: q)%nat = None.
Proof.
  intros Hnode Hasync Hrest Hrun.
  pose proof (hush_Visit cfg root (DecoratedTarget root) q i ty l c rest
                Hnode Hasync Hrest root [] eq_refl (mkHeap __init__ ann []))
    as H.
  unfold post in H. unfold CalculateBlankLines in Hrun.
  rewrite Hrun in H. exact H.
Qed.




(** The state the witness starts from is the state the walk is in when it
    reaches the function of [async_after_comment]. *)
Example state_before_commented_async_def :
  self (heap_of (visit_each (Visit (mkStyle 2 1) async_after_comment
                               (last_child_target async_after_comment))
                   [1]%nat 0 0
                   [Node "simple_stmt" [Leaf COMMENT 3 0]; Leaf ASYNC 4 0]
                   (heap_of (Visit (mkStyle 2 1) async_after_comment
                               (last_child_target async_after_comment)
                               [0]%nat
                               (Node "simple_stmt"
                                  [Leaf NAME 1 0; Leaf NEWLINE 1 5])
                               (mkHeap __init__ [] [])))))
  = self before_commented_async_def.
Proof. vm_compute. reflexivity. Qed.
